(** * task_app: the kanban store and the "today" ranking of app.py

    A shallow embedding of [app.py]: the urgency score ([score_task]), the
    ranking of the open tasks ([fetch_today]), the three handlers that
    write the [tasks] table ([add_task], [delete_task], [move_task]), the
    views ([index], [api_today]) and the schema ([init_db]).

    Modelling choices.
    - Python [str] is [string], the bytes of its UTF-8 encoding.  [lower]
      changes the ASCII letters only; [str.lower] changes others too, but
      the result is compared with low, mid and high alone, and no string
      with a character outside ASCII has one of these as its lower case.
      The [\d] of a regular expression is any decimal digit of Unicode,
      read from those bytes.  A [str] that has no UTF-8 encoding (one with
      a lone surrogate) is not a [string]; a form field never is one.
    - Python [int] is [Z].  An SQLite INTEGER is a signed 64-bit integer: a
      Python [int] outside that range cannot be bound to a statement, and
      the handlers that bind a task id raise [OverflowError] on one.  The
      counter of the row ids is taken unbounded: it starts at 0 and goes up
      by one per insert, so the handlers do not bring it to 2^63 - 1, where
      SQLite refuses an insert.
    - [datetime.strptime(s, "%Y-%m-%d")] and [isoformat(timespec="seconds")]
      are written out after CPython's [_strptime] and [datetime] modules;
      [datetime.fromisoformat], whose grammar changes with the interpreter's
      version, is a parameter of the development.
    - The handlers run in a small state-and-exception monad over a world
      made of the table and the system clock; every [date.today()] and
      [datetime.now()] is one read of that clock. *)

From Stdlib Require Import ZArith List String Ascii Bool Lia.
From Stdlib Require Import Sorting.Sorted Sorting.Permutation.
Import ListNotations.

Local Open Scope string_scope.
Local Open Scope list_scope.
Local Open Scope Z_scope.

(** ** The calendar of [datetime.date] *)

Module Calendar.

Record date : Type := mkDate { year : Z; month : Z; day : Z }.

Definition _is_leap (y : Z) : bool :=
  (y mod 4 =? 0) && (negb (y mod 100 =? 0) || (y mod 400 =? 0)).

Definition _days_before_year (y : Z) : Z :=
  let y := y - 1 in y * 365 + y / 4 - y / 100 + y / 400.

Definition _DAYS_IN_MONTH : list Z :=
  [31; 28; 31; 30; 31; 30; 31; 31; 30; 31; 30; 31].

Definition _days_in_month (y m : Z) : Z :=
  if (m =? 2) && _is_leap y then 29
  else nth (Z.to_nat (m - 1)) _DAYS_IN_MONTH 0.

Definition _DAYS_BEFORE_MONTH : list Z :=
  [0; 31; 59; 90; 120; 151; 181; 212; 243; 273; 304; 334].

Definition _days_before_month (y m : Z) : Z :=
  nth (Z.to_nat (m - 1)) _DAYS_BEFORE_MONTH 0
  + (if (2 <? m) && _is_leap y then 1 else 0).

(** [date.toordinal()]: 1 is 0001-01-01. *)
Definition toordinal (d : date) : Z :=
  _days_before_year (year d) + _days_before_month (year d) (month d) + day d.

(** [(a - b).days] *)
Definition days_between (a b : date) : Z := toordinal a - toordinal b.

(** What the constructor [date(y, m, d)] accepts. *)
Definition valid_ymd (y m d : Z) : bool :=
  (1 <=? y) && (y <=? 9999) && (1 <=? m) && (m <=? 12)
  && (1 <=? d) && (d <=? _days_in_month y m).

Record datetime : Type :=
  mkDatetime { dt_date : date; hour : Z; minute : Z; second : Z }.

End Calendar.
Export Calendar.

(** ** Characters and strings *)

Definition code (c : ascii) : Z := Z.of_nat (nat_of_ascii c).

Definition in_range (lo hi c : ascii) : bool :=
  (code lo <=? code c) && (code c <=? code hi).

Definition is_digit (c : ascii) : bool := in_range "0" "9" c.

Definition digit_val (c : ascii) : Z := code c - 48.

(** [str.lower()] on one character. *)
Definition lower_ascii (c : ascii) : ascii :=
  if in_range "A" "Z" c then ascii_of_nat (nat_of_ascii c + 32) else c.

Fixpoint lower (s : string) : string :=
  match s with
  | EmptyString => EmptyString
  | String c s' => String (lower_ascii c) (lower s')
  end.

(** [x in xs] for a list of strings. *)
Definition str_in (x : string) (xs : list string) : bool :=
  existsb (String.eqb x) xs.

(** [dict.get(k, default)] on a dict literal with string keys. *)
Fixpoint dict_get {V : Type} (d : list (string * V)) (k : string) (dflt : V) : V :=
  match d with
  | [] => dflt
  | (k', v) :: d' => if String.eqb k k' then v else dict_get d' k dflt
  end.

(** ** [datetime.strptime(s, "%Y-%m-%d")]

    [_strptime] compiles the format to the regular expression
    [(?P<Y>\d\d\d\d)-(?P<m>1[0-2]|0[1-9]|[1-9])-(?P<d>3[01]|[12]\d|0[1-9]|[1-9]| [1-9])],
    matches it at the start of the string, refuses a string with text left
    after the match, and builds the date, which checks the day against the
    month.  Alternatives are tried from left to right.  The pattern is a
    [str] pattern: [\d] matches the decimal digits of every script, while
    the classes [[0-2]], [[1-9]] and the literal digits are ASCII. *)

Module Strptime.

Definition orelse {A : Type} (a b : option A) : option A :=
  match a with Some _ => a | None => b end.

(** A continuation byte of UTF-8 and the six bits it carries. *)
Definition continuation (s : string) : option (Z * string) :=
  match s with
  | String c rest =>
      if (128 <=? code c) && (code c <=? 191) then Some (code c - 128, rest)
      else None
  | EmptyString => None
  end.

(** The first character of the string, as its code point, and the text
    after it.  Bytes that are not the encoding of a character give [None]. *)
Definition decode_char (s : string) : option (Z * string) :=
  match s with
  | EmptyString => None
  | String c0 s1 =>
      let b0 := code c0 in
      if b0 <? 128 then Some (b0, s1)
      else if (194 <=? b0) && (b0 <=? 223) then
        match continuation s1 with
        | Some (x1, s2) => Some ((b0 - 192) * 64 + x1, s2)
        | None => None
        end
      else if (224 <=? b0) && (b0 <=? 239) then
        match continuation s1 with
        | Some (x1, s2) =>
            match continuation s2 with
            | Some (x2, s3) =>
                let cp := ((b0 - 224) * 64 + x1) * 64 + x2 in
                if (2048 <=? cp) && negb ((55296 <=? cp) && (cp <=? 57343))
                then Some (cp, s3) else None
            | None => None
            end
        | None => None
        end
      else if (240 <=? b0) && (b0 <=? 244) then
        match continuation s1 with
        | Some (x1, s2) =>
            match continuation s2 with
            | Some (x2, s3) =>
                match continuation s3 with
                | Some (x3, s4) =>
                    let cp := (((b0 - 240) * 64 + x1) * 64 + x2) * 64 + x3 in
                    if (65536 <=? cp) && (cp <=? 1114111)
                    then Some (cp, s4) else None
                | None => None
                end
            | None => None
            end
        | None => None
        end
      else None
  end.

(** The characters of category Nd: the code point of the digit zero of
    each script of Unicode 14.0, the version of the [unicodedata] of
    CPython 3.11.  The ten digits of a script have consecutive code
    points. *)
Definition DECIMAL_ZEROS : list Z :=
  [48; 1632; 1776; 1984; 2406; 2534; 2662; 2790; 2918; 3046; 3174; 3302;
   3430; 3558; 3664; 3792; 3872; 4160; 4240; 6112; 6160; 6470; 6608; 6784;
   6800; 6992; 7088; 7232; 7248; 42528; 43216; 43264; 43472; 43504; 43600;
   44016; 65296; 66720; 68912; 69734; 69872; 69942; 70096; 70384; 70736;
   70864; 71248; 71360; 71472; 71904; 72016; 72784; 73040; 73120; 92768;
   92864; 93008; 120782; 120792; 120802; 120812; 120822; 123200; 123632;
   125264; 130032].

(** The value [int] gives a decimal digit. *)
Definition decimal_value (cp : Z) : option Z :=
  match find (fun z => (z <=? cp) && (cp <=? z + 9)) DECIMAL_ZEROS with
  | Some z => Some (cp - z)
  | None => None
  end.

(** [\d]: one decimal digit, in any script. *)
Definition match_digit (s : string) : option (Z * string) :=
  match decode_char s with
  | Some (cp, rest) =>
      match decimal_value cp with
      | Some v => Some (v, rest)
      | None => None
      end
  | None => None
  end.

(** [\d\d\d\d], read by [int] *)
Definition match_Y (s : string) : option (Z * string) :=
  match match_digit s with
  | Some (a, s1) =>
    match match_digit s1 with
    | Some (b, s2) =>
      match match_digit s2 with
      | Some (c, s3) =>
        match match_digit s3 with
        | Some (d, rest) => Some (1000 * a + 100 * b + 10 * c + d, rest)
        | None => None
        end
      | None => None
      end
    | None => None
    end
  | None => None
  end.

Definition match_dash (s : string) : option string :=
  match s with
  | String "-" rest => Some rest
  | _ => None
  end.

(** [3[01]|[12]\d|0[1-9]|[1-9]| [1-9]]: the last group, so the first
    alternative that matches decides where the match ends. *)
Definition match_d (s : string) : option (Z * string) :=
  orelse
    (match s with
     | String "3" (String b rest) =>
         if in_range "0" "1" b then Some (30 + digit_val b, rest) else None
     | _ => None
     end)
 (orelse
    (match s with
     | String a s1 =>
         if in_range "1" "2" a
         then match match_digit s1 with
              | Some (b, rest) => Some (10 * digit_val a + b, rest)
              | None => None
              end
         else None
     | _ => None
     end)
 (orelse
    (match s with
     | String "0" (String b rest) =>
         if in_range "1" "9" b then Some (digit_val b, rest) else None
     | _ => None
     end)
 (orelse
    (match s with
     | String a rest =>
         if in_range "1" "9" a then Some (digit_val a, rest) else None
     | _ => None
     end)
    (match s with
     | String " " (String b rest) =>
         if in_range "1" "9" b then Some (digit_val b, rest) else None
     | _ => None
     end)))).

(** [1[0-2]|0[1-9]|[1-9]] followed by the rest of the expression [k]; an
    alternative is given up when what follows it does not match. *)
Definition match_m {A : Type} (k : Z -> string -> option A) (s : string)
  : option A :=
  orelse
    (match s with
     | String "1" (String b rest) =>
         if in_range "0" "2" b then k (10 + digit_val b) rest else None
     | _ => None
     end)
 (orelse
    (match s with
     | String "0" (String b rest) =>
         if in_range "1" "9" b then k (digit_val b) rest else None
     | _ => None
     end)
    (match s with
     | String a rest =>
         if in_range "1" "9" a then k (digit_val a) rest else None
     | _ => None
     end)).

(** The groups of the match and the text left after it. *)
Definition regex_match (s : string) : option (Z * Z * Z * string) :=
  match match_Y s with
  | None => None
  | Some (y, s1) =>
      match match_dash s1 with
      | None => None
      | Some s2 =>
          match_m (fun m s3 =>
                     match match_dash s3 with
                     | None => None
                     | Some s4 =>
                         match match_d s4 with
                         | None => None
                         | Some (d, rest) => Some (y, m, d, rest)
                         end
                     end) s2
      end
  end.

(** [None] stands for the [ValueError] of [strptime]. *)
Definition strptime_ymd (s : string) : option date :=
  match regex_match s with
  | Some (y, m, d, EmptyString) =>
      if valid_ymd y m d then Some (mkDate y m d) else None
  | _ => None
  end.

End Strptime.
Export Strptime.

(** ** [datetime.isoformat(timespec="seconds")] *)

Module Isoformat.

Definition digit_char (n : Z) : ascii := ascii_of_nat (Z.to_nat (48 + n mod 10)).

(** ["%02d"] *)
Definition pad2 (n : Z) : string :=
  String (digit_char (n / 10)) (String (digit_char n) EmptyString).

(** ["%04d"] *)
Definition pad4 (n : Z) : string :=
  String (digit_char (n / 1000)) (String (digit_char (n / 100)) (pad2 n)).

Definition isoformat_seconds (t : datetime) : string :=
  (pad4 (year (dt_date t)) ++ "-" ++ pad2 (month (dt_date t)) ++ "-"
   ++ pad2 (day (dt_date t)) ++ "T" ++ pad2 (hour t) ++ ":"
   ++ pad2 (minute t) ++ ":" ++ pad2 (second t))%string.

(** The reading of [datetime.fromisoformat(s).date()] on the timestamps
    that [isoformat_seconds] writes: [YYYY-MM-DDTHH:MM:SS], in ASCII
    digits and the time in range.  Every interpreter version reads these
    strings this way; other strings are refused here. *)
Definition two_digits (s : string) : option (Z * string) :=
  match s with
  | String a (String b rest) =>
      if is_digit a && is_digit b
      then Some (10 * digit_val a + digit_val b, rest) else None
  | _ => None
  end.

Definition four_digits (s : string) : option (Z * string) :=
  match two_digits s with
  | Some (hi, s1) =>
      match two_digits s1 with
      | Some (lo, rest) => Some (100 * hi + lo, rest)
      | None => None
      end
  | None => None
  end.

Definition fromisoformat_seconds_date (s : string) : option date :=
  match four_digits s with
  | Some (y, String "-" s1) =>
    match two_digits s1 with
    | Some (m, String "-" s2) =>
      match two_digits s2 with
      | Some (d, String "T" s3) =>
        match two_digits s3 with
        | Some (hh, String ":" s4) =>
          match two_digits s4 with
          | Some (mm, String ":" s5) =>
            match two_digits s5 with
            | Some (ss, EmptyString) =>
                if valid_ymd y m d && (hh <=? 23) && (mm <=? 59) && (ss <=? 59)
                then Some (mkDate y m d) else None
            | _ => None
            end
          | _ => None
          end
        | _ => None
        end
      | _ => None
      end
    | _ => None
    end
  | _ => None
  end.

End Isoformat.
Export Isoformat.

(** ** The [tasks] table *)

Module Row.

(** One row of [tasks]; [done_at] is the only nullable column. *)
Record t : Type := mk {
  id : Z;
  title : string;
  due_date : string;
  priority : Z;
  created_at : string;
  done : Z;
  done_at : option string;
  status : string
}.

End Row.

(** The table and the [sqlite_sequence] counter that [AUTOINCREMENT] keeps:
    the largest row id ever handed out. *)
Record Store : Type := mkStore { rows : list Row.t; seq : Z }.

Definition empty_store : Store := mkStore [] 0.

(** ** Sorting as [list.sort] and [ORDER BY] do it

    A stable sort on decorated items: equal keys keep the order they came
    in.  Only [<] on keys is used. *)

Section StableSort.

Context {K A : Type} (lt : K -> K -> bool).

Fixpoint insert_by (x : K * A) (l : list (K * A)) : list (K * A) :=
  match l with
  | [] => [x]
  | y :: l' => if lt (fst y) (fst x) then y :: insert_by x l' else x :: l
  end.

Fixpoint sort_by (l : list (K * A)) : list (K * A) :=
  match l with
  | [] => []
  | x :: l' => insert_by x (sort_by l')
  end.

(** [a] may stand before [b]: the key of [b] is not below that of [a]. *)
Definition key_le (a b : K * A) : Prop := lt (fst b) (fst a) = false.

End StableSort.

(** [<] on the 4-tuples of ints that [fetch_today] sorts by. *)
Definition tuple_lt (a b : Z * Z * Z * Z) : bool :=
  let '(a1, a2, a3, a4) := a in
  let '(b1, b2, b3, b4) := b in
  if negb (a1 =? b1) then a1 <? b1
  else if negb (a2 =? b2) then a2 <? b2
  else if negb (a3 =? b3) then a3 <? b3
  else a4 <? b4.

(** [seq[:top]] *)
Definition slice_to {A : Type} (top : Z) (l : list A) : list A :=
  if 0 <=? top then firstn (Z.to_nat top) l
  else firstn (List.length l - Z.to_nat (- top)) l.

(** ** The SQL statements *)

Module Sql.

Definition order_by_id (l : list Row.t) : list Row.t :=
  map snd (sort_by Z.ltb (map (fun r => (Row.id r, r)) l)).

(** [SELECT * FROM tasks WHERE status != 'done' ORDER BY id ASC] *)
Definition select_open (st : Store) : list Row.t :=
  order_by_id
    (filter (fun r => negb (String.eqb (Row.status r) "done")) (rows st)).

Definition max_id (l : list Row.t) : Z :=
  fold_right (fun r m => Z.max (Row.id r) m) 0 l.

(** The row id an [AUTOINCREMENT] key gets: one more than the largest
    ever used. *)
Definition next_id (st : Store) : Z := Z.max (seq st) (max_id (rows st)) + 1.

(** [INSERT INTO tasks (title, due_date, priority, created_at, status, done)
    VALUES (?, ?, ?, ?, ?, 0)]; [done_at] is not listed and stays NULL. *)
Definition insert_task (title due_date : string) (p : Z) (now st : string)
    (s : Store) : Store :=
  let i := next_id s in
  mkStore (rows s ++ [Row.mk i title due_date p now 0 None st]) i.

(** [DELETE FROM tasks WHERE id=?] *)
Definition delete_by_id (task_id : Z) (s : Store) : Store :=
  mkStore (filter (fun r => negb (Row.id r =? task_id)) (rows s)) (seq s).

Definition update_where_id (task_id : Z) (f : Row.t -> Row.t) (s : Store)
  : Store :=
  mkStore (map (fun r => if Row.id r =? task_id then f r else r) (rows s))
          (seq s).

(** [UPDATE tasks SET status='done', done=1, done_at=? WHERE id=?] *)
Definition update_done (now : string) (task_id : Z) : Store -> Store :=
  update_where_id task_id
    (fun r => Row.mk (Row.id r) (Row.title r) (Row.due_date r)
                     (Row.priority r) (Row.created_at r) 1 (Some now) "done").

(** [UPDATE tasks SET status=?, done=0, done_at=NULL WHERE id=?] *)
Definition update_status (st : string) (task_id : Z) : Store -> Store :=
  update_where_id task_id
    (fun r => Row.mk (Row.id r) (Row.title r) (Row.due_date r)
                     (Row.priority r) (Row.created_at r) 0 None st).

End Sql.

(** ** The world and the monad of the handlers *)

Inductive exn : Type :=
| ValueError
| OverflowError.

Inductive outcome (A : Type) : Type :=
| Ok (a : A)
| Raise (e : exn).
Arguments Ok {A} a.
Arguments Raise {A} e.

(** The table, the system clock as the sequence of instants it will show,
    and how many times it has been read. *)
Record World : Type :=
  mkWorld { db : Store; clock : nat -> datetime; reads : nat }.

Definition M (A : Type) : Type := World -> outcome A * World.

Definition ret {A : Type} (a : A) : M A := fun w => (Ok a, w).

Definition bind {A B : Type} (m : M A) (k : A -> M B) : M B :=
  fun w =>
    match m w with
    | (Ok a, w') => k a w'
    | (Raise e, w') => (Raise e, w')
    end.

Notation "x <- m ;; k" := (bind m (fun x => k))
  (at level 61, m at next level, right associativity).

Definition raise {A : Type} (e : exn) : M A := fun w => (Raise e, w).

(** [try: body / except Exception: handler] *)
Definition try_except {A : Type} (body : M A) (handler : M A) : M A :=
  fun w =>
    match body w with
    | (Ok a, w') => (Ok a, w')
    | (Raise _, w') => handler w'
    end.

Definition of_option {A : Type} (o : option A) : M A :=
  match o with Some a => ret a | None => raise ValueError end.

Definition read_clock : M datetime :=
  fun w => (Ok (clock w (reads w)), mkWorld (db w) (clock w) (S (reads w))).

(** [date.today()] *)
Definition date_today : M date := t <- read_clock ;; ret (dt_date t).

(** [datetime.now().isoformat(timespec="seconds")] *)
Definition now_isoformat : M string := t <- read_clock ;; ret (isoformat_seconds t).

(** [conn.execute(stmt)] with the [conn.commit()] that follows it. *)
Definition execute (stmt : Store -> Store) : M unit :=
  fun w => (Ok tt, mkWorld (stmt (db w)) (clock w) (reads w)).

(** The integers that sqlite3 binds to a [?]: those of 64 bits, signed. *)
Definition int64 (n : Z) : bool :=
  (- 9223372036854775808 <=? n) && (n <=? 9223372036854775807).

(** [conn.execute(stmt, (..., n))] for a Python int [n], with the
    [conn.commit()] that follows it: an [n] that does not fit raises
    [OverflowError] before the statement runs. *)
Definition execute_int (n : Z) (stmt : Z -> Store -> Store) : M unit :=
  if int64 n then execute (stmt n) else raise OverflowError.

(** [conn.execute(query).fetchall()] *)
Definition fetchall {A : Type} (query : Store -> A) : M A :=
  fun w => (Ok (query (db w)), w).

(** [for x in xs: acc = step(acc, x)] *)
Fixpoint for_each {A B : Type} (xs : list A) (step : B -> A -> M B) (acc : B)
  : M B :=
  match xs with
  | [] => ret acc
  | x :: xs' => acc' <- step acc x ;; for_each xs' step acc'
  end.

Inductive Response : Type :=
| RedirectResponse (url : string) (status_code : Z)
| JSONResponse (body : list (string * bool)).

(** ** app.py *)

Definition PRIORITY_MAP : list (string * Z) :=
  [("low", 1); ("mid", 2); ("high", 3)].

Definition STATUSES : list string := ["todo"; "pending"; "progress"; "done"].

Section App.

(** [datetime.fromisoformat(s).date()], [None] for its [ValueError]. *)
Variable fromisoformat_date : string -> option date.

(** The four terms of [score_task], each as its block computes it. *)
Definition status_w (status : string) : Z :=
  dict_get [("progress", 18); ("todo", 10); ("pending", 2); ("done", -9999)]
           status 10.

Definition due_w (d : Z) : Z :=
  if d <? 0 then 35 else Z.max 0 (20 - d).

Definition pri_w (priority : Z) : Z := priority * 8.

Definition age_w (today : date) (created_at : string) : M Z :=
  try_except
    (created <- of_option (fromisoformat_date created_at) ;;
     let age_days := days_between today created in
     ret (Z.min 10 (Z.max 0 age_days)))
    (ret 0).

Definition score_task (due_date_str : string) (priority : Z)
    (status created_at : string) : M Z :=
  let status_w := status_w status in
  due <- of_option (strptime_ymd due_date_str) ;;
  today <- date_today ;;
  let d := days_between due today in
  let due_w := due_w d in
  let pri_w := pri_w priority in
  age_w <- age_w today created_at ;;
  ret (status_w + due_w + pri_w + age_w).

(** The inner [due_days] of [fetch_today]. *)
Definition due_days (r : Row.t) : M Z :=
  due <- of_option (strptime_ymd (Row.due_date r)) ;;
  today <- date_today ;;
  ret (days_between due today).

(** The [key=] of the sort, called once per element before any
    comparison. *)
Definition sort_key (x : Z * Row.t) : M (Z * Z * Z * Z) :=
  dd <- due_days (snd x) ;;
  ret (- fst x, dd, - Row.priority (snd x), Row.id (snd x)).

Definition sort_scored (scored : list (Z * Row.t)) : M (list (Z * Row.t)) :=
  keyed <- for_each scored
             (fun acc x => k <- sort_key x ;; ret (acc ++ [(k, x)])) [] ;;
  ret (map snd (sort_by tuple_lt keyed)).

Definition fetch_today (top : Z) : M (list (Z * Row.t)) :=
  rows <- fetchall Sql.select_open ;;
  scored <- for_each rows
              (fun scored r =>
                 s <- score_task (Row.due_date r) (Row.priority r)
                                 (Row.status r) (Row.created_at r) ;;
                 ret (scored ++ [(s, r)])) [] ;;
  scored <- sort_scored scored ;;
  ret (slice_to top scored).


(** The [try: strptime(due_date) / except ValueError: return] at its head is
    the match on what [strptime] gives. *)
Definition add_task (title due_date priority status : string) : M Response :=
  match strptime_ymd due_date with
  | None => ret (RedirectResponse "/?error=bad_date" 303)
  | Some _ =>
      let p := dict_get PRIORITY_MAP (lower priority) 2 in
      let st := if str_in status STATUSES then status else "todo" in
      now <- now_isoformat ;;
      _ <- execute (Sql.insert_task title due_date p now st) ;;
      ret (RedirectResponse "/" 303)
  end.

Definition delete_task (task_id : Z) : M Response :=
  _ <- execute_int task_id Sql.delete_by_id ;;
  ret (RedirectResponse "/" 303).

Definition move_task (task_id : Z) (payload_status : string) : M Response :=
  let st := if str_in payload_status STATUSES then payload_status else "todo" in
  now <- now_isoformat ;;
  _ <- (if String.eqb st "done"
        then execute_int task_id (Sql.update_done now)
        else execute_int task_id (Sql.update_status st)) ;;
  ret (JSONResponse [("ok", true)]).

End App.

(** ** Vocabulary of the statements *)

(** The world after one read of the clock. *)
Definition tick (w : World) : World := mkWorld (db w) (clock w) (S (reads w)).

(** The date the next [date.today()] returns. *)
Definition today_of (w : World) : date := dt_date (clock w (reads w)).

(** The clock shows the date [today] at every read. *)
Definition steady (today : date) (w : World) : Prop :=
  forall n, dt_date (clock w n) = today.

(** [w'] is [w] after some reads of the clock and nothing else. *)
Definition later (w w' : World) : Prop :=
  db w' = db w /\ clock w' = clock w.

(** The row's [due_date] is accepted by [strptime]. *)
Definition parses (r : Row.t) : Prop := strptime_ymd (Row.due_date r) <> None.

(** What the aging block of [score_task] leaves in [age_w]. *)
Definition age_on (frm : string -> option date) (today : date)
    (created_at : string) : Z :=
  match frm created_at with
  | Some created => Z.min 10 (Z.max 0 (days_between today created))
  | None => 0
  end.

(** [score_task] called on the columns of a row. *)
Definition score_row (frm : string -> option date) (r : Row.t) : M Z :=
  score_task frm (Row.due_date r) (Row.priority r) (Row.status r)
             (Row.created_at r).

(** The order [fetch_today] sorts by, on entries [(score, row)], with the
    days until due as [due_days] computes them in [w]: higher score first,
    then fewer days until due, then higher priority, then smaller id. *)
Definition ranks_before (w : World) (x y : Z * Row.t) : Prop :=
  exists dx dy,
    fst (due_days (snd x) w) = Ok dx /\
    fst (due_days (snd y) w) = Ok dy /\
    (fst x > fst y \/
     (fst x = fst y /\
      (dx < dy \/
       (dx = dy /\
        (Row.priority (snd x) > Row.priority (snd y) \/
         (Row.priority (snd x) = Row.priority (snd y) /\
          Row.id (snd x) <= Row.id (snd y))))))).

(** A decorated entry of the sort: the row [r], its score as computed in
    [ws] and its key as computed in [wk]. *)
Definition entry_of (frm : string -> option date) (ws wk : World) (r : Row.t)
    (e : (Z * Z * Z * Z) * (Z * Row.t)) : Prop :=
  snd (snd e) = r /\
  fst (score_row frm r ws) = Ok (fst (snd e)) /\
  exists dd, fst (due_days r wk) = Ok dd /\
             fst e = (- fst (snd e), dd, - Row.priority r, Row.id r).

(** A decorated entry whose score and key are both those computed in [w]. *)
Definition keyed_in (frm : string -> option date) (w : World)
    (e : (Z * Z * Z * Z) * (Z * Row.t)) : Prop :=
  fst (score_row frm (snd (snd e)) w) = Ok (fst (snd e)) /\
  exists dd, fst (due_days (snd (snd e)) w) = Ok dd /\
    fst e = (- fst (snd e), dd, - Row.priority (snd (snd e)),
             Row.id (snd (snd e))).

(** The mirror of [status] in the legacy columns. *)
Definition mirrored (r : Row.t) : Prop :=
  (Row.done r = 1 <-> Row.status r = "done") /\
  (Row.done_at r <> None <-> Row.status r = "done").

(** The requests that write the table, and a session of them. *)
Inductive request : Type :=
| Add (title due_date priority status : string)
| Delete (task_id : Z)
| Move (task_id : Z) (payload_status : string).

Definition handle (q : request) : M Response :=
  match q with
  | Add t d p s => add_task t d p s
  | Delete i => delete_task i
  | Move i s => move_task i s
  end.

Fixpoint session (qs : list request) (w : World) : World :=
  match qs with
  | [] => w
  | q :: qs' => session qs' (snd (handle q w))
  end.

(** The world after [n] reads of the clock. *)
Definition ticks (n : nat) (w : World) : World :=
  mkWorld (db w) (clock w) (n + reads w).

(** Every row id of the table is an SQLite INTEGER, as the ids of a table
    on disk are. *)
Definition ids_int64 (s : Store) : Prop :=
  Forall (fun r => int64 (Row.id r) = true) (rows s).

(** The date the clock shows at the [k]-th read to come, counted from 0. *)
Definition date_at (k : nat) (w : World) : date :=
  dt_date (clock w (k + reads w)).

(** Two worlds with the same table whose clocks show the same dates at
    their next [n] reads, read for read. *)
Definition same_dates (n : nat) (w1 w2 : World) : Prop :=
  db w1 = db w2 /\ forall k, (k < n)%nat -> date_at k w1 = date_at k w2.

(** A computation that reads the clock at most [n] times and does nothing
    else to the world, and whose result depends on the world only through
    the table and the dates the clock shows at those reads. *)
Definition date_determined {A : Type} (n : nat) (m : M A) : Prop :=
  forall w1 w2, same_dates n w1 w2 ->
    fst (m w1) = fst (m w2) /\
    exists j, (j <= n)%nat /\
              snd (m w1) = ticks j w1 /\ snd (m w2) = ticks j w2.

(** A world whose clock stays on the day [d]. *)
Definition world_on (d : date) (st : Store) : World :=
  mkWorld st (fun _ => mkDatetime d 12 0 0) 0.

(** A world whose clock passes from [d1] to [d2] after [k] reads. *)
Definition world_over_midnight (d1 d2 : date) (k : nat) (st : Store) : World :=
  mkWorld st
    (fun n => if (n <? k)%nat then mkDatetime d1 23 59 59
              else mkDatetime d2 0 0 0) 0.

(** The world and the rows of the worked examples. *)
Definition day0 : date := mkDate 2024 3 1.

Definition demo_row (i : Z) (due : string) (p : Z) (created st : string) : Row.t :=
  Row.mk i "T" due p created 0 None st.

Definition demo_store : Store :=
  mkStore
    [ demo_row 1 "2024-03-04" 2 "2024-02-20T08:00:00" "todo";
      demo_row 2 "2024-03-02" 1 "2024-03-01T08:00:00" "progress";
      demo_row 3 "2024-02-27" 3 "2024-02-01T08:00:00" "done";
      demo_row 4 "2024-03-10" 3 "2024-02-28T08:00:00" "todo";
      demo_row 5 "2024-03-02" 3 "not a timestamp" "pending" ]
    5.

(** Two rows that differ in their id only. *)
Definition twin_store : Store :=
  mkStore
    [ demo_row 1 "2024-03-04" 2 "2024-02-20T08:00:00" "todo";
      demo_row 2 "2024-03-04" 2 "2024-02-20T08:00:00" "todo" ]
    2.

(** A decidable form of [parses] on every row of a list. *)
Definition all_parse (l : list Row.t) : bool :=
  forallb (fun r => match strptime_ymd (Row.due_date r) with
                    | Some _ => true
                    | None => false
                    end) l.

(** The status a handler resolves a requested status to. *)
Definition resolved (status : string) : string :=
  if str_in status STATUSES then status else "todo".

(** What [move_task] makes of a row with the requested id. *)
Definition moved (st now : string) (r : Row.t) : Row.t :=
  if String.eqb st "done"
  then Row.mk (Row.id r) (Row.title r) (Row.due_date r) (Row.priority r)
              (Row.created_at r) 1 (Some now) "done"
  else Row.mk (Row.id r) (Row.title r) (Row.due_date r) (Row.priority r)
              (Row.created_at r) 0 None st.

(** ** The board and the JSON view: the rest of app.py *)

Definition PRIORITY_LABEL : list (Z * string) :=
  [(1, "LOW"); (2, "MID"); (3, "HIGH")].

Definition STATUS_LABEL : list (string * string) :=
  [("todo", "To do"); ("pending", "Pending"); ("progress", "In progress");
   ("done", "Done")].

(** [ORDER BY due_date ASC, priority DESC, id ASC]: [due_date] is a TEXT
    column, compared byte by byte. *)
Definition board_lt (a b : string * Z * Z) : bool :=
  let '(d1, p1, i1) := a in
  let '(d2, p2, i2) := b in
  if negb (String.eqb d1 d2) then String.ltb d1 d2
  else if negb (p1 =? p2) then p2 <? p1
  else i1 <? i2.

(** [SELECT * FROM tasks WHERE status=? ORDER BY due_date ASC, priority DESC,
    id ASC] *)
Definition select_by_status (status : string) (st : Store) : list Row.t :=
  map snd
    (sort_by board_lt
       (map (fun r => ((Row.due_date r, Row.priority r, Row.id r), r))
            (filter (fun r => String.eqb (Row.status r) status) (rows st)))).

Definition fetch_tasks_by_status (status : string) : M (list Row.t) :=
  fetchall (select_by_status status).

(** The handlers that build views can also fail on a dict subscript. *)
Inductive pyexn : Type :=
| Uncaught (e : exn)
| KeyError (key : Z).

Inductive answer (A : Type) : Type :=
| Returned (a : A)
| Failed (e : pyexn).
Arguments Returned {A} a.
Arguments Failed {A} e.

Definition View (A : Type) : Type := World -> answer A * World.

Definition retV {A : Type} (a : A) : View A := fun w => (Returned a, w).

Definition bindV {A B : Type} (m : View A) (k : A -> View B) : View B :=
  fun w =>
    match m w with
    | (Returned a, w') => k a w'
    | (Failed e, w') => (Failed e, w')
    end.

Notation "x <~ m ;; k" := (bindV m (fun x => k))
  (at level 61, m at next level, right associativity).

(** A computation of the handlers above, run inside a view. *)
Definition lift {A : Type} (m : M A) : View A :=
  fun w =>
    match m w with
    | (Ok a, w') => (Returned a, w')
    | (Raise e, w') => (Failed (Uncaught e), w')
    end.

(** [d[k]] on a dict with int keys. *)
Fixpoint subscript {V : Type} (d : list (Z * V)) (k : Z) : View V :=
  match d with
  | [] => fun w => (Failed (KeyError k), w)
  | (k', v) :: d' => if k =? k' then retV v else subscript d' k
  end.

(** [d[k] = v] on a dict with string keys, which keeps insertion order. *)
Fixpoint dict_set {V : Type} (d : list (string * V)) (k : string) (v : V)
  : list (string * V) :=
  match d with
  | [] => [(k, v)]
  | (k', v') :: d' =>
      if String.eqb k k' then (k', v) :: d' else (k', v') :: dict_set d' k v
  end.

Fixpoint dict_lookup {V : Type} (d : list (string * V)) (k : string) : option V :=
  match d with
  | [] => None
  | (k', v) :: d' => if String.eqb k k' then Some v else dict_lookup d' k
  end.

(** [[f(x) for x in xs]] *)
Fixpoint comprehension {A B : Type} (f : A -> View B) (xs : list A) : View (list B) :=
  match xs with
  | [] => retV []
  | x :: xs' => y <~ f x ;; ys <~ comprehension f xs' ;; retV (y :: ys)
  end.

(** [for x in xs: acc = step(acc, x)] *)
Fixpoint for_eachV {A B : Type} (xs : list A) (step : B -> A -> View B) (acc : B)
  : View B :=
  match xs with
  | [] => retV acc
  | x :: xs' => acc' <~ step acc x ;; for_eachV xs' step acc'
  end.

Module Card.

(** The dict a task is shown as; [score] is there in the "today" views
    only. *)
Record t : Type := mk {
  score : option Z;
  id : Z;
  title : string;
  due_date : string;
  priority : string;
  priority_raw : Z;
  status : string
}.

End Card.

(** What [index] hands to the template. *)
Record Context : Type := mkContext {
  board : list (string * list Card.t);
  counts : list (string * Z);
  today : list Card.t;
  status_label : list (string * string)
}.

(** The dict display of the board comprehension. *)
Definition board_card (r : Row.t) : View Card.t :=
  label <~ subscript PRIORITY_LABEL (Row.priority r) ;;
  retV (Card.mk None (Row.id r) (Row.title r) (Row.due_date r) label
                (Row.priority r) (Row.status r)).

(** The dict display of the "today" comprehensions. *)
Definition today_card (x : Z * Row.t) : View Card.t :=
  let '(s, r) := x in
  label <~ subscript PRIORITY_LABEL (Row.priority r) ;;
  retV (Card.mk (Some s) (Row.id r) (Row.title r) (Row.due_date r) label
                (Row.priority r) (Row.status r)).

Section Views.

Variable fromisoformat_date : string -> option date.

Definition index : View Context :=
  bc <~ for_eachV STATUSES
          (fun (bc : list (string * list Card.t) * list (string * Z)) st =>
             let '(board, counts) := bc in
             rows <~ lift (fetch_tasks_by_status st) ;;
             let counts := dict_set counts st (Z.of_nat (List.length rows)) in
             cards <~ comprehension board_card rows ;;
             retV (dict_set board st cards, counts))
          ([], []) ;;
  today <~ lift (fetch_today fromisoformat_date 5) ;;
  today_view <~ comprehension today_card today ;;
  retV (mkContext (fst bc) (snd bc) today_view STATUS_LABEL).

(** [api_today]; [None] is a request without [top]. *)
Definition api_today (top : option Z) : View (list Card.t) :=
  let top := match top with Some n => n | None => 5 end in
  today <~ lift (fetch_today fromisoformat_date top) ;;
  data <~ comprehension today_card today ;;
  retV data.

End Views.

(** ** The schema: [ensure_column] and [init_db]

    The database file as the statements of [init_db] see it: tables by
    name, each with its columns in order and its records.  SQLite compares
    the names of tables and columns without regard to ASCII case; the
    [col not in cols] of [ensure_column] is Python's exact comparison. *)

Module Schema.

Inductive value : Type :=
| Null
| Int (z : Z)
| Text (s : string).

(** A column definition, as it is written after the column's name. *)
Record coldef : Type :=
  mkColdef { decl_type : string; not_null : bool; default : value }.

(** A record holds a value per column, by column name. *)
Record table : Type :=
  mkTable { columns : list (string * coldef);
            records : list (list (string * value)) }.

Definition database : Type := list (string * table).

Definition ident_eqb (a b : string) : bool := String.eqb (lower a) (lower b).

Fixpoint find_table (d : database) (t : string) : option table :=
  match d with
  | [] => None
  | (t', tb) :: d' => if ident_eqb t t' then Some tb else find_table d' t
  end.

Fixpoint replace_table (d : database) (t : string) (tb : table) : database :=
  match d with
  | [] => []
  | (t', tb') :: d' =>
      if ident_eqb t t' then (t', tb) :: d' else (t', tb') :: replace_table d' t tb
  end.

Definition has_column (tb : table) (col : string) : bool :=
  existsb (fun c => ident_eqb col (fst c)) (columns tb).

Definition is_null (v : value) : bool :=
  match v with Null => true | _ => false end.

(** The value of a column in a record: [r[col]]. *)
Fixpoint field (r : list (string * value)) (col : string) : option value :=
  match r with
  | [] => None
  | (c, v) :: r' => if ident_eqb col c then Some v else field r' col
  end.

(** The table in which SQLite keeps the counters of the AUTOINCREMENT
    keys, [sqlite_sequence(name,seq)]. *)
Definition sqlite_sequence : table :=
  mkTable [("name", mkColdef EmptyString false Null);
           ("seq", mkColdef EmptyString false Null)] [].

Definition autoincrement (cols : list (string * coldef)) : bool :=
  existsb (fun c => String.eqb (decl_type (snd c))
                               "INTEGER PRIMARY KEY AUTOINCREMENT") cols.

(** [CREATE TABLE IF NOT EXISTS t (cols)]: nothing when there is a table of
    that name; else the new table and, when it has an AUTOINCREMENT key
    and the database has none yet, the table [sqlite_sequence] with it. *)
Definition create_table_if_not_exists (t : string)
    (cols : list (string * coldef)) (d : database) : database :=
  match find_table d t with
  | Some _ => d
  | None =>
      let d' := d ++ [(t, mkTable cols [])] in
      if autoincrement cols
      then match find_table d' "sqlite_sequence" with
           | Some _ => d'
           | None => d' ++ [("sqlite_sequence", sqlite_sequence)]
           end
      else d'
  end.

(** [PRAGMA table_info(t)]: the columns of [t], none when there is no such
    table. *)
Definition table_info (t : string) (d : database) : list (string * coldef) :=
  match find_table d t with
  | Some tb => columns tb
  | None => []
  end.

(** [ALTER TABLE t ADD COLUMN col def]; [None] is its
    [sqlite3.OperationalError]: no such table, a duplicate column name, or
    a NOT NULL column without a default.  The records that exist read the
    default in the new column. *)
Definition add_column (t col : string) (def : coldef) (d : database)
  : option database :=
  match find_table d t with
  | None => None
  | Some tb =>
      if has_column tb col then None
      else if not_null def && is_null (default def) then None
      else Some (replace_table d t
                   (mkTable (columns tb ++ [(col, def)])
                            (map (fun r => r ++ [(col, default def)])
                                 (records tb))))
  end.

Definition ensure_column (table col : string) (col_def : coldef) (d : database)
  : option database :=
  let cols := map fst (table_info table d) in
  if negb (str_in col cols) then add_column table col col_def d
  else Some d.

(** The columns of the [CREATE TABLE] in [init_db]. *)
Definition tasks_columns : list (string * coldef) :=
  [ ("id", mkColdef "INTEGER PRIMARY KEY AUTOINCREMENT" false Null);
    ("title", mkColdef "TEXT" true Null);
    ("due_date", mkColdef "TEXT" true Null);
    ("priority", mkColdef "INTEGER" true Null);
    ("created_at", mkColdef "TEXT" true Null);
    ("done", mkColdef "INTEGER" true (Int 0));
    ("done_at", mkColdef "TEXT" false Null) ].

Definition init_db (d : database) : option database :=
  ensure_column "tasks" "status" (mkColdef "TEXT" true (Text "todo"))
    (create_table_if_not_exists "tasks" tasks_columns d).

End Schema.

(** ** Vocabulary of the further statements *)

(** What every table reached from an empty one satisfies: each row holds
    one of the four statuses, a level from 1 to 3, a due date that parses
    and a positive id that the counter has passed; the rows stand in the
    order of their ids, which are all different. *)
Definition well_formed (s : Store) : Prop :=
  Forall (fun r => In (Row.status r) STATUSES /\
                   1 <= Row.priority r <= 3 /\
                   parses r /\
                   0 < Row.id r <= seq s) (rows s) /\
  StronglySorted (fun a b => Row.id a < Row.id b) (rows s) /\
  0 <= seq s.

(** The columns that no handler writes after the insert. *)
Definition same_task (a b : Row.t) : Prop :=
  Row.id a = Row.id b /\ Row.title a = Row.title b /\
  Row.due_date a = Row.due_date b /\ Row.priority a = Row.priority b /\
  Row.created_at a = Row.created_at b.

(** The order of a board column. *)
Definition board_order (a b : Row.t) : Prop :=
  String.ltb (Row.due_date a) (Row.due_date b) = true \/
  (Row.due_date a = Row.due_date b /\
   (Row.priority a > Row.priority b \/
    (Row.priority a = Row.priority b /\ Row.id a <= Row.id b))).

(** [date.isoformat()]: the zero-padded [YYYY-MM-DD]. *)
Definition isoformat_date (d : date) : string :=
  (pad4 (year d) ++ "-" ++ pad2 (month d) ++ "-" ++ pad2 (day d))%string.

(** The row's due date is the zero-padded form of a date of the calendar. *)
Definition zero_padded (r : Row.t) : Prop :=
  exists d, valid_ymd (year d) (month d) (day d) = true /\
            Row.due_date r = isoformat_date d.

(** The day a row is due, as [strptime] reads it (day 0 when it does not
    parse). *)
Definition due_ordinal (r : Row.t) : Z :=
  match strptime_ymd (Row.due_date r) with
  | Some d => toordinal d
  | None => 0
  end.

(** A card shows a row. *)
Definition shows (score : option Z) (r : Row.t) (c : Card.t) : Prop :=
  Card.score c = score /\ Card.id c = Row.id r /\
  Card.title c = Row.title r /\ Card.due_date c = Row.due_date r /\
  Card.priority_raw c = Row.priority r /\ Card.status c = Row.status r /\
  In (Row.priority r, Card.priority c) PRIORITY_LABEL.

(** A computation that leaves the table as it found it, whether it returns
    or raises. *)
Definition keeps_db {A : Type} (m : M A) : Prop :=
  forall w, db (snd (m w)) = db w.

(** The definition [init_db] gives the [status] column. *)
Definition status_coldef : Schema.coldef :=
  Schema.mkColdef "TEXT" true (Schema.Text "todo").

(** A database written before there was a [status] column, with one task
    that is done. *)
Definition legacy_records : list (list (string * Schema.value)) :=
  [[("id", Schema.Int 1); ("title", Schema.Text "paid the rent");
    ("due_date", Schema.Text "2024-01-31"); ("priority", Schema.Int 2);
    ("created_at", Schema.Text "2024-01-02T09:00:00"); ("done", Schema.Int 1);
    ("done_at", Schema.Text "2024-01-30T18:00:00")]].

Definition legacy_database : Schema.database :=
  [("tasks", Schema.mkTable Schema.tasks_columns legacy_records)].

(** The failure of a card: the level of its row has no label. *)
Definition no_label (r : Row.t) (e : pyexn) : Prop :=
  e = KeyError (Row.priority r) /\ ~ 1 <= Row.priority r <= 3.

(** * Facts *)

Example strptime_plain : strptime_ymd "2024-03-01" = Some (mkDate 2024 3 1).
Proof. reflexivity. Qed.

Example strptime_short_fields : strptime_ymd "2024-3-1" = Some (mkDate 2024 3 1).
Proof. reflexivity. Qed.

Example strptime_feb30 : strptime_ymd "2024-02-30" = None.
Proof. reflexivity. Qed.

Example strptime_month13 : strptime_ymd "2024-13-01" = None.
Proof. reflexivity. Qed.

Example strptime_trailing : strptime_ymd "2024-01-011" = None.
Proof. reflexivity. Qed.

(** The year and the second digit of a day from 10 to 29 are read in any
    script; the month and the other digits of the day are ASCII. *)
Example strptime_fullwidth_year :
  strptime_ymd "２０２４-03-01" = Some (mkDate 2024 3 1).
Proof. reflexivity. Qed.

Example strptime_digits_of_other_scripts :
  strptime_ymd "𝟐𝟎𝟐𝟒-03-01" = Some (mkDate 2024 3 1) /\
  strptime_ymd "٢٠٢٤-3-2٩" = Some (mkDate 2024 3 29) /\
  strptime_ymd "2024-03-1５" = Some (mkDate 2024 3 15).
Proof. repeat split; reflexivity. Qed.

Example strptime_ascii_classes :
  strptime_ymd "2024-０3-01" = None /\ strptime_ymd "2024-1２-01" = None /\
  strptime_ymd "2024-03-３0" = None /\ strptime_ymd "2024-03-0１" = None.
Proof. repeat split; reflexivity. Qed.

Example ordinal_2024_03_01 : toordinal (mkDate 2024 3 1) = 738946.
Proof. reflexivity. Qed.

Example isoformat_example :
  isoformat_seconds (mkDatetime (mkDate 2024 3 1) 9 5 0) = "2024-03-01T09:05:00".
Proof. reflexivity. Qed.

(** ** The stable sort *)

Section StableSortFacts.

Context {K A : Type} (lt : K -> K -> bool).

Hypothesis lt_asym : forall a b, lt a b = true -> lt b a = false.
Hypothesis le_trans :
  forall a b c, lt b a = false -> lt c b = false -> lt c a = false.

Lemma insert_by_perm (x : K * A) l : Permutation (insert_by lt x l) (x :: l).
Proof.
  induction l as [|y l IH]; cbn; [reflexivity|].
  destruct (lt (fst y) (fst x)); [|reflexivity].
  rewrite IH. apply perm_swap.
Qed.

Lemma sort_by_perm (l : list (K * A)) : Permutation (sort_by lt l) l.
Proof.
  induction l as [|x l IH]; cbn; [constructor|].
  rewrite insert_by_perm. now constructor.
Qed.

Lemma insert_by_sorted (x : K * A) l :
  StronglySorted (key_le lt) l -> StronglySorted (key_le lt) (insert_by lt x l).
Proof.
  induction 1 as [|y l Hs IH Hy]; cbn.
  - repeat constructor.
  - destruct (lt (fst y) (fst x)) eqn:E.
    + constructor; [exact IH|].
      eapply Permutation_Forall; [symmetry; apply insert_by_perm|].
      constructor; [|exact Hy].
      unfold key_le. now apply lt_asym.
    + constructor; [now constructor|].
      constructor; [exact E|].
      eapply Forall_impl; [|exact Hy].
      intros z Hz. unfold key_le in *. eapply le_trans; eassumption.
Qed.

Lemma sort_by_sorted (l : list (K * A)) : StronglySorted (key_le lt) (sort_by lt l).
Proof.
  induction l as [|x l IH]; cbn; [constructor|].
  now apply insert_by_sorted.
Qed.

End StableSortFacts.

Lemma StronglySorted_map_impl {A B : Type} (R : A -> A -> Prop)
    (R' : B -> B -> Prop) (P : A -> Prop) (f : A -> B) (l : list A) :
  (forall a b, P a -> P b -> R a b -> R' (f a) (f b)) ->
  Forall P l -> StronglySorted R l -> StronglySorted R' (map f l).
Proof.
  intros HR HP Hs. induction Hs as [|a l Hs IH Ha]; cbn; [constructor|].
  inversion HP as [|? ? Pa Pl]; subst.
  constructor; [now apply IH|].
  apply Forall_map. rewrite Forall_forall in *.
  intros b Hb. apply HR; auto.
Qed.

Lemma StronglySorted_firstn {A : Type} (R : A -> A -> Prop) n (l : list A) :
  StronglySorted R l -> StronglySorted R (firstn n l).
Proof.
  intros Hs. revert n. induction Hs as [|a l Hs IH Ha]; intros [|n]; cbn;
    try constructor; [apply IH|].
  rewrite Forall_forall in *. intros b Hb. apply Ha.
  rewrite <- (firstn_skipn n l). apply in_or_app. now left.
Qed.


Lemma tuple_lt_asym a b : tuple_lt a b = true -> tuple_lt b a = false.
Proof.
  destruct a as [[[a1 a2] a3] a4], b as [[[b1 b2] b3] b4]. unfold tuple_lt.
  destruct (Z.eqb_spec a1 b1), (Z.eqb_spec b1 a1),
           (Z.eqb_spec a2 b2), (Z.eqb_spec b2 a2),
           (Z.eqb_spec a3 b3), (Z.eqb_spec b3 a3); cbn; lia.
Qed.

Lemma tuple_le_iff a b :
  tuple_lt b a = false <->
  (let '(a1, a2, a3, a4) := a in
   let '(b1, b2, b3, b4) := b in
   a1 < b1 \/ (a1 = b1 /\ (a2 < b2 \/ (a2 = b2 /\ (a3 < b3 \/ (a3 = b3 /\ a4 <= b4)))))).
Proof.
  destruct a as [[[a1 a2] a3] a4], b as [[[b1 b2] b3] b4]. unfold tuple_lt.
  destruct (Z.eqb_spec b1 a1), (Z.eqb_spec b2 a2), (Z.eqb_spec b3 a3); cbn;
    rewrite Z.ltb_ge || rewrite Z.ltb_nlt; lia.
Qed.

Lemma tuple_le_trans a b c :
  tuple_lt b a = false -> tuple_lt c b = false -> tuple_lt c a = false.
Proof.
  rewrite !tuple_le_iff.
  destruct a as [[[a1 a2] a3] a4], b as [[[b1 b2] b3] b4],
           c as [[[c1 c2] c3] c4]. lia.
Qed.

(** ** Runs of the monad *)

Lemma later_refl w : later w w.
Proof. split; reflexivity. Qed.

Lemma later_tick w : later w (tick w).
Proof. split; reflexivity. Qed.

Lemma later_trans w1 w2 w3 : later w1 w2 -> later w2 w3 -> later w1 w3.
Proof. unfold later. intros [? ?] [? ?]. split; congruence. Qed.

Lemma steady_later today w w' : later w w' -> steady today w -> steady today w'.
Proof. intros [_ Hc] Hs n. rewrite Hc. apply Hs. Qed.

Lemma steady_today_of today w : steady today w -> today_of w = today.
Proof. intros Hs. apply Hs. Qed.

Lemma parses_dec r : parses r \/ strptime_ymd (Row.due_date r) = None.
Proof. unfold parses. destruct (strptime_ymd (Row.due_date r)); [left|right]; congruence. Qed.

Lemma bind_run {A B : Type} (m : M A) (k : A -> M B) w a w' :
  m w = (Ok a, w') -> (x <- m ;; k x) w = k a w'.
Proof. intros H. unfold bind. now rewrite H. Qed.

Lemma bind_raises {A B : Type} (m : M A) (k : A -> M B) w e :
  fst (m w) = Raise e -> fst ((x <- m ;; k x) w) = Raise e.
Proof.
  intros H. unfold bind. destruct (m w) as [[a|e'] w']; cbn in *; congruence.
Qed.

(** A loop that appends one result per element, while its body succeeds. *)
Lemma for_each_append {A B : Type} (step : list B -> A -> M (list B))
    (good : A -> Prop) (post : World -> A -> B -> Prop) :
  (forall acc a w, good a ->
     exists b, step acc a w = (Ok (acc ++ [b]), tick w) /\ post w a b) ->
  forall xs acc w, Forall good xs ->
    exists l w',
      for_each xs step acc w = (Ok (acc ++ l), w') /\ later w w' /\
      Forall2 (fun a b => exists wi, later w wi /\ post wi a b) xs l.
Proof.
  intros Hstep. induction xs as [|a xs IH]; intros acc w Hg.
  - exists [], w. cbn. rewrite app_nil_r. repeat split; constructor.
  - inversion Hg as [|? ? Ha Hxs]; subst.
    destruct (Hstep acc a w Ha) as (b & Hb & Hp).
    destruct (IH (acc ++ [b]) (tick w) Hxs) as (l & w' & Hrun & Hl & Hall).
    exists (b :: l), w'. cbn. unfold bind. rewrite Hb, Hrun.
    rewrite <- app_assoc. repeat split; try apply Hl.
    constructor.
    + exists w. split; [apply later_refl|exact Hp].
    + eapply Forall2_impl; [|exact Hall].
      cbn. intros a' b' (wi & Hwi & Hpi). exists wi. split; [|exact Hpi].
      eapply later_trans; [apply later_tick|exact Hwi].
Qed.

(** The loop stops at the first element on which its body raises. *)
Lemma for_each_raises {A B : Type} (step : B -> A -> M B)
    (bad : A -> Prop) (e : exn) :
  (forall acc a w, bad a -> fst (step acc a w) = Raise e) ->
  (forall acc a w, ~ bad a -> exists acc' w', step acc a w = (Ok acc', w')) ->
  (forall a, bad a \/ ~ bad a) ->
  forall xs acc w, Exists bad xs -> fst (for_each xs step acc w) = Raise e.
Proof.
  intros Hbad Hgood Hdec. induction xs as [|a xs IH]; intros acc w Hex.
  - inversion Hex.
  - cbn. unfold bind. destruct (Hdec a) as [Ha|Ha].
    + specialize (Hbad acc a w Ha).
      destruct (step acc a w) as [[b|e'] w']; cbn in *; congruence.
    + destruct (Hgood acc a w Ha) as (acc' & w' & ->).
      apply IH. inversion Hex; subst; [contradiction|assumption].
Qed.

Lemma ticks_0 w : ticks 0 w = w.
Proof. now destruct w. Qed.

Lemma ticks_tick n w : ticks n (tick w) = ticks (S n) w.
Proof. unfold ticks, tick. cbn [db clock reads]. f_equal. lia. Qed.

Lemma ticks_ticks n m w : ticks n (ticks m w) = ticks (n + m) w.
Proof. unfold ticks. cbn [db clock reads]. f_equal. lia. Qed.

(** A loop whose body reads the clock once and does nothing else to the
    world has read it once per element. *)
Lemma for_each_ticks {A B : Type} (step : B -> A -> M B) (good : A -> Prop) :
  (forall acc a w, good a -> exists acc', step acc a w = (Ok acc', tick w)) ->
  forall xs acc w, Forall good xs ->
    exists acc', for_each xs step acc w = (Ok acc', ticks (List.length xs) w).
Proof.
  intros Hstep. induction xs as [|a xs IH]; intros acc w Hg.
  - exists acc. cbn. now rewrite ticks_0.
  - inversion Hg as [|? ? Ha Hxs]; subst.
    destruct (Hstep acc a w Ha) as (acc1 & H1).
    destruct (IH acc1 (tick w) Hxs) as (acc' & H').
    exists acc'. cbn [for_each List.length]. unfold bind. rewrite H1, H'.
    now rewrite ticks_tick.
Qed.

(** It stops at the first element on which its body raises, having read
    the clock once per element before that one. *)
Lemma for_each_stops {A B : Type} (step : B -> A -> M B) (good bad : A -> Prop)
    (e : exn) :
  (forall acc a w, good a -> exists acc', step acc a w = (Ok acc', tick w)) ->
  (forall acc a w, bad a -> step acc a w = (Raise e, w)) ->
  forall pre r post acc w, Forall good pre -> bad r ->
    for_each (pre ++ r :: post) step acc w
    = (Raise e, ticks (List.length pre) w).
Proof.
  intros Hgood Hbad. induction pre as [|a pre IH]; intros r post acc w Hg Hr.
  - cbn. unfold bind. rewrite (Hbad acc r w Hr). now rewrite ticks_0.
  - inversion Hg as [|? ? Ha Hpre]; subst.
    destruct (Hgood acc a w Ha) as (acc1 & H1).
    cbn [app for_each List.length]. unfold bind. rewrite H1.
    rewrite (IH r post acc1 (tick w) Hpre Hr). now rewrite ticks_tick.
Qed.

Section Runs.

Variable frm : string -> option date.

Lemma age_w_run today created_at w :
  age_w frm today created_at w = (Ok (age_on frm today created_at), w).
Proof.
  unfold age_w, age_on, try_except, bind, of_option.
  destruct (frm created_at); reflexivity.
Qed.

Lemma age_on_bounds today created_at : 0 <= age_on frm today created_at <= 10.
Proof. unfold age_on. destruct (frm created_at); lia. Qed.

Lemma score_task_run due_date_str priority status created_at w :
  score_task frm due_date_str priority status created_at w =
  match strptime_ymd due_date_str with
  | Some due =>
      (Ok (status_w status + due_w (days_between due (today_of w))
           + pri_w priority + age_on frm (today_of w) created_at), tick w)
  | None => (Raise ValueError, w)
  end.
Proof.
  unfold score_task, bind, of_option.
  destruct (strptime_ymd due_date_str); [|reflexivity].
  cbn. rewrite age_w_run. reflexivity.
Qed.

Lemma due_days_run r w :
  due_days r w =
  match strptime_ymd (Row.due_date r) with
  | Some due => (Ok (days_between due (today_of w)), tick w)
  | None => (Raise ValueError, w)
  end.
Proof.
  unfold due_days, bind, of_option.
  destruct (strptime_ymd (Row.due_date r)); reflexivity.
Qed.

Lemma sort_key_run x w :
  sort_key x w =
  match strptime_ymd (Row.due_date (snd x)) with
  | Some due =>
      (Ok (- fst x, days_between due (today_of w),
           - Row.priority (snd x), Row.id (snd x)), tick w)
  | None => (Raise ValueError, w)
  end.
Proof.
  unfold sort_key, bind. rewrite due_days_run.
  destruct (strptime_ymd (Row.due_date (snd x))); reflexivity.
Qed.

(** [fetch_today] on rows whose due dates all parse. *)
Lemma fetch_today_ok w :
  Forall parses (Sql.select_open (db w)) ->
  exists keyed,
    (forall top, fst (fetch_today frm top w)
                 = Ok (slice_to top (map snd (sort_by tuple_lt keyed)))) /\
    Forall2 (fun r e => exists ws wk, later w ws /\ later w wk /\ entry_of frm ws wk r e)
            (Sql.select_open (db w)) keyed.
Proof.
  intros Hp. set (rows := Sql.select_open (db w)) in *.
  destruct (for_each_append
    (fun scored r =>
       s <- score_task frm (Row.due_date r) (Row.priority r)
              (Row.status r) (Row.created_at r) ;;
       ret (scored ++ [(s, r)]))
    parses
    (fun wi r (x : Z * Row.t) => snd x = r /\ fst (score_row frm r wi) = Ok (fst x)))
    with (xs := rows) (acc := @nil (Z * Row.t)) (w := w)
    as (scored & w1 & Hrun1 & Hl1 & Hall1); [|exact Hp|].
  { intros acc r w0 Hr. unfold bind, score_row. rewrite score_task_run.
    destruct (strptime_ymd (Row.due_date r)) as [due|] eqn:E; [|now elim Hr].
    eexists. split; [reflexivity|]. cbn. split; reflexivity. }
  destruct (for_each_append
    (fun acc x => k <- sort_key x ;; ret (acc ++ [(k, x)]))
    (fun x : Z * Row.t => parses (snd x))
    (fun wi (x : Z * Row.t) (e : (Z * Z * Z * Z) * (Z * Row.t)) =>
       snd e = x /\
       exists dd, fst (due_days (snd x) wi) = Ok dd /\
          fst e = (- fst x, dd, - Row.priority (snd x), Row.id (snd x))))
    with (xs := scored) (acc := @nil ((Z * Z * Z * Z) * (Z * Row.t))) (w := w1)
    as (keyed & w2 & Hrun2 & Hl2 & Hall2).
  { intros acc x w0 Hx. unfold bind. rewrite sort_key_run, due_days_run.
    destruct (strptime_ymd (Row.due_date (snd x))) as [due|] eqn:E; [|now elim Hx].
    eexists. split; [reflexivity|]. cbn. split; [reflexivity|].
    eexists. split; reflexivity. }
  { clear - Hp Hall1. revert Hp. induction Hall1 as [|r x rs xs Hrx _ IH]; intros Hp.
    - constructor.
    - inversion Hp; subst. constructor; [|now apply IH].
      destruct Hrx as (wi & _ & Hsx & _). rewrite Hsx. assumption. }
  exists keyed. split.
  { intros top. unfold fetch_today.
    erewrite bind_run by (unfold fetchall; reflexivity).
    erewrite bind_run by exact Hrun1.
    unfold sort_scored. erewrite bind_run.
    2:{ erewrite bind_run by exact Hrun2. reflexivity. }
    reflexivity. }
  clear - Hall1 Hall2 Hl1. revert keyed Hall2.
  induction Hall1 as [|r x rs xs Hrx _ IH]; intros keyed Hall2;
    inversion Hall2 as [|? e ? es Hxe Hes]; subst; constructor.
  - destruct Hrx as (ws & Hws & Hsx & Hscore).
    destruct Hxe as (wk & Hwk & Hex & dd & Hdd & Hkey).
    exists ws, wk. split; [exact Hws|].
    split; [eapply later_trans; [exact Hl1|exact Hwk]|].
    unfold entry_of. rewrite Hex, Hsx in *.
    split; [reflexivity|]. split; [exact Hscore|].
    exists dd. split; assumption.
  - now apply IH.
Qed.

(** The reads of the clock in [fetch_today]: one per open row in the
    loop that scores, one per entry when the sort computes its keys. *)
Lemma fetch_today_world top w :
  Forall parses (Sql.select_open (db w)) ->
  snd (fetch_today frm top w)
  = ticks (2 * List.length (Sql.select_open (db w))) w.
Proof.
  intros Hp. set (rows := Sql.select_open (db w)) in *.
  set (score := fun (scored : list (Z * Row.t)) (r : Row.t) =>
         s <- score_task frm (Row.due_date r) (Row.priority r)
                (Row.status r) (Row.created_at r) ;;
         ret (scored ++ [(s, r)])).
  set (key := fun (acc : list ((Z * Z * Z * Z) * (Z * Row.t))) (x : Z * Row.t) =>
         k <- sort_key x ;; ret (acc ++ [(k, x)])).
  destruct (for_each_append score parses (fun _ r (x : Z * Row.t) => snd x = r))
    with (xs := rows) (acc := @nil (Z * Row.t)) (w := w)
    as (scored & w1 & Hrun1 & _ & Hall1); [|exact Hp|].
  { intros acc r w0 Hr. unfold score, bind. rewrite score_task_run.
    destruct (strptime_ymd (Row.due_date r)) as [due|] eqn:E; [|now elim Hr].
    eexists. split; reflexivity. }
  destruct (for_each_ticks score parses) with (xs := rows)
    (acc := @nil (Z * Row.t)) (w := w) as (scored' & Hrun1'); [|exact Hp|].
  { intros acc r w0 Hr. unfold score, bind. rewrite score_task_run.
    destruct (strptime_ymd (Row.due_date r)) as [due|] eqn:E; [|now elim Hr].
    eexists. reflexivity. }
  rewrite Hrun1 in Hrun1'. injection Hrun1' as _ Hw1. cbn [app] in Hrun1.
  assert (Hp2 : Forall (fun x : Z * Row.t => parses (snd x)) scored).
  { clear - Hp Hall1. revert Hp.
    induction Hall1 as [|r x rs xs Hrx _ IH]; intros Hp; [constructor|].
    inversion Hp; subst. constructor; [|now apply IH].
    destruct Hrx as (_ & _ & ->). assumption. }
  destruct (for_each_ticks key (fun x : Z * Row.t => parses (snd x)))
    with (xs := scored) (acc := @nil ((Z * Z * Z * Z) * (Z * Row.t))) (w := w1)
    as (keyed & Hrun2); [|exact Hp2|].
  { intros acc x w0 Hx. unfold key, bind. rewrite sort_key_run.
    destruct (strptime_ymd (Row.due_date (snd x))) as [due|] eqn:E;
      [|now elim Hx].
    eexists. reflexivity. }
  unfold fetch_today.
  erewrite bind_run by (unfold fetchall; reflexivity).
  erewrite bind_run by exact Hrun1.
  unfold sort_scored. erewrite bind_run.
  2:{ erewrite bind_run by exact Hrun2. reflexivity. }
  cbn [ret snd]. rewrite Hw1, ticks_ticks.
  rewrite <- (Forall2_length Hall1). f_equal. lia.
Qed.

(** When a due date does not parse, the loop that scores stops there. *)
Lemma fetch_today_stops top w pre r post :
  Sql.select_open (db w) = pre ++ r :: post ->
  Forall parses pre -> strptime_ymd (Row.due_date r) = None ->
  fetch_today frm top w = (Raise ValueError, ticks (List.length pre) w).
Proof.
  intros Hrows Hp Hr. unfold fetch_today.
  erewrite bind_run by (unfold fetchall; reflexivity). rewrite Hrows.
  unfold bind at 1.
  rewrite (for_each_stops _ parses
             (fun r => strptime_ymd (Row.due_date r) = None) ValueError)
    with (pre := pre) (r := r) (post := post); [reflexivity| | |exact Hp|exact Hr].
  - intros acc a w0 Ha. unfold bind. rewrite score_task_run.
    destruct (strptime_ymd (Row.due_date a)) eqn:E; [|now elim Ha].
    eexists. reflexivity.
  - intros acc a w0 Ha. unfold bind. now rewrite score_task_run, Ha.
Qed.

End Runs.

Section Ranking.

Variable frm : string -> option date.

(** [fetch_today] on rows of which one has a due date that does not parse. *)
Lemma fetch_today_raises top w :
  Exists (fun r => strptime_ymd (Row.due_date r) = None)
         (Sql.select_open (db w)) ->
  fst (fetch_today frm top w) = Raise ValueError.
Proof.
  intros Hex. unfold fetch_today.
  erewrite bind_run by (unfold fetchall; reflexivity).
  apply bind_raises.
  apply for_each_raises
    with (bad := fun r => strptime_ymd (Row.due_date r) = None);
    [| | |exact Hex].
  - intros acc r w0 Hr. apply bind_raises.
    rewrite score_task_run, Hr. reflexivity.
  - intros acc r w0 Hr. unfold bind. rewrite score_task_run.
    destruct (strptime_ymd (Row.due_date r)); [|now elim Hr].
    eexists _, _. reflexivity.
  - intros r. destruct (strptime_ymd (Row.due_date r)); [right|left]; congruence.
Qed.

Lemma score_row_steady today w wi r :
  steady today w -> later w wi ->
  fst (score_row frm r wi) = fst (score_row frm r w).
Proof.
  intros Hs Hl. unfold score_row. rewrite !score_task_run.
  rewrite (steady_today_of today w Hs).
  rewrite (steady_today_of today wi (steady_later _ _ _ Hl Hs)).
  destruct (strptime_ymd (Row.due_date r)); reflexivity.
Qed.

Lemma due_days_steady today w wi r :
  steady today w -> later w wi -> fst (due_days r wi) = fst (due_days r w).
Proof.
  intros Hs Hl. rewrite !due_days_run.
  rewrite (steady_today_of today w Hs).
  rewrite (steady_today_of today wi (steady_later _ _ _ Hl Hs)).
  destruct (strptime_ymd (Row.due_date r)); reflexivity.
Qed.

Lemma keyed_in_steady today w rows keyed :
  steady today w ->
  Forall2 (fun r e => exists ws wk, later w ws /\ later w wk /\ entry_of frm ws wk r e)
          rows keyed ->
  map snd (map snd keyed) = rows /\ Forall (keyed_in frm w) keyed.
Proof.
  intros Hs. induction 1 as [|r e rows keyed Hre _ [IH1 IH2]]; cbn.
  - split; constructor.
  - destruct Hre as (ws & wk & Hws & Hwk & Hr & Hsc & dd & Hdd & Hk).
    split; [now rewrite Hr, IH1|]. constructor; [|exact IH2].
    unfold keyed_in. rewrite Hr. split.
    + rewrite <- Hsc. symmetry. eapply score_row_steady; eassumption.
    + exists dd. split; [|exact Hk].
      rewrite <- Hdd. symmetry. eapply due_days_steady; eassumption.
Qed.

Lemma keyed_in_ranks w a b :
  keyed_in frm w a -> keyed_in frm w b -> key_le tuple_lt a b ->
  ranks_before w (snd a) (snd b).
Proof.
  intros (_ & da & Hda & Ka) (_ & db & Hdb & Kb) Hle.
  unfold key_le in Hle. rewrite tuple_le_iff, Ka, Kb in Hle.
  exists da, db. repeat split; try assumption. lia.
Qed.

(** The ranking before it is cut. *)
Lemma fetch_today_sorted today w :
  steady today w -> Forall parses (Sql.select_open (db w)) ->
  exists full,
    (forall top, fst (fetch_today frm top w) = Ok (slice_to top full)) /\
    Permutation (map snd full) (Sql.select_open (db w)) /\
    Forall (fun x => fst (score_row frm (snd x) w) = Ok (fst x)) full /\
    StronglySorted (ranks_before w) full.
Proof.
  intros Hs Hp. destruct (fetch_today_ok frm w Hp) as (keyed & Hrun & Hall).
  destruct (keyed_in_steady today w _ _ Hs Hall) as [Hrows Hk].
  pose proof (sort_by_perm tuple_lt keyed) as Hperm.
  assert (Hk' : Forall (keyed_in frm w) (sort_by tuple_lt keyed))
    by (eapply Permutation_Forall; [symmetry; exact Hperm|exact Hk]).
  exists (map snd (sort_by tuple_lt keyed)). split; [exact Hrun|]. split; [|split].
  - rewrite <- Hrows. now do 2 apply Permutation_map.
  - apply Forall_map. eapply Forall_impl; [|exact Hk']. now intros e [He _].
  - eapply StronglySorted_map_impl with (P := keyed_in frm w); [|exact Hk'|].
    + apply keyed_in_ranks.
    + apply sort_by_sorted; [apply tuple_lt_asym|].
      intros a b c. apply tuple_le_trans.
Qed.

End Ranking.

(** ** Dependence on the clock *)

Section DateDetermined.

Lemma same_dates_weaken n n' w1 w2 :
  (n <= n')%nat -> same_dates n' w1 w2 -> same_dates n w1 w2.
Proof. intros Hn [Hdb H]. split; [exact Hdb|]. intros k Hk. apply H. lia. Qed.

Lemma same_dates_ticks n j w1 w2 :
  same_dates (j + n) w1 w2 -> same_dates n (ticks j w1) (ticks j w2).
Proof.
  intros [Hdb H]. split; [exact Hdb|]. intros k Hk.
  unfold date_at, ticks. cbn [clock reads]. rewrite !Nat.add_assoc.
  apply (H (k + j)%nat). lia.
Qed.

Lemma steady_same_dates today n w1 w2 :
  steady today w1 -> steady today w2 -> db w1 = db w2 -> same_dates n w1 w2.
Proof.
  intros H1 H2 Hdb. split; [exact Hdb|]. intros k _. unfold date_at.
  now rewrite H1, H2.
Qed.

Lemma dd_weaken {A : Type} n n' (m : M A) :
  (n <= n')%nat -> date_determined n m -> date_determined n' m.
Proof.
  intros Hn Hm w1 w2 H.
  destruct (Hm w1 w2 (same_dates_weaken n n' w1 w2 Hn H)) as (Hr & j & Hj & Hw).
  split; [exact Hr|]. exists j. split; [lia|exact Hw].
Qed.

Lemma dd_ret {A : Type} (a : A) : date_determined 0 (ret a).
Proof.
  intros w1 w2 H. split; [reflexivity|]. exists 0%nat.
  cbn [ret snd]. now rewrite !ticks_0.
Qed.

Lemma dd_raise {A : Type} (e : exn) : date_determined 0 (@raise A e).
Proof.
  intros w1 w2 H. split; [reflexivity|]. exists 0%nat.
  cbn [raise snd]. now rewrite !ticks_0.
Qed.

Lemma dd_of_option {A : Type} (o : option A) : date_determined 0 (of_option o).
Proof. destruct o; [apply dd_ret|apply dd_raise]. Qed.

(** The continuation may count on what the first part returns. *)
Lemma dd_bind_post {A B : Type} (Q : A -> Prop) n1 n2 (m : M A) (k : A -> M B) :
  date_determined n1 m ->
  (forall w a, fst (m w) = Ok a -> Q a) ->
  (forall a, Q a -> date_determined n2 (k a)) ->
  date_determined (n1 + n2) (x <- m ;; k x).
Proof.
  intros Hm HQ Hk w1 w2 H.
  assert (H1 : same_dates n1 w1 w2)
    by (apply (same_dates_weaken n1 (n1 + n2)); [lia|exact H]).
  destruct (Hm w1 w2 H1) as (Hr & j & Hj & E1 & E2).
  specialize (HQ w1). unfold bind.
  destruct (m w1) as [[a1|e1] w1'], (m w2) as [[a2|e2] w2'];
    cbn [fst snd] in *; try discriminate.
  - injection Hr as <-. subst w1' w2'.
    destruct (Hk a1 (HQ a1 eq_refl) (ticks j w1) (ticks j w2))
      as (Hr' & j' & Hj' & E1' & E2').
    { apply same_dates_ticks.
      apply (same_dates_weaken (j + n2) (n1 + n2)); [lia|exact H]. }
    split; [exact Hr'|]. exists (j' + j)%nat.
    rewrite E1', E2', !ticks_ticks. split; [lia|split; reflexivity].
  - injection Hr as <-. split; [reflexivity|]. exists j.
    split; [lia|split; assumption].
Qed.

Lemma dd_bind {A B : Type} n1 n2 (m : M A) (k : A -> M B) :
  date_determined n1 m -> (forall a, date_determined n2 (k a)) ->
  date_determined (n1 + n2) (x <- m ;; k x).
Proof.
  intros Hm Hk. apply (dd_bind_post (fun _ => True)); auto.
Qed.

Lemma dd_try_except {A : Type} n1 n2 (body handler : M A) :
  date_determined n1 body -> date_determined n2 handler ->
  date_determined (n1 + n2) (try_except body handler).
Proof.
  intros Hb Hh w1 w2 H.
  assert (H1 : same_dates n1 w1 w2)
    by (apply (same_dates_weaken n1 (n1 + n2)); [lia|exact H]).
  destruct (Hb w1 w2 H1) as (Hr & j & Hj & E1 & E2). unfold try_except.
  destruct (body w1) as [[a1|e1] w1'], (body w2) as [[a2|e2] w2'];
    cbn [fst snd] in *; try discriminate.
  - split; [exact Hr|]. exists j. split; [lia|split; assumption].
  - subst w1' w2'.
    destruct (Hh (ticks j w1) (ticks j w2)) as (Hr' & j' & Hj' & E1' & E2').
    { apply same_dates_ticks.
      apply (same_dates_weaken (j + n2) (n1 + n2)); [lia|exact H]. }
    split; [exact Hr'|]. exists (j' + j)%nat.
    rewrite E1', E2', !ticks_ticks. split; [lia|split; reflexivity].
Qed.

Lemma dd_date_today : date_determined 1 date_today.
Proof.
  intros w1 w2 (Hdb & Hk). cbn. split.
  - f_equal. apply (Hk 0%nat). lia.
  - exists 1%nat. split; [lia|split; reflexivity].
Qed.

Lemma dd_fetchall {A : Type} (query : Store -> A) :
  date_determined 0 (fetchall query).
Proof.
  intros w1 w2 [Hdb _]. cbn [fetchall fst snd]. rewrite Hdb.
  split; [reflexivity|]. exists 0%nat. now rewrite !ticks_0.
Qed.

Lemma dd_for_each {A B : Type} n (xs : list A) (step : B -> A -> M B) :
  (forall acc x, date_determined n (step acc x)) ->
  forall acc, date_determined (List.length xs * n) (for_each xs step acc).
Proof.
  intros Hstep. induction xs as [|x xs IH]; intros acc; cbn [for_each].
  - apply dd_ret.
  - apply (dd_bind n (List.length xs * n)); [apply Hstep|exact IH].
Qed.

(** A loop that appends one result per element returns as many. *)
Lemma for_each_length {A B : Type} (step : list B -> A -> M (list B)) :
  (forall acc a w acc', fst (step acc a w) = Ok acc' ->
     List.length acc' = S (List.length acc)) ->
  forall xs acc w l, fst (for_each xs step acc w) = Ok l ->
    List.length l = (List.length acc + List.length xs)%nat.
Proof.
  intros Hstep. induction xs as [|a xs IH]; intros acc w l; cbn [for_each].
  - cbn. intros [= <-]. lia.
  - unfold bind. specialize (Hstep acc a w).
    destruct (step acc a w) as [[acc1|e] w1]; cbn [fst] in *; [|discriminate].
    intros H. rewrite (IH _ _ _ H), (Hstep acc1 eq_refl). cbn. lia.
Qed.

Variable frm : string -> option date.

Lemma dd_score_task due_date_str priority status created_at :
  date_determined 1 (score_task frm due_date_str priority status created_at).
Proof.
  unfold score_task, age_w.
  apply (dd_bind 0 1); [apply dd_of_option|intros due].
  apply (dd_bind 1 0); [apply dd_date_today|intros t].
  apply (dd_bind 0 0); [|intros a; apply dd_ret].
  apply (dd_try_except 0 0); [|apply dd_ret].
  apply (dd_bind 0 0); [apply dd_of_option|intros c; apply dd_ret].
Qed.

Lemma dd_sort_key x : date_determined 1 (sort_key x).
Proof.
  unfold sort_key, due_days.
  apply (dd_bind 1 0); [|intros dd; apply dd_ret].
  apply (dd_bind 0 1); [apply dd_of_option|intros due].
  apply (dd_bind 1 0); [apply dd_date_today|intros t; apply dd_ret].
Qed.

(** [fetch_today] reads the clock at most twice per open row, and two runs
    on the same table agree when the clocks show the same dates at these
    reads. *)
Lemma dd_fetch_today top w1 w2 :
  same_dates (2 * List.length (Sql.select_open (db w1))) w1 w2 ->
  fst (fetch_today frm top w1) = fst (fetch_today frm top w2).
Proof.
  intros H. unfold fetch_today.
  erewrite (bind_run _ _ w1) by (unfold fetchall; reflexivity).
  erewrite (bind_run _ _ w2) by (unfold fetchall; reflexivity).
  destruct H as [Hdb Hk]. rewrite <- Hdb.
  set (rows := Sql.select_open (db w1)) in *.
  set (n := List.length rows) in *.
  refine (proj1 (dd_weaken (n * 1 + (n * 1 + 0 + 0)) (2 * n) _ _ _ w1 w2 _));
    [lia| |split; assumption].
  apply (dd_bind_post (fun scored : list (Z * Row.t) => List.length scored = n)).
  - apply dd_for_each. intros acc r.
    apply (dd_bind 1 0); [apply dd_score_task|intros s; apply dd_ret].
  - intros w scored Hs.
    apply (for_each_length _) in Hs; [exact Hs|].
    intros acc a w0 acc'. unfold bind.
    destruct (score_task frm _ _ _ _ w0) as [[v|e] w']; cbn; [|discriminate].
    intros [= <-]. rewrite length_app. cbn. lia.
  - intros scored <-. unfold sort_scored.
    apply (dd_bind (List.length scored * 1 + 0) 0); [|intros l; apply dd_ret].
    apply (dd_bind (List.length scored * 1) 0); [|intros keyed; apply dd_ret].
    apply dd_for_each. intros acc x.
    apply (dd_bind 1 0); [apply dd_sort_key|intros k; apply dd_ret].
Qed.

End DateDetermined.

(** ** The handlers *)

Lemma add_task_run title due_date priority status w :
  add_task title due_date priority status w =
  match strptime_ymd due_date with
  | None => (Ok (RedirectResponse "/?error=bad_date" 303), w)
  | Some _ =>
      (Ok (RedirectResponse "/" 303),
       mkWorld
         (Sql.insert_task title due_date
            (dict_get PRIORITY_MAP (lower priority) 2)
            (isoformat_seconds (clock w (reads w)))
            (if str_in status STATUSES then status else "todo") (db w))
         (clock w) (S (reads w)))
  end.
Proof. unfold add_task. destruct (strptime_ymd due_date); reflexivity. Qed.

Lemma delete_task_run task_id w :
  delete_task task_id w =
  if int64 task_id
  then (Ok (RedirectResponse "/" 303),
        mkWorld (Sql.delete_by_id task_id (db w)) (clock w) (reads w))
  else (Raise OverflowError, w).
Proof.
  unfold delete_task, bind, execute_int. destruct (int64 task_id); reflexivity.
Qed.

Lemma move_task_run task_id payload_status w :
  move_task task_id payload_status w =
  if int64 task_id
  then (Ok (JSONResponse [("ok", true)]),
        let st := if str_in payload_status STATUSES then payload_status
                  else "todo" in
        let now := isoformat_seconds (clock w (reads w)) in
        mkWorld
          (if String.eqb st "done" then Sql.update_done now task_id (db w)
           else Sql.update_status st task_id (db w))
          (clock w) (S (reads w)))
  else (Raise OverflowError, tick w).
Proof.
  unfold move_task, bind, execute_int. cbn.
  destruct (String.eqb _ "done"), (int64 task_id); reflexivity.
Qed.

(** An id that does not fit: the statement is not run. *)
Lemma delete_task_overflow task_id w :
  int64 task_id = false -> delete_task task_id w = (Raise OverflowError, w).
Proof. intros H. now rewrite delete_task_run, H. Qed.

Lemma move_task_overflow task_id payload_status w :
  int64 task_id = false ->
  move_task task_id payload_status w = (Raise OverflowError, tick w).
Proof. intros H. now rewrite move_task_run, H. Qed.

Lemma delete_task_seq task_id w :
  seq (db (snd (delete_task task_id w))) = seq (db w).
Proof. rewrite delete_task_run. destruct (int64 task_id); reflexivity. Qed.

Lemma move_task_seq task_id payload_status w :
  seq (db (snd (move_task task_id payload_status w))) = seq (db w).
Proof.
  rewrite move_task_run. destruct (int64 task_id); [|reflexivity].
  cbn. destruct (String.eqb _ "done"); reflexivity.
Qed.

Lemma map_id_in {A : Type} (f : A -> A) (l : list A) :
  (forall x, In x l -> f x = x) -> map f l = l.
Proof.
  intros H. rewrite <- (map_id l) at 2. now apply map_ext_in.
Qed.

(** No row of a table on disk has an id that does not fit. *)
Lemma ids_int64_none s task_id :
  ids_int64 s -> int64 task_id = false ->
  forall r, In r (rows s) -> (Row.id r =? task_id) = false.
Proof.
  unfold ids_int64. rewrite Forall_forall. intros H Hi r Hr.
  apply Z.eqb_neq. intros E. specialize (H r Hr). congruence.
Qed.

Lemma str_in_iff x xs : str_in x xs = true <-> In x xs.
Proof.
  unfold str_in. rewrite existsb_exists. split.
  - intros (y & Hy & E). apply String.eqb_eq in E. now subst.
  - intros H. exists x. split; [exact H|apply String.eqb_refl].
Qed.

Lemma dict_get_priority_default k :
  k <> "low" -> k <> "mid" -> k <> "high" -> dict_get PRIORITY_MAP k 2 = 2.
Proof.
  intros H1 H2 H3. cbn.
  apply String.eqb_neq in H1, H2, H3. now rewrite H1, H2, H3.
Qed.

Lemma resolved_spec status :
  (In status STATUSES -> resolved status = status) /\
  (~ In status STATUSES -> resolved status = "todo") /\
  In (resolved status) STATUSES.
Proof.
  unfold resolved. destruct (str_in status STATUSES) eqn:E.
  - apply str_in_iff in E. repeat split; auto. intros H. now elim H.
  - assert (H : ~ In status STATUSES)
      by (rewrite <- str_in_iff; congruence).
    repeat split; auto; [intros H'; now elim H|cbn; auto].
Qed.

Lemma move_task_rows task_id payload_status w :
  int64 task_id = true ->
  rows (db (snd (move_task task_id payload_status w)))
  = map (fun r => if Row.id r =? task_id
                  then moved (resolved payload_status)
                             (isoformat_seconds (clock w (reads w))) r
                  else r)
        (rows (db w)).
Proof.
  intros Hi. rewrite move_task_run, Hi. cbn. unfold moved, resolved.
  destruct (String.eqb _ "done"); reflexivity.
Qed.

(** What a request leaves in the table is a row it found there or, after a
    move in range, that row moved. *)
Lemma move_task_rows_cases task_id payload_status w :
  rows (db (snd (move_task task_id payload_status w))) = rows (db w) \/
  rows (db (snd (move_task task_id payload_status w)))
  = map (fun r => if Row.id r =? task_id
                  then moved (resolved payload_status)
                             (isoformat_seconds (clock w (reads w))) r
                  else r)
        (rows (db w)).
Proof.
  destruct (int64 task_id) eqn:Hi.
  - right. now apply move_task_rows.
  - left. now rewrite move_task_overflow.
Qed.

Lemma delete_task_rows_cases task_id w :
  rows (db (snd (delete_task task_id w))) = rows (db w) \/
  rows (db (snd (delete_task task_id w)))
  = filter (fun r => negb (Row.id r =? task_id)) (rows (db w)).
Proof.
  rewrite delete_task_run. destruct (int64 task_id); [right|left]; reflexivity.
Qed.

Lemma filter_id {A : Type} (f : A -> bool) (l : list A) :
  (forall x, In x l -> f x = true) -> filter f l = l.
Proof.
  induction l as [|a l IH]; cbn; intros H; [reflexivity|].
  rewrite (H a) by now left. f_equal. apply IH. intros x Hx. apply H. now right.
Qed.

Lemma filter_idem {A : Type} (f : A -> bool) (l : list A) :
  filter f (filter f l) = filter f l.
Proof.
  apply filter_id. intros x Hx. apply filter_In in Hx. apply Hx.
Qed.

Lemma select_open_incl st r : In r (Sql.select_open st) -> In r (rows st).
Proof.
  unfold Sql.select_open, Sql.order_by_id. intros H.
  apply in_map_iff in H. destruct H as ([k r'] & E & H). cbn in E. subst r'.
  eapply Permutation_in in H; [|apply sort_by_perm].
  apply in_map_iff in H. destruct H as (r' & E & H). injection E as _ ->.
  apply filter_In in H. apply H.
Qed.

Lemma select_open_parses st :
  Forall parses (rows st) -> Forall parses (Sql.select_open st).
Proof.
  rewrite !Forall_forall. intros H r Hr. apply H. now apply select_open_incl.
Qed.

(** Every handler keeps the due dates of the table parseable. *)
Lemma handle_parses q w :
  Forall parses (rows (db w)) -> Forall parses (rows (db (snd (handle q w)))).
Proof.
  intros H. destruct q as [t d p s|i|i s]; cbn [handle].
  - rewrite add_task_run. destruct (strptime_ymd d) eqn:E; [|exact H].
    cbn. apply Forall_app. split; [exact H|].
    constructor; [|constructor]. unfold parses. cbn. congruence.
  - destruct (delete_task_rows_cases i w) as [->| ->]; [exact H|].
    rewrite Forall_forall in *.
    intros r Hr. apply filter_In in Hr. apply H, Hr.
  - destruct (move_task_rows_cases i s w) as [->| ->]; [exact H|].
    apply Forall_map. eapply Forall_impl; [|exact H]. intros r Hr.
    destruct (Row.id r =? i); [|exact Hr].
    unfold parses, moved in *. destruct (String.eqb _ "done"); exact Hr.
Qed.

Lemma session_parses qs w :
  Forall parses (rows (db w)) -> Forall parses (rows (db (session qs w))).
Proof.
  revert w. induction qs as [|q qs IH]; intros w H; cbn; [exact H|].
  apply IH. now apply handle_parses.
Qed.

(** ** The score *)

Lemma days_between_self d : days_between d d = 0.
Proof. unfold days_between. lia. Qed.

(** C1: the score is the sum of the status, due, priority and aging weights;
    a "todo" task of priority 3 created on the day the clock shows scores
    10 + 19 + 24 + 0 = 53 when due the next day and 10 + 35 + 24 + 0 = 69
    when two days overdue. *)
Theorem score_task_sum_of_weights (frm : string -> option date) (w : World)
    (due_str_a due_str_b created_at : string) (due_a due_b : date) :
  strptime_ymd due_str_a = Some due_a ->
  days_between due_a (today_of w) = 1 ->
  strptime_ymd due_str_b = Some due_b ->
  days_between due_b (today_of w) = -2 ->
  frm created_at = Some (today_of w) ->
  (forall s p st c d,
      strptime_ymd s = Some d ->
      fst (score_task frm s p st c w)
      = Ok (status_w st + due_w (days_between d (today_of w)) + pri_w p
            + age_on frm (today_of w) c)) /\
  status_w "todo" = 10 /\ due_w 1 = 19 /\ due_w (-2) = 35 /\ pri_w 3 = 24 /\
  age_on frm (today_of w) created_at = 0 /\
  fst (score_task frm due_str_a 3 "todo" created_at w) = Ok 53 /\
  fst (score_task frm due_str_b 3 "todo" created_at w) = Ok 69.
Proof.
  intros Ha Hda Hb Hdb Hc.
  assert (Hage : age_on frm (today_of w) created_at = 0)
    by (unfold age_on; rewrite Hc, days_between_self; reflexivity).
  split.
  { intros s p st c d Hs. rewrite score_task_run, Hs. reflexivity. }
  repeat (split; [reflexivity|]). split; [exact Hage|].
  rewrite !score_task_run, Ha, Hb, Hda, Hdb, Hage. split; reflexivity.
Qed.

Lemma score_task_sum_of_weights_witness :
  strptime_ymd "2024-03-02" = Some (mkDate 2024 3 2) /\
  days_between (mkDate 2024 3 2) (today_of (world_on day0 empty_store)) = 1 /\
  strptime_ymd "2024-02-28" = Some (mkDate 2024 2 28) /\
  days_between (mkDate 2024 2 28) (today_of (world_on day0 empty_store)) = -2 /\
  fromisoformat_seconds_date "2024-03-01T09:30:00"
  = Some (today_of (world_on day0 empty_store)) /\
  fst (score_task fromisoformat_seconds_date "2024-03-02" 3 "todo"
         "2024-03-01T09:30:00" (world_on day0 empty_store)) = Ok 53 /\
  fst (score_task fromisoformat_seconds_date "2024-02-28" 3 "todo"
         "2024-03-01T09:30:00" (world_on day0 empty_store)) = Ok 69.
Proof.
  repeat (split; [reflexivity|]).
  apply (score_task_sum_of_weights fromisoformat_seconds_date
           (world_on day0 empty_store) "2024-03-02" "2024-02-28"
           "2024-03-01T09:30:00" (mkDate 2024 3 2) (mkDate 2024 2 28));
    reflexivity.
Defined.

(** C5: with status, priority and creation time fixed, the score does not
    grow with the days until due once they are not negative; the due weight
    is max(0, 20 - d) there, 0 from 20 days on, and 35 for every negative d,
    so 20 at d = 0 and 35 at d = -1. *)
Theorem score_task_due_monotone (frm : string -> option date) (w : World)
    (s1 s2 : string) (due1 due2 : date) (priority : Z)
    (status created_at : string) :
  strptime_ymd s1 = Some due1 ->
  strptime_ymd s2 = Some due2 ->
  0 <= days_between due1 (today_of w) <= days_between due2 (today_of w) ->
  (exists v1 v2,
      fst (score_task frm s1 priority status created_at w) = Ok v1 /\
      fst (score_task frm s2 priority status created_at w) = Ok v2 /\
      v2 <= v1 /\
      v1 - v2 = due_w (days_between due1 (today_of w))
                - due_w (days_between due2 (today_of w))) /\
  (forall d, 0 <= d -> due_w d = Z.max 0 (20 - d)) /\
  (forall d, 20 <= d -> due_w d = 0) /\
  (forall d, d < 0 -> due_w d = 35) /\
  due_w 0 = 20 /\ due_w (-1) = 35.
Proof.
  intros H1 H2 Hd. split.
  - rewrite !score_task_run, H1, H2. eexists _, _.
    split; [reflexivity|]. split; [reflexivity|]. cbn [fst].
    unfold due_w.
    destruct (Z.ltb_spec (days_between due1 (today_of w)) 0),
             (Z.ltb_spec (days_between due2 (today_of w)) 0); lia.
  - unfold due_w. repeat split; intros;
      try (destruct (Z.ltb_spec d 0); lia); reflexivity.
Qed.

Lemma score_task_due_monotone_witness :
  strptime_ymd "2024-03-04" = Some (mkDate 2024 3 4) /\
  strptime_ymd "2024-03-25" = Some (mkDate 2024 3 25) /\
  0 <= days_between (mkDate 2024 3 4) day0 <= days_between (mkDate 2024 3 25) day0 /\
  exists v1 v2,
    fst (score_task fromisoformat_seconds_date "2024-03-04" 2 "progress"
           "2024-02-20T08:00:00" (world_on day0 empty_store)) = Ok v1 /\
    fst (score_task fromisoformat_seconds_date "2024-03-25" 2 "progress"
           "2024-02-20T08:00:00" (world_on day0 empty_store)) = Ok v2 /\
    v2 <= v1.
Proof.
  assert (Hd : 0 <= days_between (mkDate 2024 3 4) (today_of (world_on day0 empty_store))
               <= days_between (mkDate 2024 3 25) (today_of (world_on day0 empty_store)))
    by (vm_compute; split; discriminate).
  split; [reflexivity|]. split; [reflexivity|]. split; [exact Hd|].
  destruct (score_task_due_monotone fromisoformat_seconds_date
              (world_on day0 empty_store) "2024-03-04" "2024-03-25"
              (mkDate 2024 3 4) (mkDate 2024 3 25) 2 "progress"
              "2024-02-20T08:00:00" eq_refl eq_refl Hd)
    as [(v1 & v2 & E1 & E2 & Hle & _) _].
  exists v1, v2. repeat split; assumption.
Defined.

(** C8: the aging weight is the age in days clamped to [0, 10]; a
    [created_at] that does not parse gives 0 and never makes the score or
    the ranking fail: either raises only on a due date that does not
    parse. *)
Theorem age_weight_clamped_and_absorbed (frm : string -> option date) :
  (forall today created_at w,
      age_w frm today created_at w = (Ok (age_on frm today created_at), w) /\
      0 <= age_on frm today created_at <= 10) /\
  (forall today created_at created,
      frm created_at = Some created ->
      age_on frm today created_at
      = Z.min 10 (Z.max 0 (days_between today created))) /\
  (forall today created_at, frm created_at = None -> age_on frm today created_at = 0) /\
  (forall s p st c w due,
      strptime_ymd s = Some due -> frm c = None ->
      fst (score_task frm s p st c w)
      = Ok (status_w st + due_w (days_between due (today_of w)) + pri_w p + 0)) /\
  (forall s p st c w,
      (exists v, fst (score_task frm s p st c w) = Ok v) <-> strptime_ymd s <> None) /\
  (forall top w,
      Forall parses (Sql.select_open (db w)) ->
      exists l, fst (fetch_today frm top w) = Ok l).
Proof.
  split; [|split; [|split; [|split; [|split]]]].
  - intros today c w. split; [apply age_w_run|apply age_on_bounds].
  - intros today c created H. unfold age_on. now rewrite H.
  - intros today c H. unfold age_on. now rewrite H.
  - intros s p st c w due Hs Hc. rewrite score_task_run, Hs. unfold age_on.
    now rewrite Hc.
  - intros s p st c w. rewrite score_task_run.
    destruct (strptime_ymd s); cbn; split.
    + discriminate.
    + intros _. eexists. reflexivity.
    + intros [v Hv]. discriminate.
    + intros H. now elim H.
  - intros top w Hp. destruct (fetch_today_ok frm w Hp) as (keyed & H & _).
    eexists. apply H.
Qed.

Lemma select_open_In st r :
  In r (rows st) -> Row.status r <> "done" -> In r (Sql.select_open st).
Proof.
  intros Hr Hs. unfold Sql.select_open, Sql.order_by_id.
  apply in_map_iff. exists (Row.id r, r). split; [reflexivity|].
  eapply Permutation_in; [symmetry; apply sort_by_perm|].
  apply in_map_iff. exists r. split; [reflexivity|].
  apply filter_In. split; [exact Hr|].
  apply negb_true_iff, String.eqb_neq. exact Hs.
Qed.

(** C10: a due date that does not parse makes [score_task] raise, whatever
    [created_at] is, and one such open row makes the whole of [fetch_today]
    raise; it returns exactly when every open row's due date parses.  A
    session of requests leads to a raising [fetch_today] only when a stored
    due date does not parse, and on a table of SQLite some session does
    whenever one does not; this never happens after a session on an empty
    table, since [add_task] stores only dates that parse. *)
Theorem malformed_due_date_aborts (frm : string -> option date) :
  (forall s p st c w,
      fst (score_task frm s p st c w) = Raise ValueError <->
      strptime_ymd s = None) /\
  (forall top w,
      fst (fetch_today frm top w) = Raise ValueError <->
      Exists (fun r => strptime_ymd (Row.due_date r) = None)
             (Sql.select_open (db w))) /\
  (forall top w,
      (exists l, fst (fetch_today frm top w) = Ok l) <->
      Forall parses (Sql.select_open (db w))) /\
  (forall top w qs,
      fst (fetch_today frm top (session qs w)) = Raise ValueError ->
      Exists (fun r => strptime_ymd (Row.due_date r) = None) (rows (db w))) /\
  (forall top w,
      ids_int64 (db w) ->
      Exists (fun r => strptime_ymd (Row.due_date r) = None) (rows (db w)) ->
      exists qs, fst (fetch_today frm top (session qs w)) = Raise ValueError) /\
  (forall qs top clk n,
      let w := session qs (mkWorld empty_store clk n) in
      Forall parses (rows (db w)) /\
      exists l, fst (fetch_today frm top w) = Ok l).
Proof.
  assert (Hdec : forall l : list Row.t,
             Forall parses l \/
             Exists (fun r => strptime_ymd (Row.due_date r) = None) l).
  { induction l as [|r l [IH|IH]].
    - left. constructor.
    - destruct (parses_dec r) as [Hr|Hr]; [left|right]; now constructor.
    - right. now constructor 2. }
  split; [|split; [|split; [|split; [|split]]]].
  - intros s p st c w. rewrite score_task_run.
    destruct (strptime_ymd s); cbn; split; congruence.
  - intros top w. split; [|apply fetch_today_raises].
    intros Hr. destruct (Hdec (Sql.select_open (db w))) as [Hp|Hex]; [|exact Hex].
    destruct (fetch_today_ok frm w Hp) as (keyed & H & _).
    rewrite H in Hr. discriminate.
  - intros top w. split.
    + intros [l Hl]. destruct (Hdec (Sql.select_open (db w))) as [Hp|Hex]; [exact Hp|].
      apply (fetch_today_raises frm top) in Hex. congruence.
    + intros Hp. destruct (fetch_today_ok frm w Hp) as (keyed & H & _).
      eexists. apply H.
  - intros top w qs Hr. destruct (Hdec (rows (db w))) as [Hp|Hex]; [|exact Hex].
    apply (session_parses qs) in Hp. apply select_open_parses in Hp.
    destruct (fetch_today_ok frm _ Hp) as (keyed & H & _).
    rewrite H in Hr. discriminate.
  - intros top w Hids Hex. apply Exists_exists in Hex.
    destruct Hex as (r & Hr & Hbad).
    destruct (String.eqb_spec (Row.status r) "done") as [Hs|Hs].
    + exists [Move (Row.id r) "todo"]. cbn [session handle].
      apply fetch_today_raises. apply Exists_exists.
      exists (moved "todo" (isoformat_seconds (clock w (reads w))) r).
      split; [|exact Hbad].
      apply select_open_In; [|cbn; discriminate].
      unfold ids_int64 in Hids. rewrite Forall_forall in Hids.
      rewrite move_task_rows by now apply Hids.
      apply in_map_iff. exists r.
      split; [|exact Hr]. now rewrite Z.eqb_refl.
    + exists []. cbn [session]. apply fetch_today_raises. apply Exists_exists.
      exists r. split; [|exact Hbad]. now apply select_open_In.
  - intros qs top clk n w.
    assert (Hp : Forall parses (rows (db w)))
      by (apply session_parses; constructor).
    split; [exact Hp|].
    destruct (fetch_today_ok frm w (select_open_parses _ Hp)) as (keyed & H & _).
    eexists. apply H.
Qed.

(** ** The ranking *)

Lemma all_parse_Forall l : all_parse l = true -> Forall parses l.
Proof.
  unfold all_parse. rewrite forallb_forall, Forall_forall.
  intros H r Hr. specialize (H r Hr). unfold parses.
  destruct (strptime_ymd (Row.due_date r)); congruence.
Qed.

Lemma steady_world_on d st : steady d (world_on d st).
Proof. intros n. reflexivity. Qed.

Lemma slice_to_nonneg {A : Type} top (l : list A) :
  0 <= top -> slice_to top l = firstn (Z.to_nat top) l.
Proof.
  intros H. unfold slice_to. destruct (Z.leb_spec 0 top); [reflexivity|lia].
Qed.

Lemma slice_to_negative {A : Type} top (l : list A) :
  top < 0 -> slice_to top l = firstn (List.length l - Z.to_nat (- top)) l.
Proof.
  intros H. unfold slice_to. destruct (Z.leb_spec 0 top); [lia|reflexivity].
Qed.



(** The ranking of the example table on 2024-03-01: the scores are
    10+17+16+10, 18+19+8+0, 10+11+24+2 and 2+19+24+0. *)
Example fetch_today_demo :
  fst (fetch_today fromisoformat_seconds_date 3 (world_on day0 demo_store))
  = Ok [ (53, demo_row 1 "2024-03-04" 2 "2024-02-20T08:00:00" "todo");
         (47, demo_row 4 "2024-03-10" 3 "2024-02-28T08:00:00" "todo");
         (45, demo_row 5 "2024-03-02" 3 "not a timestamp" "pending") ].
Proof. reflexivity. Qed.

(** A negative [top] drops entries from the end, as a Python slice does. *)
Example fetch_today_negative_top :
  fst (fetch_today fromisoformat_seconds_date (-3) (world_on day0 demo_store))
  = Ok [ (53, demo_row 1 "2024-03-04" 2 "2024-02-20T08:00:00" "todo") ].
Proof. reflexivity. Qed.

(** C4, as the code has it: neither function takes a reference date; each
    reads the clock.  [score_task] reads it once when the due date parses
    and not at all when it raises; [fetch_today] reads it twice per open
    row when every due date parses, and once per open row before the first
    whose due date does not when it raises; neither does anything else to
    the world.  The results depend on the world only through the table and
    the dates the clock shows at these reads: one [score_task] call through
    the date at its read, [fetch_today] through the dates at its two reads
    per open row, so two runs on the same table under clocks that show the
    same dates at these reads, read for read, agree, as they do under
    clocks that stay on the same day. *)
Theorem score_and_ranking_determined_by_clock_date (frm : string -> option date) :
  (forall s p st c w,
      snd (score_task frm s p st c w)
      = match strptime_ymd s with Some _ => tick w | None => w end) /\
  (forall top w,
      Forall parses (Sql.select_open (db w)) ->
      snd (fetch_today frm top w)
      = ticks (2 * List.length (Sql.select_open (db w))) w) /\
  (forall top w pre r post,
      Sql.select_open (db w) = pre ++ r :: post ->
      Forall parses pre -> strptime_ymd (Row.due_date r) = None ->
      fetch_today frm top w = (Raise ValueError, ticks (List.length pre) w)) /\
  (forall s p st c u1 u2,
      today_of u1 = today_of u2 ->
      fst (score_task frm s p st c u1) = fst (score_task frm s p st c u2)) /\
  (forall top w1 w2,
      same_dates (2 * List.length (Sql.select_open (db w1))) w1 w2 ->
      fst (fetch_today frm top w1) = fst (fetch_today frm top w2)) /\
  (forall today top w1 w2,
      steady today w1 -> steady today w2 -> db w1 = db w2 ->
      fst (fetch_today frm top w1) = fst (fetch_today frm top w2)).
Proof.
  split; [|split; [|split; [|split; [|split]]]].
  - intros s p st c w. rewrite score_task_run.
    destruct (strptime_ymd s); reflexivity.
  - intros top w. apply fetch_today_world.
  - intros top w pre r post. apply fetch_today_stops.
  - intros s p st c u1 u2 Hu. rewrite !score_task_run, Hu.
    destruct (strptime_ymd s); reflexivity.
  - intros top w1 w2 H. apply (dd_fetch_today frm top w1 w2 H).
  - intros today top w1 w2 H1 H2 Hdb.
    apply (dd_fetch_today frm top w1 w2).
    now apply (steady_same_dates today).
Qed.

(** Two clocks that pass midnight at the same read, at different times of
    the day, and part after the four reads of the call. *)
Lemma score_and_ranking_determined_by_clock_date_witness :
  let w1 := world_over_midnight day0 (mkDate 2024 3 2) 1 twin_store in
  let w2 := mkWorld twin_store
              (fun n => if (n <? 8)%nat then mkDatetime day0 9 30 0
                        else if (n <? 11)%nat
                             then mkDatetime (mkDate 2024 3 2) 7 15 0
                             else mkDatetime (mkDate 2024 3 3) 7 15 0) 7 in
  same_dates 4 w1 w2 /\
  fst (fetch_today fromisoformat_seconds_date 5 w1)
  = fst (fetch_today fromisoformat_seconds_date 5 w2) /\
  snd (fetch_today fromisoformat_seconds_date 5 w1) = ticks 4 w1.
Proof.
  intros w1 w2.
  assert (H : same_dates 4 w1 w2).
  { split; [reflexivity|]. intros k Hk.
    do 4 (destruct k as [|k]; [reflexivity|]). lia. }
  destruct (score_and_ranking_determined_by_clock_date fromisoformat_seconds_date)
    as (_ & Hreads & _ & _ & Hsame & _).
  split; [exact H|]. split; [exact (Hsame 5 w1 w2 H)|].
  apply (Hreads 5 w1). apply all_parse_Forall. reflexivity.
Defined.

(** C4, as the specification has it, fails: the same arguments score 53 on
    2024-03-01 and 54 a day later, and a run of [fetch_today] during which
    the clock passes midnight gives two rows that differ in their id only
    different scores, which no single reference date does. *)
Lemma score_task_depends_on_clock :
  fst (score_task fromisoformat_seconds_date "2024-03-04" 2 "todo"
         "2024-02-20T08:00:00" (world_on day0 empty_store)) = Ok 53 /\
  fst (score_task fromisoformat_seconds_date "2024-03-04" 2 "todo"
         "2024-02-20T08:00:00" (world_on (mkDate 2024 3 2) empty_store)) = Ok 54 /\
  ~ (forall w1 w2 : World,
        fst (score_task fromisoformat_seconds_date "2024-03-04" 2 "todo"
               "2024-02-20T08:00:00" w1)
        = fst (score_task fromisoformat_seconds_date "2024-03-04" 2 "todo"
                 "2024-02-20T08:00:00" w2)) /\
  fst (fetch_today fromisoformat_seconds_date 5
         (world_over_midnight day0 (mkDate 2024 3 2) 1 twin_store))
  = Ok [ (54, demo_row 2 "2024-03-04" 2 "2024-02-20T08:00:00" "todo");
         (53, demo_row 1 "2024-03-04" 2 "2024-02-20T08:00:00" "todo") ] /\
  fst (fetch_today fromisoformat_seconds_date 5 (world_on day0 twin_store))
  = Ok [ (53, demo_row 1 "2024-03-04" 2 "2024-02-20T08:00:00" "todo");
         (53, demo_row 2 "2024-03-04" 2 "2024-02-20T08:00:00" "todo") ].
Proof.
  split; [reflexivity|]. split; [reflexivity|]. split; [|split; reflexivity].
  intros H.
  specialize (H (world_on day0 empty_store) (world_on (mkDate 2024 3 2) empty_store)).
  vm_compute in H. discriminate.
Qed.

(** ** The handlers that write the table *)

(** C7: [add_task] on a due date that [strptime] refuses answers with the
    redirect to [/?error=bad_date] and leaves the world as it was; on a date
    that parses it appends one row and redirects to [/]; the table is
    unchanged exactly when the date does not parse. *)
Theorem add_task_rejects_bad_date_atomically
    (title due_date priority status : string) (w : World) :
  (strptime_ymd due_date = None ->
   add_task title due_date priority status w
   = (Ok (RedirectResponse "/?error=bad_date" 303), w)) /\
  (strptime_ymd due_date <> None ->
   fst (add_task title due_date priority status w)
   = Ok (RedirectResponse "/" 303) /\
   exists row,
     rows (db (snd (add_task title due_date priority status w)))
     = rows (db w) ++ [row] /\
     Row.title row = title /\ Row.due_date row = due_date /\
     Row.done row = 0 /\ Row.done_at row = None /\
     Row.id row = Sql.next_id (db w) /\
     Row.created_at row = isoformat_seconds (clock w (reads w))) /\
  (db (snd (add_task title due_date priority status w)) = db w <->
   strptime_ymd due_date = None).
Proof.
  rewrite add_task_run. destruct (strptime_ymd due_date) as [d|] eqn:E.
  - split; [discriminate|]. split.
    + intros _. split; [reflexivity|]. eexists. cbn. repeat split.
    + split; [|discriminate]. cbn. intros H. exfalso.
      apply (f_equal (fun s => List.length (rows s))) in H. cbn in H.
      rewrite length_app in H. cbn in H. lia.
  - split; [reflexivity|]. split; [congruence|]. split; reflexivity.
Qed.

Example add_task_bad_date :
  add_task "T1" "2024-02-30" "high" "todo" (world_on day0 demo_store)
  = (Ok (RedirectResponse "/?error=bad_date" 303), world_on day0 demo_store).
Proof. reflexivity. Qed.

(** A date in fullwidth digits is stored as it came. *)
Example add_task_fullwidth_date :
  map Row.due_date
      (rows (db (snd (add_task "T1" "２０２４-03-01" "high" "todo"
                        (world_on day0 empty_store)))))
  = ["２０２４-03-01"].
Proof. reflexivity. Qed.

Example add_task_then_score :
  fst (fetch_today fromisoformat_seconds_date 5
         (snd (add_task "T1" "2024-03-02" "high" "todo"
                 (world_on day0 empty_store))))
  = Ok [ (53, Row.mk 1 "T1" "2024-03-02" 3 "2024-03-01T12:00:00" 0 None "todo") ].
Proof. reflexivity. Qed.

(** C9, as the code has it: [delete_task] is idempotent on the world for
    every integer, and on an id that no row has it leaves the world as it
    was.  It answers with the redirect to [/] when the id fits an SQLite
    INTEGER, the second time as the first, and then no row has the id
    afterwards and every other row is still there; on an integer that does
    not fit it raises [OverflowError] and leaves the world as it was. *)
Theorem delete_task_idempotent (task_id : Z) (w : World) :
  snd (delete_task task_id (snd (delete_task task_id w)))
  = snd (delete_task task_id w) /\
  ((forall r, In r (rows (db w)) -> Row.id r <> task_id) ->
   snd (delete_task task_id w) = w) /\
  (int64 task_id = true ->
   fst (delete_task task_id w) = Ok (RedirectResponse "/" 303) /\
   delete_task task_id (snd (delete_task task_id w))
   = (Ok (RedirectResponse "/" 303), snd (delete_task task_id w)) /\
   (forall r, In r (rows (db (snd (delete_task task_id w)))) <->
              In r (rows (db w)) /\ Row.id r <> task_id)) /\
  (int64 task_id = false ->
   delete_task task_id w = (Raise OverflowError, w)).
Proof.
  destruct (int64 task_id) eqn:Hi.
  - assert (Hrun : forall u,
               delete_task task_id u
               = (Ok (RedirectResponse "/" 303),
                  mkWorld (Sql.delete_by_id task_id (db u)) (clock u) (reads u)))
      by (intros u; now rewrite delete_task_run, Hi).
    rewrite !Hrun. cbn [fst snd db clock reads].
    assert (Hidem : Sql.delete_by_id task_id (Sql.delete_by_id task_id (db w))
                    = Sql.delete_by_id task_id (db w)).
    { unfold Sql.delete_by_id. cbn [rows seq]. now rewrite filter_idem. }
    rewrite Hidem. split; [reflexivity|]. split; [|split; [|discriminate]].
    + intros H. destruct w as [[rs sq] clk n]. cbn in *.
      unfold Sql.delete_by_id. cbn. rewrite filter_id; [reflexivity|].
      intros r Hr. apply negb_true_iff, Z.eqb_neq. now apply H.
    + intros _. split; [reflexivity|]. split; [reflexivity|].
      intros r. unfold Sql.delete_by_id. cbn [rows].
      rewrite filter_In, negb_true_iff, Z.eqb_neq. reflexivity.
  - assert (Hrun : forall u, delete_task task_id u = (Raise OverflowError, u))
      by (intros u; now apply delete_task_overflow).
    rewrite !Hrun. cbn [fst snd].
    split; [reflexivity|]. split; [reflexivity|]. split; [discriminate|].
    reflexivity.
Qed.

(** C9, as the specification has it, fails: no row of the example table
    has the id 2^63, and deleting it is an error. *)
Lemma delete_task_raises_on_big_id :
  (forall r, In r (rows (db (world_on day0 demo_store))) ->
             Row.id r <> 9223372036854775808) /\
  delete_task 9223372036854775808 (world_on day0 demo_store)
  = (Raise OverflowError, world_on day0 demo_store) /\
  ~ (forall task_id w,
        (forall r, In r (rows (db w)) -> Row.id r <> task_id) ->
        fst (delete_task task_id w) = Ok (RedirectResponse "/" 303)).
Proof.
  assert (Hno : forall r, In r (rows (db (world_on day0 demo_store))) ->
                          Row.id r <> 9223372036854775808).
  { intros r Hr. cbn in Hr.
    destruct Hr as [<-|[<-|[<-|[<-|[<-|[]]]]]]; discriminate. }
  split; [exact Hno|]. split; [reflexivity|].
  intros H. specialize (H _ _ Hno). discriminate H.
Qed.

Lemma moved_mirrored st now r : mirrored (moved st now r).
Proof.
  unfold moved, mirrored. destruct (String.eqb st "done") eqn:E; cbn.
  - repeat split; intros; congruence.
  - apply String.eqb_neq in E. repeat split; intros; congruence.
Qed.

Lemma moved_same_task st now r : same_task (moved st now r) r.
Proof. unfold moved. destruct (String.eqb st "done"); repeat split. Qed.

Lemma Forall2_map_self {A B : Type} (R : A -> B -> Prop) (f : A -> B) (l : list A) :
  (forall x, R x (f x)) -> Forall2 R l (map f l).
Proof. intros H. induction l; cbn; constructor; auto. Qed.

(** C6: a priority or status string that is not recognized is never an
    error.  [add_task] on a date that parses stores level 1, 2 or 3 for a
    priority that is low, mid or high up to case and 2 for any other, and
    the status itself when it is one of the four names and "todo" for any
    other.  [move_task] on an id that fits an SQLite INTEGER answers ok and
    leaves every row in its place, those with the id holding the status
    resolved the same way and the others as they were; when it raises, it
    is on the id and it does so for every status. *)
Theorem unrecognized_enums_coerced
    (title due_date priority status : string) (w : World) :
  strptime_ymd due_date <> None ->
  exists row,
    add_task title due_date priority status w
    = (Ok (RedirectResponse "/" 303),
       mkWorld (mkStore (rows (db w) ++ [row]) (Row.id row))
               (clock w) (S (reads w))) /\
    (lower priority = "low" -> Row.priority row = 1) /\
    (lower priority = "mid" -> Row.priority row = 2) /\
    (lower priority = "high" -> Row.priority row = 3) /\
    (lower priority <> "low" -> lower priority <> "mid" ->
     lower priority <> "high" -> Row.priority row = 2) /\
    (In status STATUSES -> Row.status row = status) /\
    (~ In status STATUSES -> Row.status row = "todo") /\
    (forall task_id payload_status,
        int64 task_id = true ->
        fst (move_task task_id payload_status w) = Ok (JSONResponse [("ok", true)]) /\
        Forall2 (fun r r' =>
                   if Row.id r =? task_id
                   then same_task r' r /\
                        (In payload_status STATUSES ->
                         Row.status r' = payload_status) /\
                        (~ In payload_status STATUSES -> Row.status r' = "todo")
                   else r' = r)
                (rows (db w))
                (rows (db (snd (move_task task_id payload_status w))))) /\
    (forall task_id payload_status e,
        fst (move_task task_id payload_status w) = Raise e ->
        int64 task_id = false /\
        forall other, fst (move_task task_id other w) = Raise e).
Proof.
  intros Hd. rewrite add_task_run.
  destruct (strptime_ymd due_date) as [d|]; [clear Hd|now elim Hd].
  exists (Row.mk (Sql.next_id (db w)) title due_date
                 (dict_get PRIORITY_MAP (lower priority) 2)
                 (isoformat_seconds (clock w (reads w))) 0 None
                 (resolved status)).
  split; [reflexivity|]. cbn [Row.priority Row.status].
  split; [intros ->; reflexivity|]. split; [intros ->; reflexivity|].
  split; [intros ->; reflexivity|]. split; [apply dict_get_priority_default|].
  split; [apply (resolved_spec status)|]. split; [apply (resolved_spec status)|].
  split.
  - intros task_id payload Hi. split; [now rewrite move_task_run, Hi|].
    rewrite move_task_rows by exact Hi. apply Forall2_map_self. intros r.
    destruct (Row.id r =? task_id); [|reflexivity].
    split; [apply moved_same_task|].
    assert (Hst : Row.status (moved (resolved payload)
                                (isoformat_seconds (clock w (reads w))) r)
                  = resolved payload).
    { unfold moved.
      destruct (String.eqb (resolved payload) "done") eqn:Ed; cbn; [|reflexivity].
      apply String.eqb_eq in Ed. now rewrite Ed. }
    rewrite Hst. split; apply (resolved_spec payload).
  - intros task_id payload e He. rewrite move_task_run in He.
    destruct (int64 task_id) eqn:Hi; [discriminate|]. split; [reflexivity|].
    intros other. now rewrite move_task_run, Hi.
Qed.

Lemma unrecognized_enums_coerced_witness :
  strptime_ymd "2024-03-09" <> None /\
  (exists row,
    add_task "T" "2024-03-09" "HiGh" "archived" (world_on day0 demo_store)
    = (Ok (RedirectResponse "/" 303),
       mkWorld (mkStore (rows demo_store ++ [row]) (Row.id row))
               (fun _ => mkDatetime day0 12 0 0) 1) /\
    Row.priority row = 3 /\ Row.status row = "todo") /\
  fst (move_task 2 "archived" (world_on day0 demo_store))
  = Ok (JSONResponse [("ok", true)]) /\
  Forall2 (fun r r' =>
             if Row.id r =? 2
             then same_task r' r /\
                  (In "archived" STATUSES -> Row.status r' = "archived") /\
                  (~ In "archived" STATUSES -> Row.status r' = "todo")
             else r' = r)
          (rows demo_store)
          (rows (db (snd (move_task 2 "archived" (world_on day0 demo_store))))).
Proof.
  assert (Hd : strptime_ymd "2024-03-09" <> None) by discriminate.
  split; [exact Hd|].
  destruct (unrecognized_enums_coerced "T" "2024-03-09" "HiGh" "archived"
              (world_on day0 demo_store) Hd)
    as (row & Hrun & _ & _ & Hhigh & _ & _ & Htodo & Hmove & _).
  split.
  - exists row. split; [exact Hrun|]. split.
    + apply Hhigh. reflexivity.
    + apply Htodo. cbn. intros [H|[H|[H|[H|[]]]]]; discriminate.
  - apply (Hmove 2 "archived"). reflexivity.
Defined.

(** The four names are told apart by case, the three levels are not. *)
Example enum_examples :
  map (fun p => dict_get PRIORITY_MAP (lower p) 2)
      ["low"; "LOW"; "Mid"; "hIgH"; "urgent"; ""; "high "]
  = [1; 1; 2; 3; 2; 2; 2] /\
  map resolved ["todo"; "pending"; "progress"; "done"; "Done"; "archived"; ""]
  = ["todo"; "pending"; "progress"; "done"; "todo"; "todo"; "todo"].
Proof. split; reflexivity. Qed.

(** X1: [move_task] on an id that fits an SQLite INTEGER answers ok and
    writes the legacy columns from the resolved status alone: on "done"
    [done] is 1 and [done_at] the instant of the call, on any other status
    [done] is 0 and [done_at] NULL, whatever the row held before; rows with
    another id are untouched, so a table whose rows all mirror their status
    still does after the call. *)
Theorem move_task_sets_mirror (task_id : Z) (payload_status : string) (w : World) :
  int64 task_id = true ->
  let w' := snd (move_task task_id payload_status w) in
  let now := isoformat_seconds (clock w (reads w)) in
  fst (move_task task_id payload_status w) = Ok (JSONResponse [("ok", true)]) /\
  Forall2 (fun r r' =>
             if Row.id r =? task_id
             then Row.id r' = task_id /\
                  Row.title r' = Row.title r /\
                  Row.due_date r' = Row.due_date r /\
                  Row.priority r' = Row.priority r /\
                  Row.created_at r' = Row.created_at r /\
                  Row.status r' = resolved payload_status /\
                  (resolved payload_status = "done" ->
                   Row.done r' = 1 /\ Row.done_at r' = Some now) /\
                  (resolved payload_status <> "done" ->
                   Row.done r' = 0 /\ Row.done_at r' = None) /\
                  mirrored r'
             else r' = r)
          (rows (db w)) (rows (db w')) /\
  (Forall mirrored (rows (db w)) -> Forall mirrored (rows (db w'))) /\
  (forall r', In r' (rows (db w')) -> Row.id r' = task_id -> mirrored r').
Proof.
  intros Hi w' now.
  assert (Hm : forall r, mirrored (moved (resolved payload_status) now r))
    by apply moved_mirrored.
  assert (Hrows := move_task_rows task_id payload_status w Hi).
  fold w' now in Hrows.
  split; [now rewrite move_task_run, Hi|]. split; [|split].
  - rewrite Hrows. apply Forall2_map_self. intros r.
    destruct (Z.eqb_spec (Row.id r) task_id) as [E|E]; [|reflexivity].
    pose proof (Hm r) as Hmr. unfold moved in *.
    destruct (String.eqb (resolved payload_status) "done") eqn:Ed;
      cbn [Row.id Row.title Row.due_date Row.priority Row.created_at
           Row.status Row.done Row.done_at].
    + apply String.eqb_eq in Ed. repeat split; try congruence; apply Hmr.
    + apply String.eqb_neq in Ed. repeat split; try congruence; apply Hmr.
  - intros H. rewrite Hrows. apply Forall_map. eapply Forall_impl; [|exact H].
    intros r Hr. destruct (Row.id r =? task_id); [apply Hm|exact Hr].
  - intros r' Hin Hid. rewrite Hrows in Hin. apply in_map_iff in Hin.
    destruct Hin as (r & Hr & _).
    destruct (Z.eqb_spec (Row.id r) task_id) as [E|E].
    + subst r'. apply Hm.
    + subst r'. contradiction.
Qed.

Lemma move_task_sets_mirror_witness :
  int64 3 = true /\
  fst (move_task 3 "pending" (world_on day0 demo_store))
  = Ok (JSONResponse [("ok", true)]) /\
  forall r', In r' (rows (db (snd (move_task 3 "pending"
                                     (world_on day0 demo_store)))))  ->
             Row.id r' = 3 -> mirrored r'.
Proof.
  split; [reflexivity|].
  destruct (move_task_sets_mirror 3 "pending" (world_on day0 demo_store) eq_refl)
    as (Hok & _ & _ & Hm).
  split; [exact Hok|exact Hm].
Defined.

(** [move_task] keeps the mirror of a table for every integer: on one that
    does not fit it raises and leaves the table as it was. *)
Lemma move_task_keeps_mirror (task_id : Z) (payload_status : string) (w : World) :
  Forall mirrored (rows (db w)) ->
  Forall mirrored (rows (db (snd (move_task task_id payload_status w)))).
Proof.
  intros H. destruct (move_task_rows_cases task_id payload_status w) as [->| ->];
    [exact H|].
  apply Forall_map. eapply Forall_impl; [|exact H].
  intros r Hr. destruct (Row.id r =? task_id); [apply moved_mirrored|exact Hr].
Qed.

(** [delete_task] removes rows and writes none. *)
Lemma delete_task_keeps_mirror (task_id : Z) (w : World) :
  Forall mirrored (rows (db w)) ->
  Forall mirrored (rows (db (snd (delete_task task_id w)))).
Proof.
  intros H. destruct (delete_task_rows_cases task_id w) as [->| ->]; [exact H|].
  rewrite !Forall_forall in *.
  intros r Hr. apply filter_In in Hr. apply H, Hr.
Qed.

(** The ends of the range of an SQLite INTEGER, and the integers next to
    them. *)
Example task_id_range :
  fst (delete_task 9223372036854775807 (world_on day0 demo_store))
  = Ok (RedirectResponse "/" 303) /\
  fst (move_task (-9223372036854775808) "done" (world_on day0 demo_store))
  = Ok (JSONResponse [("ok", true)]) /\
  delete_task 9223372036854775808 (world_on day0 demo_store)
  = (Raise OverflowError, world_on day0 demo_store) /\
  move_task (-9223372036854775809) "done" (world_on day0 demo_store)
  = (Raise OverflowError, tick (world_on day0 demo_store)).
Proof. repeat split; reflexivity. Qed.

(** Scenario D: "done", then a status that is not recognized. *)
Example move_done_then_archived :
  let w1 := snd (move_task 2 "done" (world_on day0 demo_store)) in
  let w2 := snd (move_task 2 "archived" w1) in
  nth_error (rows (db w1)) 1
  = Some (Row.mk 2 "T" "2024-03-02" 1 "2024-03-01T08:00:00" 1
                 (Some "2024-03-01T12:00:00") "done") /\
  nth_error (rows (db w2)) 1
  = Some (Row.mk 2 "T" "2024-03-02" 1 "2024-03-01T08:00:00" 0 None "todo").
Proof. split; reflexivity. Qed.

(** C3, on [add_task]: created with the status "done", a row is stored
    with [done] 0 and [done_at] NULL, so it does not mirror its status;
    [move_task] to "done" on the same row sets both. *)
Theorem add_task_done_not_mirrored :
  let w1 := snd (add_task "T1" "2024-03-02" "mid" "done" (world_on day0 empty_store)) in
  rows (db w1)
  = [Row.mk 1 "T1" "2024-03-02" 2 "2024-03-01T12:00:00" 0 None "done"] /\
  Forall mirrored (rows (db (world_on day0 empty_store))) /\
  ~ Forall mirrored (rows (db w1)) /\
  rows (db (snd (move_task 1 "done" w1)))
  = [Row.mk 1 "T1" "2024-03-02" 2 "2024-03-01T12:00:00" 1
            (Some "2024-03-01T12:00:00") "done"].
Proof.
  cbv zeta. split; [reflexivity|]. split; [constructor|]. split; [|reflexivity].
  intros H. vm_compute in H. inversion H as [|? ? [[_ Hd] _] _]; subst.
  specialize (Hd eq_refl). discriminate.
Qed.

(** * Further facts: the table under sessions of requests *)

Lemma StronglySorted_snoc {A : Type} (R : A -> A -> Prop) (l : list A) (x : A) :
  StronglySorted R l -> Forall (fun a => R a x) l -> StronglySorted R (l ++ [x]).
Proof.
  induction 1 as [|a l Hs IH Ha]; intros Hx; cbn.
  - repeat constructor.
  - inversion Hx; subst. constructor; [now apply IH|].
    apply Forall_app. split; [exact Ha|]. now repeat constructor.
Qed.

Lemma StronglySorted_filter {A : Type} (R : A -> A -> Prop) (f : A -> bool)
    (l : list A) :
  StronglySorted R l -> StronglySorted R (filter f l).
Proof.
  induction 1 as [|a l Hs IH Ha]; cbn; [constructor|].
  destruct (f a); [|exact IH]. constructor; [exact IH|].
  rewrite Forall_forall in *. intros b Hb. apply Ha.
  apply filter_In in Hb. apply Hb.
Qed.

Lemma StronglySorted_map_keep {A : Type} (R : A -> A -> Prop) (g : A -> A)
    (l : list A) :
  (forall a b, R a b -> R (g a) (g b)) ->
  StronglySorted R l -> StronglySorted R (map g l).
Proof.
  intros Hg. induction 1 as [|a l Hs IH Ha]; cbn; constructor; [exact IH|].
  apply Forall_map. eapply Forall_impl; [|exact Ha]. intros b. apply Hg.
Qed.

Lemma priority_level_range k : 1 <= dict_get PRIORITY_MAP k 2 <= 3.
Proof.
  cbn. destruct (String.eqb k "low"); [lia|].
  destruct (String.eqb k "mid"); [lia|].
  destruct (String.eqb k "high"); lia.
Qed.

Lemma max_id_bound l m :
  0 <= m -> Forall (fun r => Row.id r <= m) l -> Sql.max_id l <= m.
Proof.
  intros Hm. unfold Sql.max_id. induction 1 as [|r l Hr _ IH]; cbn; lia.
Qed.

Lemma max_id_above l r : In r l -> Row.id r <= Sql.max_id l.
Proof.
  unfold Sql.max_id. induction l as [|a l IH]; cbn; [contradiction|].
  intros [->|H]; [lia|]. specialize (IH H). lia.
Qed.

(** One request keeps a well-formed table well formed. *)
Lemma handle_well_formed q w :
  well_formed (db w) -> well_formed (db (snd (handle q w))).
Proof.
  intros (Hrows & Hsorted & Hseq). destruct q as [t d p s|i|i s]; cbn [handle].
  - rewrite add_task_run. destruct (strptime_ymd d) eqn:E;
      [|repeat split; assumption].
    assert (Hmax : Sql.max_id (rows (db w)) <= seq (db w)).
    { apply max_id_bound; [exact Hseq|].
      eapply Forall_impl; [|exact Hrows]. cbn. intros r Hr. lia. }
    assert (Hnext : Sql.next_id (db w) = seq (db w) + 1)
      by (unfold Sql.next_id; lia).
    unfold well_formed. cbn [snd db]. unfold Sql.insert_task.
    cbn [rows seq]. rewrite Hnext. split; [|split; [|lia]].
    + apply Forall_app. split.
      * eapply Forall_impl; [|exact Hrows]. cbn. intros r (? & ? & ? & ?).
        repeat split; try assumption; lia.
      * constructor; [|constructor]. cbn. split; [apply (resolved_spec s)|].
        split; [apply priority_level_range|]. split; [|lia].
        unfold parses. cbn. congruence.
    + apply StronglySorted_snoc; [exact Hsorted|].
      eapply Forall_impl; [|exact Hrows]. cbn. intros r Hr. lia.
  - unfold well_formed. rewrite delete_task_seq.
    destruct (delete_task_rows_cases i w) as [->| ->];
      [repeat split; assumption|].
    split; [|split; [|exact Hseq]].
    + rewrite Forall_forall in *. intros r Hr. apply filter_In in Hr.
      apply Hrows, Hr.
    + now apply StronglySorted_filter.
  - unfold well_formed. rewrite move_task_seq.
    destruct (move_task_rows_cases i s w) as [->| ->];
      [repeat split; assumption|].
    split; [|split; [|exact Hseq]].
    + apply Forall_map. eapply Forall_impl; [|exact Hrows].
      intros r Hr0. cbv beta in Hr0 |- *. destruct Hr0 as (Hst & Hp & Hd & Hi).
      destruct (Row.id r =? i); [|tauto].
      destruct (moved_same_task (resolved s)
                  (isoformat_seconds (clock w (reads w))) r)
        as (Ei & _ & Ed & Ep & _).
      unfold parses in *. rewrite Ei, Ed, Ep.
      split; [|tauto].
      unfold moved. destruct (String.eqb (resolved s) "done") eqn:Es;
        cbn [Row.status].
      * cbn. auto.
      * apply (resolved_spec s).
    + apply StronglySorted_map_keep; [|exact Hsorted].
      intros a b Hab.
      assert (Hid : forall r, Row.id (if Row.id r =? i
                                      then moved (resolved s)
                                             (isoformat_seconds (clock w (reads w))) r
                                      else r) = Row.id r).
      { intros r. destruct (Row.id r =? i); [|reflexivity].
        apply moved_same_task. }
      rewrite !Hid. exact Hab.
Qed.

Lemma session_well_formed qs w :
  well_formed (db w) -> well_formed (db (session qs w)).
Proof.
  revert w. induction qs as [|q qs IH]; intros w H; cbn; [exact H|].
  apply IH. now apply handle_well_formed.
Qed.

Lemma session_app qs1 qs2 w :
  session (qs1 ++ qs2) w = session qs2 (session qs1 w).
Proof. revert w. induction qs1 as [|q qs1 IH]; intros w; cbn; [reflexivity|apply IH]. Qed.

Lemma same_task_trans a b c : same_task a b -> same_task b c -> same_task a c.
Proof. unfold same_task. intros (?&?&?&?&?) (?&?&?&?&?). repeat split; congruence. Qed.

(** One request neither lowers the counter nor brings a task with an old
    id that is not in the table. *)
Lemma handle_old_ids q w :
  well_formed (db w) ->
  seq (db w) <= seq (db (snd (handle q w))) /\
  forall r', In r' (rows (db (snd (handle q w)))) ->
             Row.id r' <= seq (db w) ->
             exists r, In r (rows (db w)) /\ same_task r' r.
Proof.
  intros (Hrows & Hsorted & Hseq). destruct q as [t d p s|i|i s]; cbn [handle].
  - rewrite add_task_run. destruct (strptime_ymd d) eqn:E.
    + assert (Hmax : Sql.max_id (rows (db w)) <= seq (db w)).
      { apply max_id_bound; [exact Hseq|].
        eapply Forall_impl; [|exact Hrows]. cbn. intros r Hr. lia. }
      cbn [snd db]. unfold Sql.insert_task, Sql.next_id. cbn [rows seq].
      split; [lia|].
      intros r' Hin Hid. apply in_app_or in Hin. destruct Hin as [Hin|[<-|[]]].
      * exists r'. split; [exact Hin|repeat split].
      * cbn [Row.id] in Hid. lia.
    + cbn [snd]. split; [lia|].
      intros r' Hin _. exists r'. split; [exact Hin|repeat split].
  - rewrite delete_task_seq. split; [lia|]. intros r' Hin _. exists r'.
    split; [|repeat split].
    destruct (delete_task_rows_cases i w) as [E|E]; rewrite E in Hin;
      [exact Hin|].
    apply filter_In in Hin. apply Hin.
  - rewrite move_task_seq. split; [lia|]. intros r' Hin _.
    destruct (move_task_rows_cases i s w) as [E|E]; rewrite E in Hin.
    + exists r'. split; [exact Hin|repeat split].
    + apply in_map_iff in Hin. destruct Hin as (r & <- & Hin).
      exists r. split; [exact Hin|].
      destruct (Row.id r =? i); [apply moved_same_task|repeat split].
Qed.

Lemma StronglySorted_lt_NoDup (l : list Row.t) :
  StronglySorted (fun a b => Row.id a < Row.id b) l -> NoDup (map Row.id l).
Proof.
  induction 1 as [|a l Hs IH Ha]; cbn; constructor; [|exact IH].
  intros Hin. apply in_map_iff in Hin. destruct Hin as (b & Hb & Hin).
  rewrite Forall_forall in Ha. specialize (Ha b Hin). lia.
Qed.

Lemma empty_store_well_formed : well_formed empty_store.
Proof. repeat split; try constructor. cbn. lia. Qed.

(** X2: whatever requests were served since the table was empty, every
    stored row holds one of the four statuses, a level from 1 to 3, a due
    date that [strptime] accepts and a positive id not above the counter;
    the rows stand in increasing order of id and no two share an id. *)
Theorem session_keeps_table_well_formed (qs : list request)
    (clk : nat -> datetime) (n : nat) :
  let s := db (session qs (mkWorld empty_store clk n)) in
  Forall (fun r => In (Row.status r) STATUSES /\
                   1 <= Row.priority r <= 3 /\
                   strptime_ymd (Row.due_date r) <> None /\
                   0 < Row.id r <= seq s) (rows s) /\
  StronglySorted (fun a b => Row.id a < Row.id b) (rows s) /\
  NoDup (map Row.id (rows s)).
Proof.
  intros s.
  destruct (session_well_formed qs (mkWorld empty_store clk n)
              empty_store_well_formed) as (Hrows & Hsorted & _).
  split; [exact Hrows|]. split; [exact Hsorted|].
  now apply StronglySorted_lt_NoDup.
Qed.

Lemma session_old_ids qs w :
  well_formed (db w) ->
  seq (db w) <= seq (db (session qs w)) /\
  forall r', In r' (rows (db (session qs w))) ->
             Row.id r' <= seq (db w) ->
             exists r, In r (rows (db w)) /\ same_task r' r.
Proof.
  revert w. induction qs as [|q qs IH]; intros w Hw; cbn [session].
  - split; [lia|]. intros r' Hin _. exists r'. split; [exact Hin|repeat split].
  - destruct (handle_old_ids q w Hw) as [Hq Hold].
    destruct (IH _ (handle_well_formed q w Hw)) as [Hq' Hold'].
    split; [lia|]. intros r' Hin Hid.
    destruct (Hold' r' Hin) as (r1 & Hin1 & Hs1); [lia|].
    destruct (Hold r1 Hin1) as (r0 & Hin0 & Hs0).
    { destruct Hs1 as [<- _]. exact Hid. }
    exists r0. split; [exact Hin0|]. eapply same_task_trans; eassumption.
Qed.

(** X3: an id is handed out once.  Between any two moments of a session
    that started on an empty table the counter does not go down, and a row
    found at the later moment with an id the counter had reached at the
    earlier one was in the table then, with the same title, due date,
    priority and creation time: a deleted task does not come back, a later
    task does not take its id, and those four columns are never rewritten. *)
Theorem ids_never_reused (qs1 qs2 : list request) (clk : nat -> datetime)
    (n : nat) :
  let w1 := session qs1 (mkWorld empty_store clk n) in
  let w2 := session (qs1 ++ qs2) (mkWorld empty_store clk n) in
  seq (db w1) <= seq (db w2) /\
  (forall r2, In r2 (rows (db w2)) ->
              Row.id r2 <= seq (db w1) ->
              exists r1, In r1 (rows (db w1)) /\ same_task r2 r1) /\
  (forall r2, In r2 (rows (db w2)) ->
              seq (db w1) < Row.id r2 ->
              forall r1, In r1 (rows (db w1)) -> Row.id r1 < Row.id r2).
Proof.
  intros w1 w2. unfold w2. rewrite session_app. fold w1.
  assert (Hw1 : well_formed (db w1))
    by (apply session_well_formed, empty_store_well_formed).
  destruct (session_old_ids qs2 w1 Hw1) as [Hq Hold].
  split; [exact Hq|]. split; [exact Hold|].
  intros r2 _ Hnew r1 Hin1. destruct Hw1 as (Hrows & _ & _).
  rewrite Forall_forall in Hrows. specialize (Hrows r1 Hin1). cbv beta in Hrows. lia.
Qed.

(** A deleted id stays free: the next insert takes a larger one. *)
Example id_not_reused_after_delete :
  let w1 := session [Add "a" "2024-03-02" "low" "todo";
                     Add "b" "2024-03-03" "low" "todo";
                     Delete 2;
                     Add "c" "2024-03-04" "low" "todo"]
                    (world_on day0 empty_store) in
  map Row.id (rows (db w1)) = [1; 3] /\ seq (db w1) = 3.
Proof. split; reflexivity. Qed.

(** * Further facts: the ranking *)

Lemma kd_ret {A : Type} (a : A) : keeps_db (ret a).
Proof. intros w. reflexivity. Qed.

Lemma kd_of_option {A : Type} (o : option A) : keeps_db (of_option o).
Proof. intros w. destruct o; reflexivity. Qed.

Lemma kd_bind {A B : Type} (m : M A) (k : A -> M B) :
  keeps_db m -> (forall a, keeps_db (k a)) -> keeps_db (x <- m ;; k x).
Proof.
  intros Hm Hk w. unfold bind. specialize (Hm w).
  destruct (m w) as [[a|e] w']; cbn in *; [|exact Hm].
  now rewrite Hk.
Qed.

Lemma kd_date_today : keeps_db date_today.
Proof. intros w. reflexivity. Qed.

Lemma kd_fetchall {A : Type} (query : Store -> A) : keeps_db (fetchall query).
Proof. intros w. reflexivity. Qed.

Lemma kd_for_each {A B : Type} (xs : list A) (step : B -> A -> M B) :
  (forall acc x, keeps_db (step acc x)) ->
  forall acc, keeps_db (for_each xs step acc).
Proof.
  intros Hstep. induction xs as [|x xs IH]; intros acc; cbn.
  - apply kd_ret.
  - apply kd_bind; [apply Hstep|exact IH].
Qed.

Lemma kd_score_task frm s p st c : keeps_db (score_task frm s p st c).
Proof. intros w. rewrite score_task_run. destruct (strptime_ymd s); reflexivity. Qed.

Lemma kd_sort_key x : keeps_db (sort_key x).
Proof.
  intros w. rewrite sort_key_run. destruct (strptime_ymd _); reflexivity.
Qed.

Lemma kd_fetch_today frm top : keeps_db (fetch_today frm top).
Proof.
  unfold fetch_today, sort_scored.
  apply kd_bind; [apply kd_fetchall|intros rows].
  apply kd_bind; [|intros scored].
  { apply kd_for_each. intros acc r.
    apply kd_bind; [apply kd_score_task|intros s; apply kd_ret]. }
  apply kd_bind; [|intros l; apply kd_ret].
  apply kd_bind; [|intros keyed; apply kd_ret].
  apply kd_for_each. intros acc x.
  apply kd_bind; [apply kd_sort_key|intros k; apply kd_ret].
Qed.

Lemma parses_Forall_dec (l : list Row.t) :
  Forall parses l \/ Exists (fun r => strptime_ymd (Row.due_date r) = None) l.
Proof.
  induction l as [|r l [IH|IH]].
  - left. constructor.
  - destruct (parses_dec r) as [Hr|Hr]; [left|right]; now constructor.
  - right. now constructor 2.
Qed.

Lemma In_firstn {A : Type} n (l : list A) x : In x (firstn n l) -> In x l.
Proof.
  intros H. rewrite <- (firstn_skipn n l). apply in_or_app. now left.
Qed.

Lemma In_slice_to {A : Type} top (l : list A) x : In x (slice_to top l) -> In x l.
Proof. unfold slice_to. destruct (0 <=? top); apply In_firstn. Qed.

Lemma select_open_not_done st r :
  In r (Sql.select_open st) -> Row.status r <> "done".
Proof.
  unfold Sql.select_open, Sql.order_by_id. intros H.
  apply in_map_iff in H. destruct H as ([k r'] & E & H). cbn in E. subst r'.
  eapply Permutation_in in H; [|apply sort_by_perm].
  apply in_map_iff in H. destruct H as (r' & E & H). injection E as _ ->.
  apply filter_In in H. destruct H as [_ H].
  apply negb_true_iff, String.eqb_neq in H. exact H.
Qed.

Lemma select_open_length st :
  List.length (Sql.select_open st)
  = List.length (filter (fun r => negb (String.eqb (Row.status r) "done")) (rows st)).
Proof.
  unfold Sql.select_open, Sql.order_by_id. rewrite length_map.
  rewrite (Permutation_length (sort_by_perm _ _)). now rewrite length_map.
Qed.

(** X4: [fetch_today] only reads: the table is the same after it, whether
    it returns or raises.  What it returns holds rows of the table whose
    status is not "done", each at most once per row of the table, and as
    many as [top] allows: min(top, n) of the n open rows for a [top] that
    is not negative, and n - |top| of them (none when that is negative) for
    a negative one. *)
Theorem fetch_today_reads_open_rows (frm : string -> option date) (top : Z)
    (w : World) :
  db (snd (fetch_today frm top w)) = db w /\
  forall l, fst (fetch_today frm top w) = Ok l ->
    (forall s r, In (s, r) l -> In r (rows (db w)) /\ Row.status r <> "done") /\
    (exists rest, Permutation (map snd l ++ rest) (Sql.select_open (db w))) /\
    let n := List.length
               (filter (fun r => negb (String.eqb (Row.status r) "done"))
                       (rows (db w))) in
    (0 <= top -> List.length l = Nat.min (Z.to_nat top) n) /\
    (top < 0 -> List.length l = (n - Z.to_nat (- top))%nat).
Proof.
  split; [apply kd_fetch_today|]. intros l Hl.
  destruct (parses_Forall_dec (Sql.select_open (db w))) as [Hp|Hex].
  2:{ apply (fetch_today_raises frm top) in Hex. congruence. }
  destruct (fetch_today_ok frm w Hp) as (keyed & Hrun & Hall).
  rewrite Hrun in Hl. injection Hl as <-.
  set (full := map snd (sort_by tuple_lt keyed)).
  assert (Hperm : Permutation (map snd full) (Sql.select_open (db w))).
  { unfold full.
    transitivity (map snd (map snd keyed)).
    - do 2 apply Permutation_map. apply sort_by_perm.
    - clear - Hall. induction Hall as [|r e rs es Hre _ IH]; cbn; [constructor|].
      destruct Hre as (_ & _ & _ & _ & Hr & _). rewrite Hr. now constructor. }
  assert (Hlen : List.length full = List.length (Sql.select_open (db w))).
  { rewrite <- (Permutation_length Hperm). now rewrite length_map. }
  split; [|split].
  - intros s r Hin. apply In_slice_to in Hin.
    assert (Hr : In r (Sql.select_open (db w))).
    { eapply Permutation_in; [exact Hperm|].
      apply in_map_iff. exists (s, r). split; [reflexivity|exact Hin]. }
    split; [now apply select_open_incl|now apply select_open_not_done with (db w)].
  - unfold slice_to.
    destruct (0 <=? top);
      match goal with |- context [firstn ?k full] =>
        exists (map snd (skipn k full));
        rewrite <- map_app, firstn_skipn; exact Hperm end.
  - cbv zeta. rewrite <- select_open_length, <- Hlen. split; intros Ht.
    + rewrite slice_to_nonneg by exact Ht. apply length_firstn.
    + rewrite slice_to_negative by exact Ht. rewrite length_firstn. lia.
Qed.

Lemma status_w_range st :
  (st <> "done" -> 2 <= status_w st <= 18) /\ (st = "done" -> status_w st = -9999).
Proof.
  split.
  - intros Hst. unfold status_w. cbn.
    destruct (String.eqb st "progress"); [cbn; lia|].
    destruct (String.eqb st "todo"); [cbn; lia|].
    destruct (String.eqb st "pending"); [cbn; lia|].
    destruct (String.eqb_spec st "done"); [contradiction|cbn; lia].
  - intros ->. reflexivity.
Qed.

Lemma due_w_range d : 0 <= due_w d <= 35.
Proof. unfold due_w. destruct (Z.ltb_spec d 0); lia. Qed.

(** X5: the score of a task of level 1 to 3 lies between 10 and 87 when its
    status is not "done" and between -9991 and -9930 when it is, so a done
    task, were it scored, would stand below every other. *)
Theorem score_task_bounds (frm : string -> option date) (w : World)
    (due_date_str : string) (priority : Z) (status created_at : string) (v : Z) :
  fst (score_task frm due_date_str priority status created_at w) = Ok v ->
  1 <= priority <= 3 ->
  (status <> "done" -> 10 <= v <= 87) /\
  (status = "done" -> -9991 <= v <= -9930).
Proof.
  intros Hv Hp. rewrite score_task_run in Hv.
  destruct (strptime_ymd due_date_str) as [due|]; [|discriminate].
  cbn [fst] in Hv. injection Hv as <-.
  pose proof (due_w_range (days_between due (today_of w))) as Hd.
  pose proof (age_on_bounds frm (today_of w) created_at) as Ha.
  destruct (status_w_range status) as [Hopen Hdone]. unfold pri_w.
  split; intros Hst.
  - specialize (Hopen Hst). lia.
  - specialize (Hdone Hst). lia.
Qed.

Lemma score_task_bounds_witness :
  fst (score_task fromisoformat_seconds_date "2024-02-27" 3 "progress"
         "2024-02-01T08:00:00" (world_on day0 empty_store)) = Ok 87 /\
  1 <= 3 <= 3 /\
  10 <= 87 <= 87.
Proof.
  assert (H1 : fst (score_task fromisoformat_seconds_date "2024-02-27" 3
                      "progress" "2024-02-01T08:00:00"
                      (world_on day0 empty_store)) = Ok 87) by reflexivity.
  assert (H2 : 1 <= 3 <= 3) by lia.
  split; [exact H1|]. split; [exact H2|].
  apply (score_task_bounds fromisoformat_seconds_date _ _ _ _ _ _ H1 H2).
  discriminate.
Defined.

(** * Further facts: how the writes compose *)

(** On a table of SQLite the UPDATE of an id that does not fit would
    have found no row: the table is the one the statement gives, whether
    [move_task] returns or raises. *)
Lemma move_task_db i s w :
  ids_int64 (db w) ->
  db (snd (move_task i s w))
  = mkStore (map (fun r => if Row.id r =? i
                           then moved (resolved s)
                                      (isoformat_seconds (clock w (reads w))) r
                           else r) (rows (db w)))
            (seq (db w)).
Proof.
  intros Hids. destruct (int64 i) eqn:Hi.
  - rewrite move_task_run, Hi. cbn [snd db]. unfold moved, resolved.
    destruct (String.eqb _ "done"); reflexivity.
  - rewrite move_task_overflow by exact Hi. cbn [snd tick db].
    rewrite map_id_in; [now destruct (db w)|].
    intros r Hr. now rewrite (ids_int64_none _ _ Hids Hi r Hr).
Qed.

Lemma delete_task_db i w :
  ids_int64 (db w) -> db (snd (delete_task i w)) = Sql.delete_by_id i (db w).
Proof.
  intros Hids. rewrite delete_task_run. destruct (int64 i) eqn:Hi; [reflexivity|].
  cbn [snd]. unfold Sql.delete_by_id. rewrite filter_id; [now destruct (db w)|].
  intros r Hr. now rewrite (ids_int64_none _ _ Hids Hi r Hr).
Qed.

Lemma ids_int64_move i s w :
  ids_int64 (db w) -> ids_int64 (db (snd (move_task i s w))).
Proof.
  intros Hids. rewrite move_task_db by exact Hids. unfold ids_int64 in *.
  cbn [rows]. apply Forall_map. eapply Forall_impl; [|exact Hids].
  intros r Hr. destruct (Row.id r =? i); [|exact Hr].
  now rewrite (proj1 (moved_same_task _ _ r)).
Qed.

Lemma ids_int64_delete i w :
  ids_int64 (db w) -> ids_int64 (db (snd (delete_task i w))).
Proof.
  intros Hids. rewrite delete_task_db by exact Hids. unfold ids_int64 in *.
  cbn [Sql.delete_by_id rows]. rewrite Forall_forall in *.
  intros r Hr. apply filter_In in Hr. apply Hids, Hr.
Qed.

Lemma move_task_world i s w :
  clock (snd (move_task i s w)) = clock w /\
  reads (snd (move_task i s w)) = S (reads w).
Proof. rewrite move_task_run. destruct (int64 i); split; reflexivity. Qed.

Lemma delete_task_world i w :
  clock (snd (delete_task i w)) = clock w /\
  reads (snd (delete_task i w)) = reads w.
Proof. rewrite delete_task_run. destruct (int64 i); split; reflexivity. Qed.

(** Closes the side condition that a table still holds ids of SQLite. *)
Ltac ids_int64_tac :=
  first [ assumption
        | apply ids_int64_move; ids_int64_tac
        | apply ids_int64_delete; ids_int64_tac ].

Lemma moved_id st now r : Row.id (moved st now r) = Row.id r.
Proof. apply moved_same_task. Qed.

Lemma moved_moved st2 now2 st1 now1 r :
  moved st2 now2 (moved st1 now1 r) = moved st2 now2 r.
Proof.
  unfold moved.
  destruct (String.eqb st2 "done"), (String.eqb st1 "done"); reflexivity.
Qed.

Lemma filter_map_keep {A : Type} (f : A -> bool) (g : A -> A) (l : list A) :
  (forall a, f (g a) = f a) -> filter f (map g l) = map g (filter f l).
Proof.
  intros H. induction l as [|a l IH]; cbn; [reflexivity|].
  rewrite H. destruct (f a); cbn; now rewrite IH.
Qed.

(** X6: on a table whose ids are those of SQLite, writes to one task
    compose as a last write does, whether the handlers return or raise.
    Two moves of a task leave the table as the second alone would at its
    instant;
    deleting a task after moving it, or moving it after deleting it,
    leaves the table as the delete alone does; a move of an id that no row
    has changes no row; a delete and a move of different ids, and two
    deletes, give the same table in either order. *)
Theorem writes_compose (i j : Z) (s1 s2 : string) (w : World) :
  ids_int64 (db w) ->
  db (snd (move_task i s2 (snd (move_task i s1 w))))
  = mkStore (map (fun r => if Row.id r =? i
                           then moved (resolved s2)
                                  (isoformat_seconds (clock w (S (reads w)))) r
                           else r) (rows (db w)))
            (seq (db w)) /\
  db (snd (delete_task i (snd (move_task i s1 w)))) = db (snd (delete_task i w)) /\
  db (snd (move_task i s1 (snd (delete_task i w)))) = db (snd (delete_task i w)) /\
  ((forall r, In r (rows (db w)) -> Row.id r <> i) ->
   db (snd (move_task i s1 w)) = db w) /\
  (i <> j ->
   db (snd (delete_task j (snd (move_task i s1 w))))
   = db (snd (move_task i s1 (snd (delete_task j w))))) /\
  db (snd (delete_task j (snd (delete_task i w))))
  = db (snd (delete_task i (snd (delete_task j w)))).
Proof.
  intros Hids. split; [|split; [|split; [|split; [|split]]]].
  - rewrite (move_task_db i s2) by ids_int64_tac.
    destruct (move_task_world i s1 w) as [-> ->].
    rewrite (move_task_db i s1) by ids_int64_tac. cbn [rows seq]. f_equal.
    rewrite map_map. apply map_ext. intros r.
    destruct (Row.id r =? i) eqn:E.
    + now rewrite moved_id, E, moved_moved.
    + now rewrite E.
  - rewrite !delete_task_db by ids_int64_tac.
    rewrite move_task_db by ids_int64_tac. unfold Sql.delete_by_id.
    cbn [rows seq]. f_equal.
    generalize (isoformat_seconds (clock w (reads w))). intros now.
    induction (rows (db w)) as [|r l IH]; cbn; [reflexivity|].
    destruct (Z.eqb_spec (Row.id r) i) as [E|E].
    + rewrite moved_id. destruct (Z.eqb_spec (Row.id r) i); [|contradiction].
      cbn. exact IH.
    + destruct (Z.eqb_spec (Row.id r) i); [contradiction|]. cbn. now rewrite IH.
  - rewrite move_task_db by ids_int64_tac.
    rewrite !delete_task_db by ids_int64_tac. unfold Sql.delete_by_id.
    cbn [rows seq]. f_equal.
    rewrite <- (map_id (filter _ _)) at 2. apply map_ext_in.
    intros r Hr. apply filter_In in Hr. destruct Hr as [_ Hr].
    apply negb_true_iff in Hr. now rewrite Hr.
  - intros Hno. rewrite move_task_db by ids_int64_tac.
    destruct w as [[rs sq] clk n]. cbn in *.
    f_equal. rewrite <- (map_id rs) at 2. apply map_ext_in.
    intros r Hr. destruct (Z.eqb_spec (Row.id r) i) as [E|E]; [|reflexivity].
    now elim (Hno r Hr).
  - intros Hij.
    repeat first [ rewrite delete_task_db by ids_int64_tac
                 | rewrite move_task_db by ids_int64_tac ].
    destruct (delete_task_world j w) as [-> ->].
    unfold Sql.delete_by_id. cbn [rows seq]. f_equal.
    apply filter_map_keep. intros r.
    destruct (Row.id r =? i); [now rewrite moved_id|reflexivity].
  - rewrite !delete_task_db by ids_int64_tac.
    unfold Sql.delete_by_id. cbn [rows seq].
    f_equal. induction (rows (db w)) as [|r l IH]; cbn; [reflexivity|].
    destruct (negb (Row.id r =? i)) eqn:Ei, (negb (Row.id r =? j)) eqn:Ej;
      cbn; rewrite ?Ei, ?Ej; now rewrite IH.
Qed.

Lemma demo_store_ids_int64 : ids_int64 demo_store.
Proof. repeat constructor. Qed.

Lemma writes_compose_witness :
  ids_int64 (db (world_on day0 demo_store)) /\
  db (snd (delete_task 2 (snd (move_task 2 "done" (world_on day0 demo_store)))))
  = db (snd (delete_task 2 (world_on day0 demo_store))) /\
  db (snd (move_task 9223372036854775808 "done"
             (snd (delete_task 9223372036854775808 (world_on day0 demo_store)))))
  = db (snd (delete_task 9223372036854775808 (world_on day0 demo_store))).
Proof.
  split; [exact demo_store_ids_int64|]. split.
  - destruct (writes_compose 2 2 "done" "done" (world_on day0 demo_store)
                demo_store_ids_int64) as (_ & H & _).
    exact H.
  - destruct (writes_compose 9223372036854775808 2 "done" "done"
                (world_on day0 demo_store) demo_store_ids_int64)
      as (_ & _ & H & _).
    exact H.
Defined.

(** * Further facts: a task from its insert to the views *)

Lemma add_task_db title due_date priority status w d :
  strptime_ymd due_date = Some d ->
  snd (add_task title due_date priority status w)
  = mkWorld
      (mkStore
         (rows (db w)
          ++ [Row.mk (Sql.next_id (db w)) title due_date
                     (dict_get PRIORITY_MAP (lower priority) 2)
                     (isoformat_seconds (clock w (reads w))) 0 None
                     (resolved status)])
         (Sql.next_id (db w)))
      (clock w) (S (reads w)).
Proof. intros E. rewrite add_task_run, E. reflexivity. Qed.

(** X7: an insert can be undone but its id cannot be had again.  After
    [add_task] on a date that parses, [delete_task] on the id it used, an
    SQLite INTEGER, gives back the rows that were there, while the counter
    stays on that id, so the next insert takes the one after it. *)
Theorem add_then_delete_restores_rows
    (title due_date priority status : string) (w : World) :
  strptime_ymd due_date <> None ->
  int64 (Sql.next_id (db w)) = true ->
  let i := Sql.next_id (db w) in
  let w' := snd (delete_task i (snd (add_task title due_date priority status w))) in
  rows (db w') = rows (db w) /\
  seq (db w') = i /\
  seq (db w) < i /\
  (forall r, In r (rows (db w)) -> Row.id r < i) /\
  Sql.next_id (db w') = i + 1.
Proof.
  intros Hd Hi i w'.
  destruct (strptime_ymd due_date) as [d|] eqn:E; [|now elim Hd].
  assert (Hlt : forall r, In r (rows (db w)) -> Row.id r < i).
  { intros r Hr. apply max_id_above in Hr. unfold i, Sql.next_id. lia. }
  assert (Hrun : forall u,
             delete_task i u
             = (Ok (RedirectResponse "/" 303),
                mkWorld (Sql.delete_by_id i (db u)) (clock u) (reads u))).
  { intros u. rewrite delete_task_run. unfold i. now rewrite Hi. }
  assert (Hrows : rows (db w') = rows (db w)).
  { unfold w'. rewrite Hrun, (add_task_db _ _ _ _ _ _ E).
    cbn [snd db rows]. unfold Sql.delete_by_id. cbn [rows].
    rewrite filter_app. cbn [filter Row.id]. fold i. rewrite Z.eqb_refl.
    cbn [negb]. rewrite app_nil_r. apply filter_id.
    intros r Hr. apply negb_true_iff, Z.eqb_neq. specialize (Hlt r Hr). lia. }
  assert (Hseq : seq (db w') = i).
  { unfold w'. rewrite Hrun, (add_task_db _ _ _ _ _ _ E). reflexivity. }
  split; [exact Hrows|]. split; [exact Hseq|].
  split; [unfold i, Sql.next_id; lia|]. split; [exact Hlt|].
  unfold Sql.next_id at 1. rewrite Hrows, Hseq.
  assert (Sql.max_id (rows (db w)) < i) by (unfold i, Sql.next_id; lia).
  lia.
Qed.

Lemma add_then_delete_restores_rows_witness :
  strptime_ymd "2024-03-09" <> None /\
  int64 (Sql.next_id (db (world_on day0 demo_store))) = true /\
  rows (db (snd (delete_task 6
                   (snd (add_task "T" "2024-03-09" "low" "todo"
                           (world_on day0 demo_store))))))
  = rows demo_store.
Proof.
  assert (Hd : strptime_ymd "2024-03-09" <> None) by discriminate.
  split; [exact Hd|]. split; [reflexivity|].
  apply (add_then_delete_restores_rows "T" "2024-03-09" "low" "todo"
           (world_on day0 demo_store) Hd eq_refl).
Defined.

Lemma select_open_snoc st r :
  Row.status r <> "done" ->
  forall s', rows s' = rows st ++ [r] ->
  List.length (Sql.select_open s') = S (List.length (Sql.select_open st)).
Proof.
  intros Hr s' Hs'. rewrite !select_open_length, Hs', filter_app, length_app.
  cbn [filter]. apply String.eqb_neq in Hr. rewrite Hr. cbn. lia.
Qed.

(** X8: a task is in the ranking as soon as it is added.  On a clock that
    stays on one day, after [add_task] with a due date that parses and a
    status that does not resolve to "done", [fetch_today] with room for
    every open row returns one entry more than there were open rows, and
    among them the new row with the score
    status weight + due weight + 8 * level + 0: its age weight is 0 when
    [fromisoformat] reads the stamp back as the day of the insert. *)
Theorem add_task_then_ranked (frm : string -> option date) (today : date)
    (title due_date priority status : string) (w : World) (d : date) :
  steady today w ->
  Forall parses (Sql.select_open (db w)) ->
  strptime_ymd due_date = Some d ->
  resolved status <> "done" ->
  frm (isoformat_seconds (clock w (reads w))) = Some today ->
  let w' := snd (add_task title due_date priority status w) in
  let p := dict_get PRIORITY_MAP (lower priority) 2 in
  let r := Row.mk (Sql.next_id (db w)) title due_date p
                  (isoformat_seconds (clock w (reads w))) 0 None
                  (resolved status) in
  let n := List.length (Sql.select_open (db w)) in
  exists full,
    fst (fetch_today frm (Z.of_nat (S n)) w') = Ok full /\
    List.length full = S n /\
    In (status_w (resolved status) + due_w (days_between d today) + pri_w p + 0, r)
       full.
Proof.
  intros Hs Hp Hd Hst Hfrm w' p r n.
  assert (Hw' : w' = mkWorld (mkStore (rows (db w) ++ [r]) (Sql.next_id (db w)))
                             (clock w) (S (reads w)))
    by (unfold w'; rewrite (add_task_db _ _ _ _ _ d Hd); reflexivity).
  assert (Hs' : steady today w') by (rewrite Hw'; exact Hs).
  assert (Hrows' : rows (db w') = rows (db w) ++ [r]) by now rewrite Hw'.
  assert (Hr : In r (Sql.select_open (db w'))).
  { apply select_open_In; [|exact Hst].
    rewrite Hrows'. apply in_or_app. right. now left. }
  assert (Hp' : Forall parses (Sql.select_open (db w'))).
  { rewrite Forall_forall in *. intros x Hx.
    pose proof (select_open_incl _ _ Hx) as Hin.
    pose proof (select_open_not_done _ _ Hx) as Hnd.
    rewrite Hrows' in Hin. apply in_app_or in Hin.
    destruct Hin as [Hin|[<-|[]]].
    - apply Hp. now apply select_open_In.
    - unfold parses, r. cbn. congruence. }
  destruct (fetch_today_sorted frm today w' Hs' Hp')
    as (full & Hrun & Hperm & Hsc & _).
  assert (Hlen : List.length full = S n).
  { rewrite <- (length_map snd), (Permutation_length Hperm).
    apply select_open_snoc with (r := r); assumption. }
  exists full. split; [|split; [exact Hlen|]].
  - rewrite Hrun, slice_to_nonneg by lia.
    rewrite firstn_all2; [reflexivity|lia].
  - apply Permutation_sym in Hperm.
    pose proof (Permutation_in _ Hperm Hr) as Hin.
    apply in_map_iff in Hin. destruct Hin as ([v r0] & E & Hin).
    cbn in E. subst r0.
    rewrite Forall_forall in Hsc. specialize (Hsc _ Hin). cbn [fst snd] in Hsc.
    unfold score_row in Hsc. rewrite score_task_run in Hsc.
    rewrite (steady_today_of today w' Hs') in Hsc.
    cbn [Row.due_date Row.priority Row.status Row.created_at r] in Hsc.
    rewrite Hd in Hsc. cbn [fst] in Hsc.
    assert (Hage : age_on frm today (isoformat_seconds (clock w (reads w))) = 0)
      by (unfold age_on; rewrite Hfrm, days_between_self; reflexivity).
    rewrite Hage in Hsc. injection Hsc as <-. exact Hin.
Qed.

Lemma add_task_then_ranked_witness :
  steady day0 (world_on day0 demo_store) /\
  Forall parses (Sql.select_open (db (world_on day0 demo_store))) /\
  strptime_ymd "2024-03-02" = Some (mkDate 2024 3 2) /\
  resolved "todo" <> "done" /\
  fromisoformat_seconds_date
    (isoformat_seconds (clock (world_on day0 demo_store)
                              (reads (world_on day0 demo_store))))
  = Some day0 /\
  exists full,
    fst (fetch_today fromisoformat_seconds_date 5
           (snd (add_task "T1" "2024-03-02" "high" "todo"
                   (world_on day0 demo_store)))) = Ok full /\
    List.length full = 5%nat.
Proof.
  assert (H1 : steady day0 (world_on day0 demo_store)) by apply steady_world_on.
  assert (H2 : Forall parses (Sql.select_open (db (world_on day0 demo_store))))
    by (apply all_parse_Forall; reflexivity).
  assert (H3 : strptime_ymd "2024-03-02" = Some (mkDate 2024 3 2)) by reflexivity.
  assert (H4 : resolved "todo" <> "done") by discriminate.
  assert (H5 : fromisoformat_seconds_date
                 (isoformat_seconds (clock (world_on day0 demo_store)
                                           (reads (world_on day0 demo_store))))
               = Some day0) by reflexivity.
  repeat (split; [assumption|]).
  destruct (add_task_then_ranked fromisoformat_seconds_date day0 "T1"
              "2024-03-02" "high" "todo" (world_on day0 demo_store)
              (mkDate 2024 3 2) H1 H2 H3 H4 H5)
    as (full & Hrun & Hlen & _).
  exists full. split; [exact Hrun|exact Hlen].
Defined.

(** * Further facts: the board *)

Lemma ascii_compare_lt_trans x y z :
  Ascii.compare x y = Lt -> Ascii.compare y z = Lt -> Ascii.compare x z = Lt.
Proof.
  unfold Ascii.compare. rewrite !N.compare_lt_iff. apply N.lt_trans.
Qed.

Lemma string_compare_lt_trans a :
  forall b c, String.compare a b = Lt -> String.compare b c = Lt ->
              String.compare a c = Lt.
Proof.
  induction a as [|x a IH]; intros [|y b] [|z c]; cbn; try discriminate; auto.
  destruct (Ascii.compare x y) eqn:E1; try discriminate.
  - apply Ascii.compare_eq_iff in E1. subst y.
    destruct (Ascii.compare x z); auto. apply IH.
  - intros _. destruct (Ascii.compare y z) eqn:E2; try discriminate.
    + apply Ascii.compare_eq_iff in E2. subst z. now rewrite E1.
    + intros _. now rewrite (ascii_compare_lt_trans x y z E1 E2).
Qed.

Lemma string_ltb_lt a b : String.ltb a b = true <-> String.compare a b = Lt.
Proof. unfold String.ltb. destruct (String.compare a b); split; congruence. Qed.

Lemma string_ltb_trans a b c :
  String.ltb a b = true -> String.ltb b c = true -> String.ltb a c = true.
Proof. rewrite !string_ltb_lt. apply string_compare_lt_trans. Qed.

Lemma string_ltb_asym a b : String.ltb a b = true -> String.ltb b a = false.
Proof.
  unfold String.ltb. rewrite (String.compare_antisym b a).
  destruct (String.compare a b); cbn; congruence.
Qed.

Lemma string_ltb_total a b :
  a <> b -> String.ltb a b = false -> String.ltb b a = true.
Proof.
  unfold String.ltb. intros Hne. rewrite (String.compare_antisym b a).
  destruct (String.compare a b) eqn:E; cbn; try congruence.
  apply String.compare_eq_iff in E. congruence.
Qed.

Lemma string_ltb_irrefl a : String.ltb a a = false.
Proof.
  destruct (String.ltb a a) eqn:E; [|reflexivity].
  now rewrite (string_ltb_asym a a E) in E.
Qed.

Lemma board_le_iff a b :
  board_lt b a = false <->
  (let '(d1, p1, i1) := a in
   let '(d2, p2, i2) := b in
   String.ltb d1 d2 = true \/
   (d1 = d2 /\ (p1 > p2 \/ (p1 = p2 /\ i1 <= i2)))).
Proof.
  destruct a as [[d1 p1] i1], b as [[d2 p2] i2]. unfold board_lt.
  destruct (String.eqb_spec d2 d1) as [E|E]; cbn [negb].
  - subst d2. rewrite string_ltb_irrefl.
    destruct (Z.eqb_spec p2 p1); cbn [negb];
      rewrite ?Z.ltb_ge, ?Z.ltb_nlt; split; intros H;
      try (right; split; [reflexivity|lia]);
      destruct H as [H|[_ H]]; try discriminate; lia.
  - split.
    + intros H. left. apply string_ltb_total; congruence.
    + intros [H|[H _]]; [now apply string_ltb_asym|congruence].
Qed.

Lemma board_lt_asym a b : board_lt a b = true -> board_lt b a = false.
Proof.
  intros H. destruct (board_lt b a) eqn:E; [|reflexivity]. exfalso.
  destruct a as [[d1 p1] i1], b as [[d2 p2] i2]. unfold board_lt in *.
  destruct (String.eqb_spec d1 d2) as [Ed|Ed].
  - subst d2. rewrite String.eqb_refl in E. cbn [negb] in *.
    destruct (Z.eqb_spec p1 p2) as [Ep|Ep].
    + subst p2. rewrite Z.eqb_refl in E. cbn [negb] in *. lia.
    + destruct (Z.eqb_spec p2 p1); [congruence|]. cbn [negb] in *. lia.
  - destruct (String.eqb_spec d2 d1); [congruence|]. cbn [negb] in *.
    rewrite (string_ltb_asym _ _ H) in E. discriminate.
Qed.

Lemma board_le_trans a b c :
  board_lt b a = false -> board_lt c b = false -> board_lt c a = false.
Proof.
  rewrite !board_le_iff.
  destruct a as [[d1 p1] i1], b as [[d2 p2] i2], c as [[d3 p3] i3].
  intros [H1|[-> H1]] [H2|[-> H2]].
  - left. eapply string_ltb_trans; eassumption.
  - left. exact H1.
  - left. exact H2.
  - right. split; [reflexivity|lia].
Qed.

Lemma select_by_status_perm status st :
  Permutation (select_by_status status st)
              (filter (fun r => String.eqb (Row.status r) status) (rows st)).
Proof.
  unfold select_by_status. rewrite (sort_by_perm board_lt).
  rewrite map_map. cbn. now rewrite map_id.
Qed.

Lemma select_by_status_In status st r :
  In r (select_by_status status st) <-> In r (rows st) /\ Row.status r = status.
Proof.
  split.
  - intros Hin. apply (Permutation_in _ (select_by_status_perm status st)) in Hin.
    apply filter_In in Hin. destruct Hin as [Hin E].
    apply String.eqb_eq in E. now split.
  - intros [Hin E].
    apply (Permutation_in _ (Permutation_sym (select_by_status_perm status st))).
    apply filter_In. split; [exact Hin|]. now apply String.eqb_eq.
Qed.

Lemma select_by_status_sorted status st :
  StronglySorted board_order (select_by_status status st).
Proof.
  unfold select_by_status.
  apply StronglySorted_map_impl
    with (R := key_le board_lt)
         (P := fun e => fst e = (Row.due_date (snd e), Row.priority (snd e),
                                 Row.id (snd e))).
  - intros a b Ha Hb Hle. unfold key_le in Hle.
    rewrite board_le_iff, Ha, Hb in Hle. exact Hle.
  - eapply Permutation_Forall; [symmetry; apply sort_by_perm|].
    apply Forall_map. apply Forall_forall. reflexivity.
  - apply sort_by_sorted; [apply board_lt_asym|].
    intros a b c. apply board_le_trans.
Qed.

(** X9: [fetch_tasks_by_status] raises nothing and writes nothing; it
    returns each row of the table whose status is the given string, as
    often as the table holds it and no other row, ordered by the text of
    the due date, then by priority from high to low, then by id. *)
Theorem fetch_tasks_by_status_column (status : string) (w : World) :
  exists l,
    fetch_tasks_by_status status w = (Ok l, w) /\
    Permutation l (filter (fun r => String.eqb (Row.status r) status)
                          (rows (db w))) /\
    (forall r, In r l <-> In r (rows (db w)) /\ Row.status r = status) /\
    StronglySorted board_order l.
Proof.
  exists (select_by_status status (db w)). split; [reflexivity|].
  split; [apply select_by_status_perm|].
  split; [intros r; apply select_by_status_In|apply select_by_status_sorted].
Qed.

(** * Further facts: zero-padded dates *)

Lemma digit_cases n :
  n mod 10 = 0 \/ n mod 10 = 1 \/ n mod 10 = 2 \/ n mod 10 = 3 \/ n mod 10 = 4 \/
  n mod 10 = 5 \/ n mod 10 = 6 \/ n mod 10 = 7 \/ n mod 10 = 8 \/ n mod 10 = 9.
Proof. pose proof (Z.mod_pos_bound n 10). lia. Qed.

Lemma digit_char_compare a b :
  Ascii.compare (digit_char a) (digit_char b) = (a mod 10 ?= b mod 10).
Proof.
  unfold digit_char.
  destruct (digit_cases a) as [H|[H|[H|[H|[H|[H|[H|[H|[H|H]]]]]]]]]; rewrite H;
  destruct (digit_cases b) as [G|[G|[G|[G|[G|[G|[G|[G|[G|G]]]]]]]]]; rewrite G;
  reflexivity.
Qed.

Lemma digit_char_digit n : is_digit (digit_char n) = true /\ digit_val (digit_char n) = n mod 10.
Proof.
  unfold digit_char.
  destruct (digit_cases n) as [H|[H|[H|[H|[H|[H|[H|[H|[H|H]]]]]]]]]; rewrite H;
    split; reflexivity.
Qed.

Lemma digits4 y :
  0 <= y < 10000 ->
  y = 1000 * ((y / 1000) mod 10) + 100 * ((y / 100) mod 10)
      + 10 * ((y / 10) mod 10) + y mod 10.
Proof. intros H. Z.to_euclidean_division_equations. lia. Qed.

Lemma digits2 n :
  0 <= n < 100 -> n = 10 * ((n / 10) mod 10) + n mod 10.
Proof. intros H. Z.to_euclidean_division_equations. lia. Qed.

Lemma isoformat_date_lt y1 m1 d1 y2 m2 d2 :
  0 <= y1 < 10000 -> 0 <= m1 < 100 -> 0 <= d1 < 100 ->
  0 <= y2 < 10000 -> 0 <= m2 < 100 -> 0 <= d2 < 100 ->
  String.ltb (isoformat_date (mkDate y1 m1 d1)) (isoformat_date (mkDate y2 m2 d2))
  = true ->
  y1 < y2 \/ (y1 = y2 /\ (m1 < m2 \/ (m1 = m2 /\ d1 < d2))).
Proof.
  intros Hy1 Hm1 Hd1 Hy2 Hm2 Hd2.
  pose proof (digits4 y1 Hy1) as Ey1. pose proof (digits4 y2 Hy2) as Ey2.
  pose proof (digits2 m1 Hm1) as Em1. pose proof (digits2 m2 Hm2) as Em2.
  pose proof (digits2 d1 Hd1) as Ed1. pose proof (digits2 d2 Hd2) as Ed2.
  rewrite string_ltb_lt. unfold isoformat_date, pad4, pad2.
  cbn [year month day append String.compare].
  rewrite !digit_char_compare.
  change (Ascii.compare "-" "-") with Eq. cbv iota. intros Hlt.
  repeat match goal with
         | H : context [?x mod 10] |- _ =>
             let v := fresh "v" in
             pose proof (Z.mod_pos_bound x 10 eq_refl);
             set (v := x mod 10) in *; clearbody v
         end.
  repeat match type of Hlt with
         | context [?a ?= ?b] => destruct (Z.compare_spec a b); cbv iota in Hlt
         end;
    try discriminate Hlt; lia.
Qed.

Lemma valid_ymd_bounds y m d :
  valid_ymd y m d = true ->
  1 <= y <= 9999 /\ 1 <= m <= 12 /\ 1 <= d <= _days_in_month y m.
Proof.
  unfold valid_ymd. rewrite !andb_true_iff, !Z.leb_le. tauto.
Qed.

Lemma month_cases m :
  1 <= m <= 12 ->
  m = 1 \/ m = 2 \/ m = 3 \/ m = 4 \/ m = 5 \/ m = 6 \/
  m = 7 \/ m = 8 \/ m = 9 \/ m = 10 \/ m = 11 \/ m = 12.
Proof. lia. Qed.

(** Evaluates the closed table look-ups of the goal and of [H]. *)
Ltac eval_tables H :=
  repeat match goal with
         | |- context [if ?c then ?a else ?b] =>
             let v := eval vm_compute in (if c then a else b) in
             progress change (if c then a else b) with v
         | |- context [nth ?n ?l ?d] =>
             let v := eval vm_compute in (nth n l d) in
             progress change (nth n l d) with v
         end;
  repeat match type of H with
         | context [if ?c then ?a else ?b] =>
             let v := eval vm_compute in (if c then a else b) in
             progress change (if c then a else b) with v in H
         | context [nth ?n ?l ?d] =>
             let v := eval vm_compute in (nth n l d) in
             progress change (nth n l d) with v in H
         end.

Lemma days_in_month_le_31 y m : 1 <= m <= 12 -> _days_in_month y m <= 31.
Proof.
  intros Hm. unfold _days_in_month.
  destruct (month_cases m Hm) as [H|[H|[H|[H|[H|[H|[H|[H|[H|[H|[H|H]]]]]]]]]]];
    subst m; destruct (_is_leap y); eval_tables Hm; lia.
Qed.

Lemma mod_100_4 y : y mod 100 = 0 -> y mod 4 = 0.
Proof.
  intros H. rewrite (Z.div_mod y 100) by lia. rewrite H.
  replace (100 * (y / 100) + 0) with (25 * (y / 100) * 4) by lia.
  apply Z.mod_mul. lia.
Qed.

Lemma mod_400_100 y : y mod 400 = 0 -> y mod 100 = 0.
Proof.
  intros H. rewrite (Z.div_mod y 400) by lia. rewrite H.
  replace (400 * (y / 400) + 0) with (4 * (y / 400) * 100) by lia.
  apply Z.mod_mul. lia.
Qed.

Lemma days_before_year_step y :
  _days_before_year (y + 1)
  = _days_before_year y + 365 + (if _is_leap y then 1 else 0).
Proof.
  unfold _days_before_year, _is_leap. cbv zeta.
  replace (y + 1 - 1) with y by lia.
  pose proof (mod_100_4 y) as H100. pose proof (mod_400_100 y) as H400.
  destruct (Z.eqb_spec (y mod 4) 0), (Z.eqb_spec (y mod 100) 0),
           (Z.eqb_spec (y mod 400) 0); cbn [andb orb negb];
    try (exfalso; lia);
    Z.to_euclidean_division_equations; lia.
Qed.

Lemma days_before_year_mono y1 y2 :
  y1 <= y2 -> _days_before_year y1 <= _days_before_year y2.
Proof.
  intros H. replace y2 with (y1 + (y2 - y1)) by lia.
  assert (Hk : 0 <= y2 - y1) by lia. revert Hk.
  generalize (y2 - y1). clear H y2. intros k Hk. pattern k.
  apply natlike_ind; [rewrite Z.add_0_r; lia| |exact Hk].
  intros x Hx IH. replace (y1 + Z.succ x) with (y1 + x + 1) by lia.
  rewrite days_before_year_step. destruct (_is_leap (y1 + x)); lia.
Qed.

(** The day of the year, between 1 and the length of the year. *)
Lemma day_of_year_bounds y m d :
  1 <= m <= 12 -> 1 <= d <= _days_in_month y m ->
  1 <= _days_before_month y m + d <= 365 + (if _is_leap y then 1 else 0).
Proof.
  intros Hm Hd. unfold _days_in_month, _days_before_month in *.
  destruct (month_cases m Hm) as [H|[H|[H|[H|[H|[H|[H|[H|[H|[H|[H|H]]]]]]]]]]];
    subst m; destruct (_is_leap y); eval_tables Hd; lia.
Qed.

Lemma day_of_year_mono y m1 d1 m2 d2 :
  1 <= m1 -> m1 < m2 -> m2 <= 12 ->
  d1 <= _days_in_month y m1 -> 1 <= d2 ->
  _days_before_month y m1 + d1 < _days_before_month y m2 + d2.
Proof.
  intros H1 H12 H2 Hd1 Hd2. unfold _days_in_month, _days_before_month in *.
  destruct (month_cases m1 ltac:(lia))
    as [H|[H|[H|[H|[H|[H|[H|[H|[H|[H|[H|H]]]]]]]]]]]; subst m1;
  destruct (month_cases m2 ltac:(lia))
    as [H|[H|[H|[H|[H|[H|[H|[H|[H|[H|[H|H]]]]]]]]]]]; subst m2;
  try lia; destruct (_is_leap y); eval_tables Hd1; lia.
Qed.

(** [toordinal] grows with the date. *)
Lemma toordinal_lt y1 m1 d1 y2 m2 d2 :
  valid_ymd y1 m1 d1 = true -> valid_ymd y2 m2 d2 = true ->
  y1 < y2 \/ (y1 = y2 /\ (m1 < m2 \/ (m1 = m2 /\ d1 < d2))) ->
  toordinal (mkDate y1 m1 d1) < toordinal (mkDate y2 m2 d2).
Proof.
  intros V1 V2 Hlt.
  apply valid_ymd_bounds in V1, V2.
  destruct V1 as (Hy1 & Hm1 & Hd1), V2 as (Hy2 & Hm2 & Hd2).
  unfold toordinal. cbn [year month day].
  pose proof (day_of_year_bounds y1 m1 d1 Hm1 Hd1) as B1.
  pose proof (day_of_year_bounds y2 m2 d2 Hm2 Hd2) as B2.
  destruct Hlt as [Hy|[<- [Hm|[<- Hd]]]].
  - pose proof (days_before_year_step y1) as Hs.
    pose proof (days_before_year_mono (y1 + 1) y2 ltac:(lia)) as Hmono.
    lia.
  - pose proof (day_of_year_mono y1 m1 d1 m2 d2). lia.
  - lia.
Qed.

Lemma match_digit_digit_char n s :
  match_digit (String (digit_char n) s) = Some (n mod 10, s).
Proof.
  unfold digit_char.
  destruct (digit_cases n) as [H|[H|[H|[H|[H|[H|[H|[H|[H|H]]]]]]]]]; rewrite H;
    reflexivity.
Qed.

Lemma match_Y_pad4 y s :
  0 <= y < 10000 -> match_Y (pad4 y ++ s) = Some (y, s).
Proof.
  intros Hy. unfold pad4, pad2. cbn [append]. unfold match_Y.
  rewrite !match_digit_digit_char. now rewrite <- digits4.
Qed.

Lemma day_cases d :
  1 <= d <= 31 ->
  In d [1; 2; 3; 4; 5; 6; 7; 8; 9; 10; 11; 12; 13; 14; 15; 16; 17; 18; 19; 20;
        21; 22; 23; 24; 25; 26; 27; 28; 29; 30; 31].
Proof.
  intros H. replace d with (Z.of_nat (Z.to_nat (d - 1)) + 1) by lia.
  assert (Hn : (Z.to_nat (d - 1) < 31)%nat) by lia.
  revert Hn. generalize (Z.to_nat (d - 1)). intros n Hn.
  do 31 (destruct n as [|n]; [cbn; tauto|]). lia.
Qed.

(** [strptime] reads a zero-padded date back. *)
Lemma strptime_isoformat_date d :
  valid_ymd (year d) (month d) (day d) = true ->
  strptime_ymd (isoformat_date d) = Some d.
Proof.
  destruct d as [y m dd]. cbn [year month day]. intros V.
  pose proof (valid_ymd_bounds _ _ _ V) as (Hy & Hm & Hd).
  pose proof (days_in_month_le_31 y m Hm) as H31.
  unfold strptime_ymd, regex_match, isoformat_date. cbn [year month day].
  rewrite match_Y_pad4 by lia.
  assert (Htail :
    match match_dash ("-" ++ pad2 m ++ "-" ++ pad2 dd) with
    | Some s2 =>
        match_m (fun m0 s3 =>
                   match match_dash s3 with
                   | Some s4 =>
                       match match_d s4 with
                       | Some (d0, rest) => Some (y, m0, d0, rest)
                       | None => None
                       end
                   | None => None
                   end) s2
    | None => None
    end = Some (y, m, dd, EmptyString)).
  { destruct (month_cases m Hm)
      as [H|[H|[H|[H|[H|[H|[H|[H|[H|[H|[H|H]]]]]]]]]]]; subst m;
    pose proof (day_cases dd ltac:(lia)) as Hc; cbn [In] in Hc;
    repeat (destruct Hc as [<-|Hc]; [vm_compute; reflexivity|]);
    contradiction. }
  rewrite Htail, V. reflexivity.
Qed.

Lemma zero_padded_order a b :
  zero_padded a -> zero_padded b -> board_order a b ->
  due_ordinal a <= due_ordinal b.
Proof.
  intros (da & Va & Ea) (db & Vb & Eb) Hord. unfold due_ordinal, board_order in *.
  rewrite Ea, Eb in *. rewrite !strptime_isoformat_date by assumption.
  destruct Hord as [Hlt|[Heq _]].
  - destruct da as [y1 m1 d1], db as [y2 m2 d2]. cbn [year month day] in *.
    pose proof (valid_ymd_bounds _ _ _ Va) as (Hy1 & Hm1 & Hd1).
    pose proof (valid_ymd_bounds _ _ _ Vb) as (Hy2 & Hm2 & Hd2).
    pose proof (days_in_month_le_31 y1 m1 Hm1).
    pose proof (days_in_month_le_31 y2 m2 Hm2).
    apply isoformat_date_lt in Hlt; try lia.
    pose proof (toordinal_lt _ _ _ _ _ _ Va Vb Hlt). lia.
  - assert (E : Some da = Some db).
    { rewrite <- (strptime_isoformat_date da Va),
              <- (strptime_isoformat_date db Vb). now rewrite Heq. }
    injection E as ->. lia.
Qed.

(** X10: a board column is ordered by the text of the due dates, which is
    the order of the calendar when the dates are zero-padded: on a table
    whose due dates all are, [fetch_tasks_by_status] returns its rows with
    the day due never going down. *)
Theorem board_column_chronological (status : string) (w : World) :
  Forall zero_padded (rows (db w)) ->
  exists l,
    fetch_tasks_by_status status w = (Ok l, w) /\
    StronglySorted (fun a b => due_ordinal a <= due_ordinal b) l.
Proof.
  intros Hz. exists (select_by_status status (db w)). split; [reflexivity|].
  rewrite <- (map_id (select_by_status status (db w))).
  apply StronglySorted_map_impl with (R := board_order) (P := zero_padded).
  - intros a b. apply zero_padded_order.
  - rewrite Forall_forall in *. intros r Hr. apply Hz.
    now apply (select_by_status_In status (db w) r).
  - apply select_by_status_sorted.
Qed.

Lemma board_column_chronological_witness :
  Forall zero_padded (rows (db (world_on day0 demo_store))) /\
  exists l,
    fetch_tasks_by_status "todo" (world_on day0 demo_store)
    = (Ok l, world_on day0 demo_store) /\
    StronglySorted (fun a b => due_ordinal a <= due_ordinal b) l.
Proof.
  assert (Hz : Forall zero_padded (rows (db (world_on day0 demo_store)))).
  { cbn [world_on db demo_store rows].
    apply Forall_cons; [exists (mkDate 2024 3 4); split; reflexivity|].
    apply Forall_cons; [exists (mkDate 2024 3 2); split; reflexivity|].
    apply Forall_cons; [exists (mkDate 2024 2 27); split; reflexivity|].
    apply Forall_cons; [exists (mkDate 2024 3 10); split; reflexivity|].
    apply Forall_cons; [exists (mkDate 2024 3 2); split; reflexivity|].
    constructor. }
  split; [exact Hz|].
  exact (board_column_chronological "todo" (world_on day0 demo_store) Hz).
Defined.

(** The order is that of the text: an unpadded date, which [add_task]
    stores as it came, can stand after a later one. *)
Example board_column_unpadded :
  let w := session [Add "spring" "2024-3-1" "mid" "todo";
                    Add "autumn" "2024-10-01" "mid" "todo"]
                   (world_on day0 empty_store) in
  map Row.title (select_by_status "todo" (db w)) = ["autumn"; "spring"] /\
  map due_ordinal (select_by_status "todo" (db w)) = [739160; 738946].
Proof. split; reflexivity. Qed.

(** * Further facts: the views *)

Lemma bindV_run {A B : Type} (m : View A) (k : A -> View B) w a w' :
  m w = (Returned a, w') -> (x <~ m ;; k x) w = k a w'.
Proof. intros E. unfold bindV. now rewrite E. Qed.

Lemma bindV_fails {A B : Type} (m : View A) (k : A -> View B) w e w' :
  m w = (Failed e, w') -> (x <~ m ;; k x) w = (Failed e, w').
Proof. intros E. unfold bindV. now rewrite E. Qed.

Lemma subscript_label k w :
  (1 <= k <= 3 /\
   exists label, subscript PRIORITY_LABEL k w = (Returned label, w) /\
                 In (k, label) PRIORITY_LABEL) \/
  (~ 1 <= k <= 3 /\ subscript PRIORITY_LABEL k w = (Failed (KeyError k), w)).
Proof.
  cbn. destruct (Z.eqb_spec k 1) as [->|H1].
  { left. split; [lia|]. eexists. split; [reflexivity|]. cbn. auto. }
  destruct (Z.eqb_spec k 2) as [->|H2].
  { left. split; [lia|]. eexists. split; [reflexivity|]. cbn. auto. }
  destruct (Z.eqb_spec k 3) as [->|H3].
  { left. split; [lia|]. eexists. split; [reflexivity|]. cbn. auto. }
  right. split; [lia|reflexivity].
Qed.

(** A comprehension returns the results in order, or stops at the first
    element whose body fails; here the bodies do not touch the world. *)
Lemma comprehension_run {A B : Type} (f : A -> View B) (ok : A -> B -> Prop)
    (bad : A -> pyexn -> Prop) :
  (forall x w, (exists y, f x w = (Returned y, w) /\ ok x y) \/
               (exists e, f x w = (Failed e, w) /\ bad x e)) ->
  forall xs w,
    (exists ys, comprehension f xs w = (Returned ys, w) /\ Forall2 ok xs ys) \/
    (exists e x, comprehension f xs w = (Failed e, w) /\ In x xs /\ bad x e).
Proof.
  intros Hf. induction xs as [|x xs IH]; intros w; cbn [comprehension].
  - left. exists []. split; [reflexivity|constructor].
  - destruct (Hf x w) as [(y & Ey & Hy)|(e & Ee & He)].
    + rewrite (bindV_run _ _ _ _ _ Ey).
      destruct (IH w) as [(ys & Eys & Hys)|(e & x' & Ee & Hin & He)].
      * left. exists (y :: ys). rewrite (bindV_run _ _ _ _ _ Eys).
        split; [reflexivity|now constructor].
      * right. exists e, x'. rewrite (bindV_fails _ _ _ _ _ Ee).
        split; [reflexivity|]. split; [now right|exact He].
    + right. exists e, x. rewrite (bindV_fails _ _ _ _ _ Ee).
      split; [reflexivity|]. split; [now left|exact He].
Qed.

Lemma board_card_run r w :
  (exists c, board_card r w = (Returned c, w) /\ shows None r c) \/
  (exists e, board_card r w = (Failed e, w) /\ no_label r e).
Proof.
  unfold board_card.
  destruct (subscript_label (Row.priority r) w) as [(_ & l & E & Hl)|(Hn & E)].
  - left. rewrite (bindV_run _ _ _ _ _ E). eexists. split; [reflexivity|].
    repeat split; assumption.
  - right. rewrite (bindV_fails _ _ _ _ _ E). eexists. split; [reflexivity|].
    split; [reflexivity|exact Hn].
Qed.

Lemma today_card_run x w :
  (exists c, today_card x w = (Returned c, w) /\ shows (Some (fst x)) (snd x) c) \/
  (exists e, today_card x w = (Failed e, w) /\ no_label (snd x) e).
Proof.
  destruct x as [s r]. unfold today_card. cbn [fst snd].
  destruct (subscript_label (Row.priority r) w) as [(_ & l & E & Hl)|(Hn & E)].
  - left. rewrite (bindV_run _ _ _ _ _ E). eexists. split; [reflexivity|].
    repeat split; assumption.
  - right. rewrite (bindV_fails _ _ _ _ _ E). eexists. split; [reflexivity|].
    split; [reflexivity|exact Hn].
Qed.

Lemma lift_run {A : Type} (m : M A) w :
  lift m w = (match fst (m w) with
              | Ok a => Returned a
              | Raise e => Failed (Uncaught e)
              end, snd (m w)).
Proof. unfold lift. destruct (m w) as [[a|e] w']; reflexivity. Qed.

Lemma api_today_run frm top w :
  api_today frm top w
  = match fetch_today frm (match top with Some n => n | None => 5 end) w with
    | (Ok l, w1) => comprehension today_card l w1
    | (Raise e, w1) => (Failed (Uncaught e), w1)
    end.
Proof.
  unfold api_today, bindV, lift.
  destruct (fetch_today frm _ w) as [[l|e] w1]; [|reflexivity].
  destruct (comprehension today_card l w1) as [[d|e] w2]; reflexivity.
Qed.

(** X11: [api_today] answers with one card per entry of the ranking that
    [fetch_today] returns for the same [top] (5 when none is given), in the
    same order, each with the entry's score, the columns of its row and the
    label of its level.  It fails with the exception of [fetch_today] when
    that raises and with [KeyError] when a returned entry has a level other
    than 1, 2, 3; it never writes the table. *)
Theorem api_today_cards (frm : string -> option date) (top : option Z)
    (w : World) :
  let n := match top with Some n => n | None => 5 end in
  db (snd (api_today frm top w)) = db w /\
  (forall e, fst (fetch_today frm n w) = Raise e ->
             fst (api_today frm top w) = Failed (Uncaught e)) /\
  (forall l, fst (fetch_today frm n w) = Ok l ->
     (exists data,
         fst (api_today frm top w) = Returned data /\
         Forall2 (fun x c => shows (Some (fst x)) (snd x) c) l data) \/
     (exists x,
         In x l /\ ~ 1 <= Row.priority (snd x) <= 3 /\
         fst (api_today frm top w) = Failed (KeyError (Row.priority (snd x))))).
Proof.
  intros n. rewrite (api_today_run frm top w). fold n.
  pose proof (kd_fetch_today frm n w) as Hdb.
  destruct (fetch_today frm n w) as [[l|e] w1] eqn:E; cbn [fst snd] in *.
  - destruct (comprehension_run today_card _ _ today_card_run l w1)
      as [(data & Ed & Hd)|(e & x & Ee & Hin & He1 & He2)].
    + rewrite Ed. cbn [fst snd].
      split; [exact Hdb|]. split; [discriminate|].
      intros l' [= <-]. left. exists data. split; [reflexivity|exact Hd].
    + rewrite Ee. cbn [fst snd].
      split; [exact Hdb|]. split; [discriminate|].
      intros l' [= <-]. right. exists x. subst e. repeat split; assumption.
  - split; [exact Hdb|]. split; [|discriminate].
    intros e' [= <-]. reflexivity.
Qed.

Lemma length_filter_statuses (l : list Row.t) :
  (List.length (filter (fun r => String.eqb (Row.status r) "todo") l)
   + List.length (filter (fun r => String.eqb (Row.status r) "pending") l)
   + List.length (filter (fun r => String.eqb (Row.status r) "progress") l)
   + List.length (filter (fun r => String.eqb (Row.status r) "done") l))%nat
  = List.length (filter (fun r => str_in (Row.status r) STATUSES) l).
Proof.
  induction l as [|r l IH]; [reflexivity|]. cbn [filter str_in STATUSES existsb].
  destruct (String.eqb_spec (Row.status r) "todo") as [E1|E1];
  destruct (String.eqb_spec (Row.status r) "pending") as [E2|E2];
  destruct (String.eqb_spec (Row.status r) "progress") as [E3|E3];
  destruct (String.eqb_spec (Row.status r) "done") as [E4|E4];
    try (rewrite E1 in *; discriminate);
    try (rewrite E2 in *; discriminate);
    try (rewrite E3 in *; discriminate);
    cbn [orb List.length]; cbn [str_in STATUSES existsb] in IH; lia.
Qed.

Lemma select_by_status_length status st :
  List.length (select_by_status status st)
  = List.length (filter (fun r => String.eqb (Row.status r) status) (rows st)).
Proof. apply Permutation_length, select_by_status_perm. Qed.

(** [index] up to the end of its loop: the four columns, or the failure of
    a card. *)
Lemma index_columns frm w :
  (exists c1 c2 c3 c4,
      Forall2 (shows None) (select_by_status "todo" (db w)) c1 /\
      Forall2 (shows None) (select_by_status "pending" (db w)) c2 /\
      Forall2 (shows None) (select_by_status "progress" (db w)) c3 /\
      Forall2 (shows None) (select_by_status "done" (db w)) c4 /\
      index frm w
      = (today <~ lift (fetch_today frm 5) ;;
         today_view <~ comprehension today_card today ;;
         retV (mkContext
                 [("todo", c1); ("pending", c2); ("progress", c3); ("done", c4)]
                 [("todo", Z.of_nat (List.length (select_by_status "todo" (db w))));
                  ("pending", Z.of_nat (List.length (select_by_status "pending" (db w))));
                  ("progress", Z.of_nat (List.length (select_by_status "progress" (db w))));
                  ("done", Z.of_nat (List.length (select_by_status "done" (db w))))]
                 today_view STATUS_LABEL)) w) \/
  (exists e r,
      index frm w = (Failed e, w) /\
      In r (rows (db w)) /\ In (Row.status r) STATUSES /\ no_label r e).
Proof.
  assert (Hcol : forall st,
    In st STATUSES ->
    (exists c, comprehension board_card (select_by_status st (db w)) w
               = (Returned c, w) /\
               Forall2 (shows None) (select_by_status st (db w)) c) \/
    (exists e r, comprehension board_card (select_by_status st (db w)) w
                 = (Failed e, w) /\
                 In r (rows (db w)) /\ In (Row.status r) STATUSES /\ no_label r e)).
  { intros st Hst.
    destruct (comprehension_run board_card _ _ board_card_run
                (select_by_status st (db w)) w)
      as [(c & Ec & Hc)|(e & r & Ee & Hin & He)].
    - left. exists c. split; assumption.
    - right. exists e, r. split; [exact Ee|].
      apply select_by_status_In in Hin. destruct Hin as [Hin <-].
      split; [exact Hin|]. split; [exact Hst|exact He]. }
  unfold index. cbn [for_eachV STATUSES].
  destruct (Hcol "todo") as [(c1 & E1 & H1)|(e & r & Ee & Hr)]; [cbn; tauto| |].
  2:{ right. exists e, r. split; [|exact Hr].
      do 2 (erewrite bindV_fails; [reflexivity|]).
      erewrite bindV_run by reflexivity. erewrite bindV_fails; [reflexivity|exact Ee]. }
  destruct (Hcol "pending") as [(c2 & E2 & H2)|(e & r & Ee & Hr)]; [cbn; tauto| |].
  2:{ right. exists e, r. split; [|exact Hr].
      erewrite bindV_fails; [reflexivity|].
      erewrite bindV_run.
      2:{ erewrite bindV_run by reflexivity. erewrite bindV_run by exact E1.
          reflexivity. }
      erewrite bindV_fails; [reflexivity|].
      erewrite bindV_run by reflexivity. erewrite bindV_fails; [reflexivity|exact Ee]. }
  destruct (Hcol "progress") as [(c3 & E3 & H3)|(e & r & Ee & Hr)]; [cbn; tauto| |].
  2:{ right. exists e, r. split; [|exact Hr].
      erewrite bindV_fails; [reflexivity|].
      erewrite bindV_run.
      2:{ erewrite bindV_run by reflexivity. erewrite bindV_run by exact E1.
          reflexivity. }
      erewrite bindV_run.
      2:{ erewrite bindV_run by reflexivity. erewrite bindV_run by exact E2.
          reflexivity. }
      erewrite bindV_fails; [reflexivity|].
      erewrite bindV_run by reflexivity. erewrite bindV_fails; [reflexivity|exact Ee]. }
  destruct (Hcol "done") as [(c4 & E4 & H4)|(e & r & Ee & Hr)]; [cbn; tauto| |].
  2:{ right. exists e, r. split; [|exact Hr].
      erewrite bindV_fails; [reflexivity|].
      erewrite bindV_run.
      2:{ erewrite bindV_run by reflexivity. erewrite bindV_run by exact E1.
          reflexivity. }
      erewrite bindV_run.
      2:{ erewrite bindV_run by reflexivity. erewrite bindV_run by exact E2.
          reflexivity. }
      erewrite bindV_run.
      2:{ erewrite bindV_run by reflexivity. erewrite bindV_run by exact E3.
          reflexivity. }
      erewrite bindV_fails; [reflexivity|].
      erewrite bindV_run by reflexivity. erewrite bindV_fails; [reflexivity|exact Ee]. }
  left. exists c1, c2, c3, c4. repeat (split; [assumption|]).
  match goal with
  | |- bindV ?loop ?k w = _ =>
      assert (Hloop : loop w
        = (Returned
             ([("todo", c1); ("pending", c2); ("progress", c3); ("done", c4)],
              [("todo", Z.of_nat (List.length (select_by_status "todo" (db w))));
               ("pending", Z.of_nat (List.length (select_by_status "pending" (db w))));
               ("progress", Z.of_nat (List.length (select_by_status "progress" (db w))));
               ("done", Z.of_nat (List.length (select_by_status "done" (db w))))]),
           w));
      [|rewrite (bindV_run loop k w _ w Hloop); reflexivity]
  end.
  erewrite bindV_run.
  2:{ erewrite bindV_run by reflexivity. erewrite bindV_run by exact E1.
      reflexivity. }
  erewrite bindV_run.
  2:{ erewrite bindV_run by reflexivity. erewrite bindV_run by exact E2.
      reflexivity. }
  erewrite bindV_run.
  2:{ erewrite bindV_run by reflexivity. erewrite bindV_run by exact E3.
      reflexivity. }
  erewrite bindV_run.
  2:{ erewrite bindV_run by reflexivity. erewrite bindV_run by exact E4.
      reflexivity. }
  reflexivity.
Qed.

Lemma fetch_today_rows frm top w l :
  fst (fetch_today frm top w) = Ok l ->
  forall x, In x l -> In (snd x) (rows (db w)).
Proof.
  intros Hl x Hin.
  destruct (parses_Forall_dec (Sql.select_open (db w))) as [Hp|Hex].
  2:{ apply (fetch_today_raises frm top) in Hex. congruence. }
  destruct (fetch_today_ok frm w Hp) as (keyed & Hrun & Hall).
  rewrite Hrun in Hl. injection Hl as <-. apply In_slice_to in Hin.
  apply (in_map snd) in Hin.
  assert (Hperm : Permutation (map snd (map snd (sort_by tuple_lt keyed)))
                              (Sql.select_open (db w))).
  { transitivity (map snd (map snd keyed)).
    - do 2 apply Permutation_map. apply sort_by_perm.
    - clear - Hall. induction Hall as [|r e rs es Hre _ IH]; cbn; [constructor|].
      destruct Hre as (_ & _ & _ & _ & Hr & _). rewrite Hr. now constructor. }
  apply (Permutation_in _ Hperm) in Hin. now apply select_open_incl.
Qed.

Lemma index_today_run frm w (B : list (string * list Card.t))
    (C : list (string * Z)) :
  (today <~ lift (fetch_today frm 5) ;;
   today_view <~ comprehension today_card today ;;
   retV (mkContext B C today_view STATUS_LABEL)) w
  = match fetch_today frm 5 w with
    | (Ok l, w1) =>
        match comprehension today_card l w1 with
        | (Returned tv, w2) => (Returned (mkContext B C tv STATUS_LABEL), w2)
        | (Failed e, w2) => (Failed e, w2)
        end
    | (Raise e, w1) => (Failed (Uncaught e), w1)
    end.
Proof.
  unfold bindV, lift.
  destruct (fetch_today frm 5 w) as [[l|e] w1]; [|reflexivity].
  destruct (comprehension today_card l w1) as [[d|e] w2]; reflexivity.
Qed.

(** X12: when [index] returns, the board it hands to the template has the
    columns todo, pending, progress and done, in this order; each holds one
    card per row of that status, in the order of [fetch_tasks_by_status],
    and [counts] holds the length of each.  The counts add up to the number
    of rows whose status is one of the four: a row with another status is
    on no column.  [today] shows what [fetch_today] returns for top 5, and
    the table is as it was. *)
Theorem index_board (frm : string -> option date) (w : World) (ctx : Context) :
  fst (index frm w) = Returned ctx ->
  db (snd (index frm w)) = db w /\
  (exists c1 c2 c3 c4,
      board ctx = [("todo", c1); ("pending", c2); ("progress", c3); ("done", c4)] /\
      counts ctx = [("todo", Z.of_nat (List.length c1));
                    ("pending", Z.of_nat (List.length c2));
                    ("progress", Z.of_nat (List.length c3));
                    ("done", Z.of_nat (List.length c4))] /\
      Forall2 (shows None) (select_by_status "todo" (db w)) c1 /\
      Forall2 (shows None) (select_by_status "pending" (db w)) c2 /\
      Forall2 (shows None) (select_by_status "progress" (db w)) c3 /\
      Forall2 (shows None) (select_by_status "done" (db w)) c4) /\
  fold_right Z.add 0 (map snd (counts ctx))
  = Z.of_nat (List.length (filter (fun r => str_in (Row.status r) STATUSES)
                                  (rows (db w)))) /\
  (exists l, fst (fetch_today frm 5 w) = Ok l /\
             Forall2 (fun x c => shows (Some (fst x)) (snd x) c) l (today ctx)).
Proof.
  intros Hctx.
  destruct (index_columns frm w)
    as [(c1 & c2 & c3 & c4 & H1 & H2 & H3 & H4 & Hrun)|(e & r & Hrun & _)].
  2:{ rewrite Hrun in Hctx. discriminate. }
  rewrite Hrun, index_today_run in *.
  pose proof (kd_fetch_today frm 5 w) as Hdb.
  destruct (fetch_today frm 5 w) as [[l|e] w1]; [|discriminate].
  cbn [fst snd] in Hdb.
  destruct (comprehension_run today_card _ _ today_card_run l w1)
    as [(tv & Et & Ht)|(e & x & Ee & _)];
    [rewrite Et in *|rewrite Ee in Hctx; discriminate].
  cbn [fst snd] in *. injection Hctx as <-. cbn [board counts today].
  split; [exact Hdb|]. split; [|split].
  - exists c1, c2, c3, c4.
    rewrite (Forall2_length H1), (Forall2_length H2), (Forall2_length H3),
            (Forall2_length H4).
    repeat split; assumption.
  - cbn [map snd fold_right]. rewrite !select_by_status_length.
    rewrite <- length_filter_statuses. lia.
  - exists l. split; [reflexivity|exact Ht].
Qed.

Lemma index_board_witness :
  (exists ctx, fst (index fromisoformat_seconds_date (world_on day0 demo_store))
               = Returned ctx) /\
  exists ctx,
    fst (index fromisoformat_seconds_date (world_on day0 demo_store)) = Returned ctx /\
    fold_right Z.add 0 (map snd (counts ctx)) = 5.
Proof.
  assert (H : exists ctx,
             fst (index fromisoformat_seconds_date (world_on day0 demo_store))
             = Returned ctx) by (eexists; vm_compute; reflexivity).
  split; [exact H|]. destruct H as [ctx H]. exists ctx. split; [exact H|].
  destruct (index_board fromisoformat_seconds_date (world_on day0 demo_store)
              ctx H) as (_ & _ & Hsum & _).
  rewrite Hsum. reflexivity.
Defined.

(** X13: after any session on an empty table the views do not fail:
    [index] returns a board whose counts add up to the number of rows of
    the table, and [api_today] returns for every [top]. *)
Theorem views_return_after_session (frm : string -> option date)
    (qs : list request) (clk : nat -> datetime) (n : nat) (top : option Z) :
  let w := session qs (mkWorld empty_store clk n) in
  (exists ctx,
      fst (index frm w) = Returned ctx /\
      fold_right Z.add 0 (map snd (counts ctx))
      = Z.of_nat (List.length (rows (db w)))) /\
  (exists data, fst (api_today frm top w) = Returned data).
Proof.
  intros w.
  assert (Hw : well_formed (db w))
    by (apply session_well_formed, empty_store_well_formed).
  destruct Hw as (Hrows & _ & _).
  assert (Hlevel : forall r, In r (rows (db w)) -> 1 <= Row.priority r <= 3).
  { rewrite Forall_forall in Hrows. intros r Hr. apply (Hrows r Hr). }
  assert (Hp : Forall parses (Sql.select_open (db w))).
  { apply select_open_parses. eapply Forall_impl; [|exact Hrows].
    cbv beta. tauto. }
  assert (Htoday : forall k, exists l data,
             fetch_today frm k w = (Ok l, snd (fetch_today frm k w)) /\
             comprehension today_card l (snd (fetch_today frm k w))
             = (Returned data, snd (fetch_today frm k w))).
  { intros k. destruct (fetch_today_ok frm w Hp) as (keyed & Hok & _).
    specialize (Hok k).
    destruct (fetch_today frm k w) as [[l|e] w1] eqn:E; [|discriminate].
    cbn [fst snd] in *. exists l.
    destruct (comprehension_run today_card _ _ today_card_run l w1)
      as [(data & Ed & _)|(e & x & _ & Hin & _ & Hbad)].
    - exists data. split; [reflexivity|exact Ed].
    - exfalso. apply Hbad, Hlevel.
      apply (fetch_today_rows frm k w l); [now rewrite E|exact Hin]. }
  split.
  - destruct (index_columns frm w)
      as [(c1 & c2 & c3 & c4 & _ & _ & _ & _ & Hrun)|(e & r & _ & Hr & _ & _ & Hbad)].
    2:{ exfalso. apply Hbad, Hlevel, Hr. }
    destruct (Htoday 5) as (l & data & El & Ed).
    rewrite Hrun, index_today_run, El, Ed. eexists. split; [reflexivity|].
    cbn [counts map snd fold_right]. rewrite !select_by_status_length.
    pose proof (length_filter_statuses (rows (db w))) as Hsum.
    rewrite (filter_id (fun r => str_in (Row.status r) STATUSES)) in Hsum.
    + lia.
    + intros r Hr. apply str_in_iff. rewrite Forall_forall in Hrows.
      apply (Hrows r Hr).
  - rewrite api_today_run. destruct (Htoday (match top with Some k => k | None => 5 end))
      as (l & data & El & Ed).
    rewrite El, Ed. exists data. reflexivity.
Qed.

(** * Further facts: the schema *)

Section SchemaFacts.

Import Schema.

Lemma ident_eqb_refl a : ident_eqb a a = true.
Proof. apply String.eqb_refl. Qed.

Lemma ident_eqb_trans a b c :
  ident_eqb a b = true -> ident_eqb b c = true -> ident_eqb a c = true.
Proof. unfold ident_eqb. rewrite !String.eqb_eq. congruence. Qed.

Lemma ident_eqb_sym a b : ident_eqb a b = ident_eqb b a.
Proof. apply String.eqb_sym. Qed.

Lemma find_table_snoc d t tb :
  find_table d t = None -> find_table (d ++ [(t, tb)]) t = Some tb.
Proof.
  induction d as [|[k v] d IH]; cbn.
  - now rewrite ident_eqb_refl.
  - destruct (ident_eqb t k); [discriminate|exact IH].
Qed.

Lemma find_table_snoc_other d t t' tb :
  ident_eqb t' t = false -> find_table (d ++ [(t, tb)]) t' = find_table d t'.
Proof.
  intros H. induction d as [|[k v] d IH]; cbn.
  - now rewrite H.
  - destruct (ident_eqb t' k); [reflexivity|exact IH].
Qed.

Lemma find_table_replace d t tb tb' :
  find_table d t = Some tb -> find_table (replace_table d t tb') t = Some tb'.
Proof.
  induction d as [|[k v] d IH]; cbn; [discriminate|].
  destruct (ident_eqb t k) eqn:E; cbn; rewrite E; [reflexivity|exact IH].
Qed.

Lemma find_table_replace_other d t t' tb' :
  ident_eqb t' t = false ->
  find_table (replace_table d t tb') t' = find_table d t'.
Proof.
  intros H. induction d as [|[k v] d IH]; cbn; [reflexivity|].
  destruct (ident_eqb t k) eqn:E; cbn.
  - destruct (ident_eqb t' k) eqn:E'; [|reflexivity].
    rewrite ident_eqb_sym in E.
    now rewrite (ident_eqb_trans t' k t E' E) in H.
  - destruct (ident_eqb t' k); [reflexivity|exact IH].
Qed.

Lemma field_app r col v extra :
  field r col = Some v -> field (r ++ extra) col = Some v.
Proof.
  induction r as [|[c x] r IH]; cbn; [discriminate|].
  destruct (ident_eqb col c); [auto|exact IH].
Qed.

Lemma field_snoc r col v :
  field r col = None -> field (r ++ [(col, v)]) col = Some v.
Proof.
  induction r as [|[c x] r IH]; cbn.
  - now rewrite ident_eqb_refl.
  - destruct (ident_eqb col c); [discriminate|exact IH].
Qed.

Lemma find_table_app d t k tb :
  find_table (d ++ [(k, tb)]) t
  = match find_table d t with
    | Some x => Some x
    | None => if ident_eqb t k then Some tb else None
    end.
Proof.
  induction d as [|[k' v] d IH]; cbn; [reflexivity|].
  destruct (ident_eqb t k'); [reflexivity|exact IH].
Qed.

Lemma find_table_ident d t t' :
  ident_eqb t t' = true -> find_table d t = find_table d t'.
Proof.
  unfold ident_eqb. rewrite String.eqb_eq. intros H.
  induction d as [|[k v] d IH]; cbn; [reflexivity|].
  unfold ident_eqb. rewrite H. destruct (String.eqb (lower t') (lower k));
    [reflexivity|exact IH].
Qed.

(** The [CREATE TABLE] of [init_db] on a database without a tasks table:
    the tables that were there, the new one, and [sqlite_sequence] when it
    was not there. *)
Lemma create_tasks_fresh d :
  find_table d "tasks" = None ->
  let d1 := create_table_if_not_exists "tasks" tasks_columns d in
  find_table d1 "tasks" = Some (mkTable tasks_columns []) /\
  forall t, ident_eqb t "tasks" = false ->
    find_table d1 t
    = match find_table d t with
      | Some tb => Some tb
      | None => if ident_eqb t "sqlite_sequence" then Some sqlite_sequence
                else None
      end.
Proof.
  intros E d1. unfold d1, create_table_if_not_exists. rewrite E.
  change (autoincrement tasks_columns) with true. cbv iota zeta.
  rewrite (find_table_app d "sqlite_sequence"). 
  change (ident_eqb "sqlite_sequence" "tasks") with false.
  destruct (find_table d "sqlite_sequence") as [sq|] eqn:Es.
  - split; [now apply find_table_snoc|].
    intros t Ht. rewrite find_table_app, Ht.
    destruct (find_table d t) as [tb|] eqn:Et; [reflexivity|].
    destruct (ident_eqb t "sqlite_sequence") eqn:Ets; [|reflexivity].
    rewrite (find_table_ident d t "sqlite_sequence" Ets) in Et. congruence.
  - split.
    + rewrite find_table_app, (find_table_snoc d "tasks" _ E). reflexivity.
    + intros t Ht. rewrite !find_table_app, Ht.
      destruct (find_table d t); reflexivity.
Qed.

(** [init_db] case by case: no table yet, a table with a [status] column,
    a table without one, a table with one of another casing. *)
Lemma init_db_cases d :
  match find_table d "tasks" with
  | None =>
      init_db d
      = Some (replace_table (create_table_if_not_exists "tasks" tasks_columns d)
                "tasks"
                (mkTable (tasks_columns ++ [("status", status_coldef)]) []))
  | Some tb =>
      if str_in "status" (map fst (columns tb)) then init_db d = Some d
      else if has_column tb "status" then init_db d = None
      else init_db d
           = Some (replace_table d "tasks"
                     (mkTable (columns tb ++ [("status", status_coldef)])
                              (map (fun r => r ++ [("status", Text "todo")])
                                   (records tb))))
  end.
Proof.
  destruct (find_table d "tasks") as [tb|] eqn:E.
  - unfold init_db, create_table_if_not_exists. rewrite E.
    unfold ensure_column, table_info. rewrite E.
    destruct (str_in "status" (map fst (columns tb))); cbn [negb]; [reflexivity|].
    unfold add_column. rewrite E.
    destruct (has_column tb "status"); reflexivity.
  - destruct (create_tasks_fresh d E) as [Hf _].
    unfold init_db, ensure_column, table_info. rewrite Hf. cbn [columns].
    change (str_in "status" (map fst tasks_columns)) with false. cbn [negb].
    unfold add_column. rewrite Hf. reflexivity.
Qed.


(** X15: [init_db] adds and never takes away.  A database without a tasks
    table gets an empty one with the seven columns and [status], and with
    it the empty table [sqlite_sequence] of SQLite when it had none; a
    tasks table that has a [status] column is left as it is; one that has
    none keeps its columns and its records, in order, every record keeping
    the value of each of its columns and reading "todo" in the new one,
    whatever its [done] holds.  Every other table that was there is kept
    as it was, and no other table appears. *)
Theorem init_db_keeps_data (d d' : database) :
  init_db d = Some d' ->
  (forall t tb, ident_eqb t "tasks" = false ->
     find_table d t = Some tb -> find_table d' t = Some tb) /\
  (forall t, ident_eqb t "tasks" = false -> find_table d t = None ->
     find_table d' t
     = match find_table d "tasks" with
       | Some _ => None
       | None => if ident_eqb t "sqlite_sequence" then Some sqlite_sequence
                 else None
       end) /\
  match find_table d "tasks" with
  | None =>
      find_table d' "tasks"
      = Some (mkTable (tasks_columns ++ [("status", status_coldef)]) [])
  | Some tb =>
      (str_in "status" (map fst (columns tb)) = true -> d' = d) /\
      (str_in "status" (map fst (columns tb)) = false ->
       exists tb',
         find_table d' "tasks" = Some tb' /\
         columns tb' = columns tb ++ [("status", status_coldef)] /\
         Forall2 (fun r r' =>
                    (forall col v, field r col = Some v -> field r' col = Some v) /\
                    (field r "status" = None ->
                     field r' "status" = Some (Text "todo")))
                 (records tb) (records tb'))
  end.
Proof.
  intros Hd'. pose proof (init_db_cases d) as Hd.
  destruct (find_table d "tasks") as [tb|] eqn:E.
  - destruct (str_in "status" (map fst (columns tb))) eqn:Es.
    + rewrite Hd in Hd'. injection Hd' as <-.
      split; [intros t tb0 _ H; exact H|]. split; [intros t _ H; exact H|].
      split; [reflexivity|discriminate].
    + destruct (has_column tb "status") eqn:Eh; [congruence|].
      rewrite Hd in Hd'. injection Hd' as <-. split; [|split].
      * intros t tb0 Ht H. now rewrite find_table_replace_other.
      * intros t Ht H. now rewrite find_table_replace_other.
      * split; [discriminate|]. intros _. eexists.
        split; [apply (find_table_replace d "tasks" tb _ E)|].
        split; [reflexivity|]. cbn [records]. apply Forall2_map_self.
        intros r. split; [intros col v; apply field_app|apply field_snoc].
  - rewrite Hd in Hd'. injection Hd' as <-.
    destruct (create_tasks_fresh d E) as [Hf Hother]. split; [|split].
    + intros t tb0 Ht H. rewrite find_table_replace_other by exact Ht.
      now rewrite (Hother t Ht), H.
    + intros t Ht H. rewrite find_table_replace_other by exact Ht.
      now rewrite (Hother t Ht), H.
    + apply (find_table_replace _ "tasks" (mkTable tasks_columns [])).
      exact Hf.
Qed.

Lemma init_db_keeps_data_witness :
  init_db legacy_database <> None /\
  exists d' tb',
    init_db legacy_database = Some d' /\
    find_table d' "tasks" = Some tb' /\
    List.length (records tb') = 1%nat.
Proof.
  split; [discriminate|].
  assert (H : exists d', init_db legacy_database = Some d')
    by (eexists; reflexivity).
  destruct H as [d' H].
  destruct (init_db_keeps_data legacy_database d' H) as (_ & _ & Hk).
  change (find_table legacy_database "tasks")
    with (Some (mkTable tasks_columns legacy_records)) in Hk.
  destruct Hk as [_ Hk]. destruct (Hk eq_refl) as (tb' & Hf & _ & Hrec).
  exists d', tb'. split; [exact H|]. split; [exact Hf|].
  apply Forall2_length in Hrec. now rewrite <- Hrec.
Defined.

(** On a new file [init_db] leaves two tables, as SQLite does. *)
Example init_db_new_file :
  option_map (map fst) (init_db []) = Some ["tasks"; "sqlite_sequence"] /\
  option_map (fun d' => find_table d' "sqlite_sequence") (init_db [])
  = Some (Some sqlite_sequence).
Proof. split; reflexivity. Qed.

(** A task completed under the old schema comes back as "todo". *)
Example init_db_legacy_done :
  option_map (fun d' => option_map records (find_table d' "tasks"))
             (init_db legacy_database)
  = Some (Some [[("id", Int 1); ("title", Text "paid the rent");
                 ("due_date", Text "2024-01-31"); ("priority", Int 2);
                 ("created_at", Text "2024-01-02T09:00:00"); ("done", Int 1);
                 ("done_at", Text "2024-01-30T18:00:00");
                 ("status", Text "todo")]]).
Proof. reflexivity. Qed.

End SchemaFacts.
